(** * CopyTextStyle.py: Text+ style copier (force restore)

    A shallow embedding of [src/CopyTextStyle.py].  The script is glue code
    over the scripting interface of a video editor: every object it touches
    (application, timeline, clip, composition, tool) belongs to the host.
    The host is therefore a parameter of the development (record [Host]):
    a world state, and for each handle and method name what a call returns
    or raises and how it changes the world.  The script itself is written
    in a small state-and-exception monad over

    - the host world,
    - the Python objects the script shares by reference
      (the captured settings dict and its deep copies),
    - the lines of the [Logger] and what was printed,
    - the sequence of host calls issued so far (used only to state what the
      script did and did not do to the host). *)

From Stdlib Require Import List String Ascii ZArith Bool Arith Lia.
From Stdlib Require Import Decimal DecimalString.
Import ListNotations.
Local Open Scope string_scope.
Local Open Scope list_scope.
Set Warnings "-notation-for-abbreviation".

(** ** Python values *)

Module Py.

(** A host object is known to the script only by its identity. *)
Definition handle := nat.

(** Hashable values: what may be compared with a string constant, used as a
    dict key or handed around as an object.  Python's [bool] is a subclass
    of [int] ([False == 0], [True == 1], same truth value), so booleans are
    the integers 0 and 1.  Floating-point numbers never take part in a
    decision of the script and are left out. *)
Inductive atom : Type :=
| ANone
| AInt (z : Z)
| AStr (s : string)
| AObj (h : handle).

(** A dict keeps insertion order (the script relies on "first entry"), so it
    is an association list. *)
#[warnings="-register-all"]
Inductive pyval : Type :=
| VAtom (a : atom)
| VList (l : list pyval)
| VDict (d : list (atom * pyval)).

Notation VNone := (VAtom ANone).
Notation VInt z := (VAtom (AInt z)).
Notation VStr s := (VAtom (AStr s)).
Notation VObj h := (VAtom (AObj h)).
Notation VFalse := (VAtom (AInt 0%Z)).

Definition dict := list (atom * pyval).

Definition atom_eqb (a b : atom) : bool :=
  match a, b with
  | ANone, ANone => true
  | AInt x, AInt y => Z.eqb x y
  | AStr s, AStr t => String.eqb s t
  | AObj g, AObj h => Nat.eqb g h
  | _, _ => false
  end.

(** [d[k]] as a lookup ([None] is Python's [KeyError]). *)
Fixpoint dict_get (k : atom) (d : dict) : option pyval :=
  match d with
  | [] => None
  | (k', v) :: d' => if atom_eqb k k' then Some v else dict_get k d'
  end.

(** [k in d] *)
Definition dict_mem (k : atom) (d : dict) : bool :=
  match dict_get k d with Some _ => true | None => false end.

(** [d[k] = v]: an existing key keeps its place, a new key goes last. *)
Fixpoint dict_set (k : atom) (v : pyval) (d : dict) : dict :=
  match d with
  | [] => [(k, v)]
  | (k', v') :: d' =>
      if atom_eqb k k' then (k', v) :: d' else (k', v') :: dict_set k v d'
  end.

(** [del d[k]] for a key that is present. *)
Definition dict_del (k : atom) (d : dict) : dict :=
  filter (fun kv => negb (atom_eqb k (fst kv))) d.

Definition dict_keys (d : dict) : list atom := map fst d.
Definition dict_values (d : dict) : list pyval := map snd d.

(** [a == b].  Host objects compare by identity, lists element by element,
    dicts as sets of entries. *)
Fixpoint py_eq (a b : pyval) : bool :=
  match a, b with
  | VAtom x, VAtom y => atom_eqb x y
  | VList l, VList m =>
      (fix all2 (l m : list pyval) : bool :=
         match l, m with
         | [], [] => true
         | x :: l', y :: m' => py_eq x y && all2 l' m'
         | _, _ => false
         end) l m
  | VDict d, VDict e =>
      Nat.eqb (List.length d) (List.length e) &&
      (fix sub (d : dict) : bool :=
         match d with
         | [] => true
         | (k, v) :: d' =>
             match dict_get k e with
             | Some w => py_eq v w
             | None => false
             end && sub d'
         end) d
  | _, _ => false
  end.

(** [bool(v)] *)
Definition truthy (v : pyval) : bool :=
  match v with
  | VNone => false
  | VInt z => negb (Z.eqb z 0)
  | VStr s => negb (String.eqb s "")
  | VObj _ => true
  | VList l => match l with [] => false | _ => true end
  | VDict d => match d with [] => false | _ => true end
  end.

Definition is_none (v : pyval) : bool :=
  match v with VNone => true | _ => false end.

Definition type_name (v : pyval) : string :=
  match v with
  | VNone => "NoneType"
  | VInt _ => "int"
  | VStr _ => "str"
  | VObj _ => "PyRemoteObject"
  | VList _ => "list"
  | VDict _ => "dict"
  end.

(** Exceptions.  Every exception of the model is an instance of Python's
    [Exception]; [exn_str] is [str(e)].  The texts of the interpreter's own
    messages are abbreviated. *)
Inductive exn : Type :=
| AttributeError (msg : string)
| TypeError (msg : string)
| KeyError (msg : string)
| HostError (msg : string).

Definition exn_str (e : exn) : string :=
  match e with
  | AttributeError m | TypeError m | KeyError m | HostError m => m
  end.

Inductive result (A : Type) : Type :=
| Ok (a : A)
| Raise (e : exn).
Arguments Ok {A} a.
Arguments Raise {A} e.

Definition no_attribute (v : pyval) (name : string) : exn :=
  AttributeError ("'" ++ type_name v ++ "' object has no attribute '" ++ name ++ "'").

(** [t in s] for strings: [t] occurs in [s]. *)
Fixpoint contains (t s : string) : bool :=
  String.prefix t s ||
  match s with
  | EmptyString => false
  | String _ s' => contains t s'
  end.

(** [x in c] *)
Definition py_in (x c : pyval) : result bool :=
  match c with
  | VStr s =>
      match x with
      | VStr t => Ok (contains t s)
      | _ => Raise (TypeError ("'in <string>' requires string as left operand, not " ++ type_name x))
      end
  | VList l => Ok (existsb (py_eq x) l)
  | VDict d =>
      match x with
      | VAtom a => Ok (dict_mem a d)
      | _ => Raise (TypeError ("unhashable type: '" ++ type_name x ++ "'"))
      end
  | _ => Raise (TypeError ("argument of type '" ++ type_name c ++ "' is not iterable"))
  end.

Fixpoint chars (s : string) : list pyval :=
  match s with
  | EmptyString => []
  | String c s' => VStr (String c EmptyString) :: chars s'
  end.

(** What [for x in v] runs through. *)
Definition py_iter (v : pyval) : result (list pyval) :=
  match v with
  | VList l => Ok l
  | VDict d => Ok (map VAtom (dict_keys d))
  | VStr s => Ok (chars s)
  | _ => Raise (TypeError ("'" ++ type_name v ++ "' object is not iterable"))
  end.

(** [d.values()] and [d.items()].  Only a dict has them: host objects offer
    the methods of the host interface and nothing else. *)
Definition py_values (v : pyval) : result (list pyval) :=
  match v with
  | VDict d => Ok (dict_values d)
  | _ => Raise (no_attribute v "values")
  end.

Definition py_items (v : pyval) : result dict :=
  match v with
  | VDict d => Ok d
  | _ => Raise (no_attribute v "items")
  end.

(** [c[k]] for a hashable [k] that is not an integer. *)
Definition py_getitem (c : pyval) (k : atom) : result pyval :=
  match c with
  | VDict d =>
      match dict_get k d with
      | Some v => Ok v
      | None => Raise (KeyError "key")
      end
  | VList _ => Raise (TypeError "list indices must be integers or slices")
  | VStr _ => Raise (TypeError "string indices must be integers")
  | _ => Raise (TypeError ("'" ++ type_name c ++ "' object is not subscriptable"))
  end.

(** [d[k] = v] on a dict. *)
Definition py_setitem (d : dict) (k v : pyval) : result dict :=
  match k with
  | VAtom a => Ok (dict_set a v d)
  | _ => Raise (TypeError ("unhashable type: '" ++ type_name k ++ "'"))
  end.

(** [range(1, n + 1)] for a value [n] handed over by the host. *)
Definition range_from_1 (n : pyval) : result (list pyval) :=
  match n with
  | VInt z => Ok (map (fun i => VInt (Z.of_nat i)) (seq 1 (Z.to_nat z)))
  | _ => Raise (TypeError ("unsupported operand type(s) for +: '" ++ type_name n ++ "' and 'int'"))
  end.

Definition string_of_nat (n : nat) : string :=
  NilEmpty.string_of_uint (Nat.to_uint n).

End Py.
Export Py.

(** ** The host

    The application, its timeline, clips, compositions and tools are not
    part of the script.  A host gives, for a world state,
    - whether [import DaVinciResolveScript] succeeds and whether
      [sys.modules] holds ["fusionscript"], and what [scriptapp("Resolve")]
      of either module returns;
    - what the call [obj.meth(args)] on a host object returns or raises and
      the world it leaves;
    - whether a host object has an attribute of a given name (the script
      asks with [getattr(.., None)] and [hasattr]; an attribute that is
      there is taken to be a method);
    - what one second of [time.sleep] does to the world;
    - what showing the report dialog does to the world;
    - the text [str(v)] of a value that is not a string. *)
Record Host : Type := {
  World : Type;
  importable : World -> bool;
  fusionscript_loaded : World -> bool;
  scriptapp : string -> World -> result pyval * World;
  invoke : handle -> string -> list pyval -> World -> result pyval * World;
  has_attr : handle -> string -> World -> bool;
  sleep : World -> World;
  run_dialog : handle -> string -> World -> World;
  repr : pyval -> string
}.

(** Inside a section the host at hand is found as an instance. *)
Existing Class Host.

(** What the script did to the host, in order. *)
Inductive event : Type :=
| EScriptApp (module_name : string)
| ECall (h : handle) (meth : string) (args : list pyval)
| ESleep
| EDialog (h : handle) (report : string).

(** ** The monad of the script *)

Section Monad.
Context {H : Host}.

Record state : Type := mkState {
  world : World H;
  heap : list pyval;
  lines : list string;
  stdout : list string;
  trace : list event
}.

Definition init (w : World H) : state :=
  {| world := w; heap := []; lines := []; stdout := []; trace := [] |}.

Definition M (A : Type) : Type := state -> result A * state.

Definition ret {A} (a : A) : M A := fun st => (Ok a, st).

Definition raise {A} (e : exn) : M A := fun st => (Raise e, st).

Definition bind {A B} (m : M A) (k : A -> M B) : M B :=
  fun st =>
    match m st with
    | (Ok a, st') => k a st'
    | (Raise e, st') => (Raise e, st')
    end.

(** [try: m  except Exception as e: handler e].  The state reached when the
    exception was raised is the one the handler starts from: nothing is
    undone. *)
Definition try_except {A} (m : M A) (handler : exn -> M A) : M A :=
  fun st =>
    match m st with
    | (Ok a, st') => (Ok a, st')
    | (Raise e, st') => handler e st'
    end.

Definition lift {A} (r : result A) : M A := fun st => (r, st).

Definition emit (e : event) (w : World H) (st : state) : state :=
  {| world := w; heap := heap st; lines := lines st; stdout := stdout st;
     trace := trace st ++ [e] |}.

(** [recv.meth(args)].  Only a host object has host methods. *)
Definition call (recv : pyval) (meth : string) (args : list pyval) : M pyval :=
  match recv with
  | VObj h =>
      fun st =>
        let (r, w) := invoke H h meth args (world st) in
        (r, emit (ECall h meth args) w st)
  | _ => raise (no_attribute recv meth)
  end.

(** [hasattr(v, name)], and the truth value of [getattr(v, name, None)]. *)
Definition hasattr (v : pyval) (name : string) : M bool :=
  fun st =>
    (Ok (match v with
         | VObj h => has_attr H h name (world st)
         | _ => false
         end), st).

(** [time.sleep(1.0)] *)
Definition time_sleep : M unit :=
  fun st => (Ok tt, emit ESleep (sleep H (world st)) st).

(** [Logger.log] *)
Definition log (message : string) : M unit :=
  fun st =>
    (Ok tt,
     {| world := world st; heap := heap st;
        lines := lines st ++ [message];
        stdout := stdout st ++ [message];
        trace := trace st |}).

Definition newline : string := String (ascii_of_nat 10) EmptyString.

(** [Logger.get_full_report] *)
Definition get_full_report : M string :=
  fun st => (Ok (String.concat newline (lines st)), st).

(** The Python objects shared by reference live in [heap]; a variable that
    names one holds its location.  A settings dump is a tree: its nested
    dicts belong to it, and a write through [obj[k1][k2] = v] updates the
    object at its location. *)
Definition new_object (v : pyval) : M nat :=
  fun st =>
    (Ok (List.length (heap st)),
     {| world := world st; heap := heap st ++ [v]; lines := lines st;
        stdout := stdout st; trace := trace st |}).

Definition load (l : nat) : M pyval :=
  fun st => (Ok (nth l (heap st) VNone), st).

Fixpoint list_set {A} (n : nat) (x : A) (l : list A) : list A :=
  match l, n with
  | [], _ => []
  | _ :: l', O => x :: l'
  | y :: l', S n' => y :: list_set n' x l'
  end.

Definition store (l : nat) (v : pyval) : M unit :=
  fun st =>
    (Ok tt,
     {| world := world st; heap := list_set l v (heap st); lines := lines st;
        stdout := stdout st; trace := trace st |}).

(** [copy.deepcopy(obj)]: a fresh object with the same contents. *)
Definition deepcopy (l : nat) : M nat :=
  bind (load l) new_object.

(** [str(v)] inside an f-string. *)
Definition py_str (v : pyval) : string :=
  match v with
  | VStr s => s
  | _ => repr H v
  end.

End Monad.

Arguments state : clear implicits.
Arguments M : clear implicits.
Arguments py_str : clear implicits.

Notation "x <- m ;; k" := (bind m (fun x => k))
  (at level 61, m at next level, right associativity).
Notation "' p <- m ;; k" := (bind m (fun x => match x with p => k end))
  (at level 61, p pattern, m at next level, right associativity).
Notation "m ;; k" := (bind m (fun _ => k))
  (at level 61, right associativity).

(** ** The script *)

Section Script.
Context {H : Host}.

(** *** API helpers (lines 34-55) *)

(** [get_resolve()] *)
Definition get_resolve : M H pyval :=
  fun st =>
    if importable H (world st) then
      let (r, w) := scriptapp H "DaVinciResolveScript" (world st) in
      (r, emit (EScriptApp "DaVinciResolveScript") w st)
    else if fusionscript_loaded H (world st) then
      let (r, w) := scriptapp H "fusionscript" (world st) in
      (r, emit (EScriptApp "fusionscript") w st)
    else (Raise (no_attribute VNone "scriptapp"), st).

(** The name search of [find_textplus_tool] (lines 51-55). *)
Fixpoint first_text_named (tools : list pyval) : M H pyval :=
  match tools with
  | [] => ret VNone
  | tool :: rest =>
      name <- call tool "GetAttrs" [VStr "TOOLS_Name"] ;;
      is_template <- lift (py_in (VStr "Template") name) ;;
      hit <- (if is_template : bool then ret true
              else lift (py_in (VStr "Text") name)) ;;
      if hit : bool then ret tool else first_text_named rest
  end.

(** [find_textplus_tool(fusion_comp, logger)] *)
Definition find_textplus_tool (fusion_comp : pyval) : M H pyval :=
  if negb (truthy fusion_comp) then ret VNone else
  tools_dict <- call fusion_comp "GetToolList" [VFalse; VStr "TextPlus"] ;;
  by_id <- (if truthy tools_dict then lift (py_values tools_dict)
            else ret []) ;;
  match by_id with
  | tool :: _ => ret tool
  | [] =>
      all_tools <- call fusion_comp "GetToolList" [VFalse] ;;
      if truthy all_tools then
        tools <- lift (py_values all_tools) ;;
        first_text_named tools
      else ret VNone
  end.

(** *** Adaptive settings getter (lines 60-81) *)

(** The test of lines 75-77 on what an accessor returned. *)
Definition qualifies (result : pyval) : bool :=
  match result with
  | VDict d =>
      Nat.ltb 0 (List.length d) &&
      (dict_mem (AStr "Inputs") d || dict_mem (AStr "Tools") d ||
       Nat.ltb 5 (List.length (dict_keys d)))
  | _ => false
  end.

(** The loop over [candidates]: a pair is the accessor's name and whether
    [getattr(tool, name, None)] gave a method. *)
Fixpoint probe (tool : pyval) (candidates : list (string * bool))
  : M H (pyval * pyval) :=
  match candidates with
  | [] => ret (VNone, VNone)
  | (name, method) :: rest =>
      if method then
        accepted <-
          try_except
            (result <- call tool name [] ;;
             ret (if qualifies result then Some result else None))
            (fun _ => ret None) ;;
        match accepted with
        | Some result => ret (result, VStr name)
        | None => probe tool rest
        end
      else probe tool rest
  end.

(** [get_tool_settings(tool, logger)] *)
Definition get_tool_settings (tool : pyval) : M H (pyval * pyval) :=
  m1 <- hasattr tool "GetSettings" ;;
  m2 <- hasattr tool "SaveSettings" ;;
  m3 <- hasattr tool "GetCurrentSettings" ;;
  probe tool [("GetSettings", m1); ("SaveSettings", m2);
              ("GetCurrentSettings", m3)].

(** *** Force apply logic (lines 86-145) *)

(** [isinstance(val, dict) and 'Inputs' in val] *)
Definition has_inputs (kv : atom * pyval) : bool :=
  match snd kv with
  | VDict d => dict_mem (AStr "Inputs") d
  | _ => false
  end.

(** [obj['Tools'] = f(obj['Tools'])] on the object at [l]: the writes of
    lines 112 and 113 go through [new_settings['Tools']]. *)
Definition update_tools (l : nat) (f : dict -> result dict) : M H unit :=
  settings <- load l ;;
  tools_obj <- lift (py_getitem settings (AStr "Tools")) ;;
  match settings, tools_obj with
  | VDict d, VDict tools =>
      tools' <- lift (f tools) ;;
      store l (VDict (dict_set (AStr "Tools") (VDict tools') d))
  | _, _ =>
      raise (TypeError ("'" ++ type_name tools_obj ++ "' object does not support item assignment"))
  end.

(** Lines 107-114 on the object [new_settings].  The loop leaves at the
    first entry with an ['Inputs'] key ([break]), whether it renamed it or
    not. *)
Definition prepatch (new_settings : nat) (tgt_name : pyval) : M H unit :=
  settings <- load new_settings ;;
  nested <- lift (py_in (VStr "Tools") settings) ;;
  if nested : bool then
    tools_obj <- lift (py_getitem settings (AStr "Tools")) ;;
    tools <- lift (py_items tools_obj) ;;
    match find has_inputs tools with
    | Some (key, val) =>
        if negb (py_eq (VAtom key) tgt_name) then
          update_tools new_settings (fun t => py_setitem t tgt_name val) ;;
          update_tools new_settings (fun t => Ok (dict_del key t))
        else ret tt
    | None => ret tt
    end
  else ret tt.

(** Lines 104-114: the settings handed to the setter. *)
Definition patch_step (source_settings : nat) (tgt_name : pyval)
  : M H pyval :=
  new_settings <- deepcopy source_settings ;;
  prepatch new_settings tgt_name ;;
  load new_settings.

(** Lines 117-134: [inl b] is [return b] out of the function, [inr b] is
    the value of [apply_success] at line 133. *)
Definition apply_step (target_tool : pyval) (new_settings : pyval)
    (source_method : pyval) : M H (bool + bool) :=
  try_except
    (has_load <- hasattr target_tool "LoadSettings" ;;
     if py_eq source_method (VStr "SaveSettings") && has_load then
       call target_tool "LoadSettings" [new_settings] ;;
       ret (inr true)
     else
       has_set <- hasattr target_tool "SetSettings" ;;
       if has_set : bool then
         call target_tool "SetSettings" [new_settings] ;;
         ret (inr true)
       else if has_load then
         call target_tool "LoadSettings" [new_settings] ;;
         ret (inr true)
       else ret (inr false))
    (fun e =>
       log ("  [Error] Apply failed: " ++ exn_str e) ;;
       ret (inl false)).

(** Lines 139-145. *)
Definition restore_step (target_tool : pyval) (original_text : pyval)
  : M H bool :=
  try_except
    (call target_tool "SetInput" [VStr "StyledText"; original_text] ;;
     ret true)
    (fun e =>
       log ("  [Error] Failed to restore text: " ++ exn_str e) ;;
       ret false).

(** [apply_style_and_restore_text(target_tool, source_settings,
    source_method, logger)] *)
Definition apply_style_and_restore_text (target_tool : pyval)
    (source_settings : nat) (source_method : pyval) : M H bool :=
  tgt_name <- call target_tool "GetAttrs" [VStr "TOOLS_Name"] ;;
  text <- call target_tool "GetInput" [VStr "StyledText"] ;;
  let original_text := if is_none text then VStr "" else text in
  new_settings <- patch_step source_settings tgt_name ;;
  applied <- apply_step target_tool new_settings source_method ;;
  match applied with
  | inl b => ret b
  | inr false => ret false
  | inr true => restore_step target_tool original_text
  end.

(** *** UI (lines 150-174)

    [show_report_window(fusion, report_text)].  Everything after the first
    line sits in a [try] whose bare [except] passes, so nothing is raised;
    the construction of the window and its event loop (lines 154-173) are
    one action of the host, [run_dialog]. *)
Definition show_report_window (fusion : pyval) (report_text : string)
  : M H unit :=
  if negb (truthy fusion) then ret tt else
  has_ui <- hasattr fusion "UIDispatcher" ;;
  match fusion with
  | VObj h =>
      if has_ui : bool then
        fun st => (Ok tt, emit (EDialog h report_text)
                               (run_dialog H h report_text (world st)) st)
      else ret tt
  | _ => ret tt
  end.

(** *** Main logic (lines 179-278)

    [main] is cut into the parts it runs through one after the other; each
    part takes the local variables bound so far as arguments, and a part
    that can leave [main] early returns [None] when it does. *)

Definition target_color : string := "Pink".

(** Lines 235-238, the loop over the items of one track. *)
Fixpoint scan_items (source_item : pyval) (items target_items : list pyval)
  : M H (list pyval) :=
  match items with
  | [] => ret target_items
  | item :: rest =>
      if py_eq item source_item then scan_items source_item rest target_items
      else
        color <- call item "GetClipColor" [] ;;
        if py_eq color (VStr target_color) then
          scan_items source_item rest (target_items ++ [item])
        else scan_items source_item rest target_items
  end.

(** Lines 232-238, the loop over the track indices. *)
Fixpoint scan_tracks (timeline source_item : pyval)
    (indices target_items : list pyval) : M H (list pyval) :=
  match indices with
  | [] => ret target_items
  | i :: rest =>
      items <- call timeline "GetItemListInTrack" [VStr "video"; i] ;;
      found <- (if truthy items then
                  l <- lift (py_iter items) ;;
                  scan_items source_item l target_items
                else ret target_items) ;;
      scan_tracks timeline source_item rest found
  end.

(** Lines 229-238. *)
Definition collect_targets (timeline source_item : pyval)
  : M H (list pyval) :=
  track_count <- call timeline "GetTrackCount" [VStr "video"] ;;
  indices <- lift (range_from_1 track_count) ;;
  scan_tracks timeline source_item indices [].

(** Lines 251-273, the loop over [target_items]; the result is
    [success_count]. *)
Fixpoint apply_to_targets (source_settings : nat) (method_used : pyval)
    (target_items : list pyval) (success_count : nat) : M H nat :=
  match target_items with
  | [] => ret success_count
  | item :: rest =>
      tgt_name <- call item "GetName" [] ;;
      tgt_comp <- call item "GetFusionCompByIndex" [VInt 1] ;;
      if negb (truthy tgt_comp) then
        log ("[Skip] " ++ py_str H tgt_name ++ ": No Comp.") ;;
        apply_to_targets source_settings method_used rest success_count
      else
        tgt_tool <- find_textplus_tool tgt_comp ;;
        if negb (truthy tgt_tool) then
          log ("[Skip] " ++ py_str H tgt_name ++ ": No Text+ tool.") ;;
          apply_to_targets source_settings method_used rest success_count
        else
          count <-
            try_except
              (ok <- apply_style_and_restore_text tgt_tool source_settings
                       method_used ;;
               if ok : bool then
                 log ("[OK] " ++ py_str H tgt_name) ;;
                 ret (S success_count)
               else
                 log ("[Fail] " ++ py_str H tgt_name ++ ": Apply failed.") ;;
                 ret success_count)
              (fun e =>
                 log ("[Fail] " ++ py_str H tgt_name ++ ": " ++ exn_str e) ;;
                 ret success_count) ;;
          apply_to_targets source_settings method_used rest count
  end.

Definition dashes : string := String.concat "" (repeat "-" 40).

(** Lines 240-278, with [target_items] as collected. *)
Definition main_apply (resolve fusion : pyval) (source_settings : nat)
    (method_used : pyval) (target_items : list pyval) : M H unit :=
  match target_items with
  | [] =>
      log ("[Warning] No '" ++ target_color ++ "' clips found.") ;;
      report <- get_full_report ;;
      show_report_window fusion report
  | _ =>
      log ("Targets: " ++ string_of_nat (List.length target_items) ++ " clips.") ;;
      call resolve "OpenPage" [VStr "Edit"] ;;
      success_count <-
        apply_to_targets source_settings method_used target_items 0 ;;
      log dashes ;;
      log ("Done. Updated " ++ string_of_nat success_count ++ " clips.") ;;
      report <- get_full_report ;;
      show_report_window fusion report
  end.

(** The local variables of [main] when it reaches line 217. *)
Record locals : Type := mkLocals {
  resolve : pyval;
  fusion : pyval;
  timeline : pyval;
  source_item : pyval;
  source_tool : pyval
}.

(** Lines 217-225: [None] is the [return] of line 223. *)
Definition main_settings (v : locals) : M H (option (nat * pyval)) :=
  '(source_settings, method_used) <- get_tool_settings (source_tool v) ;;
  if negb (truthy source_settings) then
    log "[Fatal Error] Could not retrieve settings." ;;
    report <- get_full_report ;;
    show_report_window (fusion v) report ;;
    ret None
  else
    log ("[Success] Settings captured via '" ++ py_str H method_used ++ "'") ;;
    snapshot <- new_object source_settings ;;
    ret (Some (snapshot, method_used)).

(** Lines 212-215: [None] is a [return] before line 217. *)
Definition main_tool (resolve fusion timeline source_item source_comp : pyval)
  : M H (option locals) :=
  source_tool <- find_textplus_tool source_comp ;;
  if negb (truthy source_tool) then
    log "[Error] Text+ tool not found." ;;
    ret None
  else ret (Some (mkLocals resolve fusion timeline source_item source_tool)).

(** Lines 198-215. *)
Definition main_comp (resolve fusion timeline source_item : pyval)
  : M H (option locals) :=
  source_name <- call source_item "GetName" [] ;;
  log ("Source: " ++ py_str H source_name) ;;
  source_comp <- call source_item "GetFusionCompByIndex" [VInt 1] ;;
  if negb (truthy source_comp) then
    call resolve "OpenPage" [VStr "Fusion"] ;;
    time_sleep ;;
    source_comp <- call source_item "GetFusionCompByIndex" [VInt 1] ;;
    call resolve "OpenPage" [VStr "Edit"] ;;
    if negb (truthy source_comp) then
      log "[Error] Could not load Fusion Comp." ;;
      ret None
    else main_tool resolve fusion timeline source_item source_comp
  else main_tool resolve fusion timeline source_item source_comp.

(** Lines 180-215. *)
Definition main_source : M H (option locals) :=
  resolve <- get_resolve ;;
  if negb (truthy resolve) then ret None else
  fusion <- call resolve "Fusion" [] ;;
  manager <- call resolve "GetProjectManager" [] ;;
  project <- call manager "GetCurrentProject" [] ;;
  timeline <- call project "GetCurrentTimeline" [] ;;
  if negb (truthy timeline) then
    log "[Error] No timeline open." ;;
    ret None
  else
  source_item <- call timeline "GetCurrentVideoItem" [] ;;
  if negb (truthy source_item) then
    log "[Error] No clip found at playhead." ;;
    ret None
  else main_comp resolve fusion timeline source_item.

(** [main()] *)
Definition main : M H unit :=
  reached <- main_source ;;
  match reached with
  | None => ret tt
  | Some v =>
      captured <- main_settings v ;;
      match captured with
      | None => ret tt
      | Some (source_settings, method_used) =>
          target_items <- collect_targets (timeline v) (source_item v) ;;
          main_apply (resolve v) (fusion v) source_settings method_used
                     target_items
      end
  end.

End Script.

(** ** A small host

    A concrete host on which the script can be run: one project with one
    timeline, clips on video tracks, at most one titling tool per clip.
    Handles: 0 the application, 1 its Fusion object, 2 the project manager,
    3 the project, 4 the timeline; clip [i] is [10 + 3 * i], its composition
    [11 + 3 * i] and its tool [12 + 3 * i]. *)

Module Studio.

Record tool_state : Type := mkTool {
  tool_name : pyval;
  is_textplus : bool;
  styled_text : pyval;          (* None while the input holds no text *)
  settings : pyval;             (* what the settings accessors return *)
  applied : list pyval;         (* the settings written so far *)
  methods : list string;        (* the accessors and setters the tool has *)
  failing : list string         (* the methods that raise *)
}.

Record clip_state : Type := mkClip {
  clip_name : string;
  clip_color : string;
  comp_loaded : bool;
  clip_tool : option tool_state
}.

Record studio : Type := mkStudio {
  connected : bool;
  project_open : bool;
  ui : bool;
  page : string;
  playhead : option nat;
  tracks : list (list nat);
  clips : list clip_state;
  dialogs : list string
}.

Definition set_clips (cs : list clip_state) (w : studio) : studio :=
  mkStudio (connected w) (project_open w) (ui w) (page w) (playhead w)
           (tracks w) cs (dialogs w).

Definition set_page (p : string) (w : studio) : studio :=
  mkStudio (connected w) (project_open w) (ui w) p (playhead w)
           (tracks w) (clips w) (dialogs w).

Definition set_tool (i : nat) (t : tool_state) (w : studio) : studio :=
  match nth_error (clips w) i with
  | Some c =>
      set_clips (list_set i (mkClip (clip_name c) (clip_color c)
                                    (comp_loaded c) (Some t)) (clips w)) w
  | None => w
  end.

Definition clip_handle (i : nat) : handle := 10 + 3 * i.
Definition comp_handle (i : nat) : handle := 11 + 3 * i.
Definition tool_handle (i : nat) : handle := 12 + 3 * i.

Definition mem (s : string) (l : list string) : bool :=
  existsb (String.eqb s) l.

Definition host_error {A} (what : string) (w : studio)
  : result A * studio :=
  (Raise (HostError what), w).

Definition invoke_app (meth : string) (args : list pyval) (w : studio)
  : result pyval * studio :=
  if String.eqb meth "Fusion" then (Ok (VObj 1), w)
  else if String.eqb meth "GetProjectManager" then (Ok (VObj 2), w)
  else if String.eqb meth "OpenPage" then
    match args with
    | [VStr p] => (Ok (VInt 1), set_page p w)
    | _ => host_error "OpenPage: bad arguments" w
    end
  else host_error ("no method " ++ meth) w.

Definition invoke_timeline (meth : string) (args : list pyval) (w : studio)
  : result pyval * studio :=
  if String.eqb meth "GetCurrentVideoItem" then
    (Ok (match playhead w with
         | Some i => VObj (clip_handle i)
         | None => VNone
         end), w)
  else if String.eqb meth "GetTrackCount" then
    (Ok (VInt (Z.of_nat (List.length (tracks w)))), w)
  else if String.eqb meth "GetItemListInTrack" then
    match args with
    | [VStr "video"; VInt i] =>
        (Ok (VList (map (fun c => VObj (clip_handle c))
                        (nth (Z.to_nat i - 1) (tracks w) []))), w)
    | _ => host_error "GetItemListInTrack: bad arguments" w
    end
  else host_error ("no method " ++ meth) w.

Definition invoke_clip (i : nat) (c : clip_state) (meth : string)
    (w : studio) : result pyval * studio :=
  if String.eqb meth "GetName" then (Ok (VStr (clip_name c)), w)
  else if String.eqb meth "GetClipColor" then (Ok (VStr (clip_color c)), w)
  else if String.eqb meth "GetFusionCompByIndex" then
    (Ok (match clip_tool c with
         | Some _ => if comp_loaded c then VObj (comp_handle i) else VNone
         | None => VNone
         end), w)
  else host_error ("no method " ++ meth) w.

Definition invoke_comp (i : nat) (c : clip_state) (meth : string)
    (args : list pyval) (w : studio) : result pyval * studio :=
  if String.eqb meth "GetToolList" then
    match clip_tool c, args with
    | Some t, [_; VStr "TextPlus"] =>
        (Ok (if is_textplus t then VDict [(AInt 1, VObj (tool_handle i))]
             else VDict []), w)
    | Some t, _ => (Ok (VDict [(AInt 1, VObj (tool_handle i))]), w)
    | None, _ => (Ok (VDict []), w)
    end
  else host_error ("no method " ++ meth) w.

(** Writing settings overwrites the text of the tool as well: the side
    effect the script works around. *)
Definition invoke_tool (i : nat) (t : tool_state) (meth : string)
    (args : list pyval) (w : studio) : result pyval * studio :=
  if mem meth (failing t) then host_error (meth ++ " failed") w
  else if String.eqb meth "GetAttrs" then (Ok (tool_name t), w)
  else if String.eqb meth "GetInput" then (Ok (styled_text t), w)
  else if String.eqb meth "SetInput" then
    match args with
    | [VStr "StyledText"; v] =>
        (Ok VNone,
         set_tool i (mkTool (tool_name t) (is_textplus t) v (settings t)
                            (applied t) (methods t) (failing t)) w)
    | _ => (Ok VNone, w)
    end
  else if negb (mem meth (methods t)) then host_error ("no method " ++ meth) w
  else if String.eqb meth "SetSettings" || String.eqb meth "LoadSettings" then
    match args with
    | [s] =>
        (Ok VNone,
         set_tool i (mkTool (tool_name t) (is_textplus t) (VStr "")
                            (settings t) (applied t ++ [s]) (methods t)
                            (failing t)) w)
    | _ => host_error (meth ++ ": bad arguments") w
    end
  else (Ok (settings t), w).

Definition do_invoke (h : handle) (meth : string) (args : list pyval)
    (w : studio) : result pyval * studio :=
  if Nat.eqb h 0 then invoke_app meth args w
  else if Nat.eqb h 2 then
    if String.eqb meth "GetCurrentProject" then
      (Ok (if project_open w then VObj 3 else VNone), w)
    else host_error ("no method " ++ meth) w
  else if Nat.eqb h 3 then
    if String.eqb meth "GetCurrentTimeline" then (Ok (VObj 4), w)
    else host_error ("no method " ++ meth) w
  else if Nat.eqb h 4 then invoke_timeline meth args w
  else if Nat.ltb h 10 then host_error ("no method " ++ meth) w
  else
    let i := (h - 10) / 3 in
    match nth_error (clips w) i with
    | None => host_error "stale handle" w
    | Some c =>
        match (h - 10) mod 3, clip_tool c with
        | 0, _ => invoke_clip i c meth w
        | 1, _ => invoke_comp i c meth args w
        | _, Some t => invoke_tool i t meth args w
        | _, None => host_error "stale handle" w
        end
    end.

Definition do_has_attr (h : handle) (name : string) (w : studio) : bool :=
  if Nat.eqb h 1 then String.eqb name "UIDispatcher" && ui w
  else if Nat.ltb h 10 then false
  else
    match (h - 10) mod 3, nth_error (clips w) ((h - 10) / 3) with
    | 2, Some c =>
        match clip_tool c with
        | Some t => mem name (methods t)
        | None => false
        end
    | _, _ => false
    end.

(** Waiting on the Fusion page lets the composition of the clip at the
    playhead load. *)
Definition do_sleep (w : studio) : studio :=
  match playhead w with
  | Some i =>
      match nth_error (clips w) i with
      | Some c =>
          if String.eqb (page w) "Fusion" then
            set_clips (list_set i (mkClip (clip_name c) (clip_color c) true
                                          (clip_tool c)) (clips w)) w
          else w
      | None => w
      end
  | None => w
  end.

Definition do_dialog (h : handle) (report : string) (w : studio) : studio :=
  mkStudio (connected w) (project_open w) (ui w) (page w) (playhead w)
           (tracks w) (clips w) (dialogs w ++ [report]).

Definition host : Host := {|
  World := studio;
  importable := fun _ => true;
  fusionscript_loaded := fun _ => false;
  scriptapp := fun _ w => (Ok (if connected w then VObj 0 else VNone), w);
  invoke := do_invoke;
  has_attr := do_has_attr;
  sleep := do_sleep;
  run_dialog := do_dialog;
  repr := fun _ => "<object>"
|}.

(** The scenario of the specification: the source "SourceText" at the
    playhead, the tagged clips "A" and "B", the untagged clip "C". *)
Definition source_dump : pyval :=
  VDict [(AStr "Tools",
          VDict [(AStr "SourceText",
                  VDict [(AStr "Inputs", VDict [(AStr "Size", VInt 2)])])])].

Definition text_tool (name : string) (text : pyval) (dump : pyval)
  : tool_state :=
  mkTool (VStr name) true text dump []
         ["GetSettings"; "SetSettings"; "LoadSettings"] [].

Definition demo : studio :=
  mkStudio true true true "Edit" (Some 0) [[0; 1]; [2; 3]]
    [ mkClip "Title" "Orange" true (Some (text_tool "SourceText" (VStr "Src") source_dump));
      mkClip "A" "Pink" true (Some (text_tool "TextA" (VStr "Hello") (VDict [])));
      mkClip "B" "Pink" true (Some (text_tool "TextB" (VStr "World") (VDict [])));
      mkClip "C" "Blue" true (Some (text_tool "TextC" (VStr "Bye") (VDict []))) ]
    [].

(** Clip "A" with a text input that reads [None]. *)
Definition blank_demo : studio :=
  set_tool 1 (text_tool "TextA" VNone (VDict [])) demo.

(** Clip "A" with a text input whose read raises. *)
Definition unreadable_demo : studio :=
  set_tool 1 (mkTool (VStr "TextA") true (VStr "Hello") (VDict []) []
                      ["GetSettings"; "SetSettings"; "LoadSettings"]
                      ["GetInput"]) demo.

(** No tagged clip, the Color page open and the composition of the source
    not loaded yet. *)
Definition untagged_demo : studio :=
  mkStudio true true true "Color" (Some 0) [[0; 1]]
    [ mkClip "Title" "Pink" false (Some (text_tool "SourceText" (VStr "Src") source_dump));
      mkClip "C" "Blue" true (Some (text_tool "TextC" (VStr "Bye") (VDict []))) ]
    [].

(** A source whose accessors return nothing usable. *)
Definition empty_demo : studio :=
  set_tool 0 (text_tool "SourceText" (VStr "Src") (VDict [])) demo.

(** No project open. *)
Definition closed_demo : studio :=
  mkStudio true false true "Edit" None [] [] [].

(** The source clip tagged like the destinations. *)
Definition pink_source_demo : studio :=
  mkStudio true true true "Edit" (Some 0) [[0; 1]; [2; 3]]
    [ mkClip "Title" "Pink" true (Some (text_tool "SourceText" (VStr "Src") source_dump));
      mkClip "A" "Pink" true (Some (text_tool "TextA" (VStr "Hello") (VDict [])));
      mkClip "B" "Pink" true (Some (text_tool "TextB" (VStr "World") (VDict [])));
      mkClip "C" "Blue" true (Some (text_tool "TextC" (VStr "Bye") (VDict []))) ]
    [].

(** The script after it has captured [source_dump]: the snapshot is the
    object at location 0. *)
Definition captured (w : studio) : state host :=
  mkState (H:=host) w [source_dump] [] [] [].

(** Clip "A" with a text input whose write raises. *)
Definition locked_demo : studio :=
  set_tool 1 (mkTool (VStr "TextA") true (VStr "Hello") (VDict []) []
                     ["GetSettings"; "SetSettings"; "LoadSettings"]
                     ["SetInput"]) demo.

(** A source whose tool is not of the TextPlus type but is called
    "Template", beside a tool called "Merge1". *)
Definition template_demo : studio :=
  mkStudio true true true "Edit" (Some 0) [[0; 1]]
    [ mkClip "Title" "Orange" true
        (Some (mkTool (VStr "Template") false (VStr "Src") source_dump []
                      ["SaveSettings"; "LoadSettings"] []));
      mkClip "M" "Pink" true
        (Some (mkTool (VStr "Merge1") false VNone (VDict []) [] [] [])) ]
    [].

(** A project with a timeline but no clip under the playhead. *)
Definition parked_demo : studio :=
  mkStudio true true true "Edit" None [[0; 1]]
    [ mkClip "Title" "Orange" true (Some (text_tool "SourceText" (VStr "Src") source_dump));
      mkClip "A" "Pink" true (Some (text_tool "TextA" (VStr "Hello") (VDict []))) ]
    [].

(** A timeline without a video track. *)
Definition trackless_demo : studio :=
  mkStudio true true true "Edit" (Some 0) []
    [ mkClip "Title" "Orange" true (Some (text_tool "SourceText" (VStr "Src") source_dump)) ]
    [].

(** Clip "A" with a tool that has neither SetSettings nor LoadSettings. *)
Definition bare_demo : studio :=
  set_tool 1 (mkTool (VStr "TextA") true (VStr "Hello") (VDict []) []
                     ["GetSettings"] []) demo.

(** The same objects seen from an interpreter outside the application:
    neither module is there. *)
Definition outside : Host := {|
  World := studio;
  importable := fun _ => false;
  fusionscript_loaded := fun _ => false;
  scriptapp := fun _ w => (Ok (if connected w then VObj 0 else VNone), w);
  invoke := do_invoke;
  has_attr := do_has_attr;
  sleep := do_sleep;
  run_dialog := do_dialog;
  repr := fun _ => "<object>"
|}.

End Studio.

(** ** Statements in the words of the specification *)

(** "a non-empty keyed mapping AND (it contains an "Inputs" key, OR it
    contains a "Tools" key, OR it has more than five top-level keys)" *)
Definition acceptable (v : pyval) : Prop :=
  exists d : dict,
    v = VDict d /\ d <> [] /\
    (In (AStr "Inputs") (dict_keys d) \/ In (AStr "Tools") (dict_keys d) \/
     5 < List.length (dict_keys d)).

(** The three accessors, in their priority order. *)
Definition accessors : list string :=
  ["GetSettings"; "SaveSettings"; "GetCurrentSettings"].

(** The setters of a tool: the two that write settings and the one that
    writes an input. *)
Definition is_setter (e : event) : bool :=
  match e with
  | ECall _ meth _ =>
      String.eqb meth "SetSettings" || String.eqb meth "LoadSettings" ||
      String.eqb meth "SetInput"
  | _ => false
  end.

(** The calls of the selection scan. *)
Definition is_scan (e : event) : bool :=
  match e with
  | ECall _ meth _ =>
      String.eqb meth "GetTrackCount" || String.eqb meth "GetItemListInTrack" ||
      String.eqb meth "GetClipColor"
  | _ => false
  end.

(** Showing the report dialog. *)
Definition is_dialog (e : event) : bool :=
  match e with
  | EDialog _ _ => true
  | _ => false
  end.

(** Asking an item for its composition. *)
Definition is_comp_access (e : event) : bool :=
  match e with
  | ECall _ meth _ => String.eqb meth "GetFusionCompByIndex"
  | _ => false
  end.

Definition receiver (e : event) : pyval :=
  match e with
  | ECall h _ _ => VObj h
  | EDialog h _ => VObj h
  | _ => VNone
  end.

(** "if the accessor was the "save"-style one and a matching "load"-style
    setter exists, use it; otherwise prefer a generic "set settings"
    operation if present; otherwise fall back to the "load"-style setter if
    present" *)
Definition preferred_setter (from_save has_load has_set : bool)
  : option string :=
  match from_save, has_load, has_set with
  | true, true, _ => Some "LoadSettings"
  | _, _, true => Some "SetSettings"
  | _, true, false => Some "LoadSettings"
  | _, false, false => None
  end.

(** The track numbers 1, 2, .., n, each one after the ones below it. *)
Fixpoint count_up (n : nat) : list pyval :=
  match n with
  | O => []
  | S k => count_up k ++ [VInt (Z.of_nat (S k))]
  end.

(** A call that asks the host for something and writes nothing: the
    connection to the application, the getters of its objects and the
    settings accessors.  The composition of an item, the page switch, the
    setters, the scan and the dialog are not among them. *)
Definition is_query (e : event) : bool :=
  match e with
  | EScriptApp _ => true
  | ECall _ meth _ =>
      existsb (String.eqb meth)
        ["Fusion"; "GetProjectManager"; "GetCurrentProject";
         "GetCurrentTimeline"; "GetCurrentVideoItem"; "GetName";
         "GetToolList"; "GetAttrs";
         "GetSettings"; "SaveSettings"; "GetCurrentSettings"]
  | _ => false
  end.

(** The calls of [names] on [tool], one each with no argument, in the
    order of [names]. *)
Definition calls_of (tool : pyval) (names : list string) : list event :=
  match tool with
  | VObj h => map (fun n => ECall h n []) names
  | _ => []
  end.

Section Specification.
Context {H : Host}.

(** Whether the tool has the accessor, as [getattr] finds it in the world
    of [st]. *)
Definition available (tool : pyval) (st : state H) (name : string) : bool :=
  match tool with
  | VObj h => has_attr H h name (world st)
  | _ => false
  end.

(** The settings reader as the specification words it: the accessors are
    tried in order; one that is missing, raises or returns something not
    acceptable is passed over; the first acceptable result is returned with
    the accessor's name; with none, the reader fails.  [avail] says which
    accessors the tool has. *)
Inductive probed (tool : pyval) (avail : string -> bool)
  : list string -> state H -> pyval * pyval -> state H -> Prop :=
| probed_failure st :
    probed tool avail [] st (VNone, VNone) st
| probed_missing name rest st r st' :
    avail name = false ->
    probed tool avail rest st r st' ->
    probed tool avail (name :: rest) st r st'
| probed_raised name rest st e st1 r st' :
    avail name = true ->
    call tool name [] st = (Raise e, st1) ->
    probed tool avail rest st1 r st' ->
    probed tool avail (name :: rest) st r st'
| probed_rejected name rest st v st1 r st' :
    avail name = true ->
    call tool name [] st = (Ok v, st1) ->
    ~ acceptable v ->
    probed tool avail rest st1 r st' ->
    probed tool avail (name :: rest) st r st'
| probed_accepted name rest st v st1 :
    avail name = true ->
    call tool name [] st = (Ok v, st1) ->
    acceptable v ->
    probed tool avail (name :: rest) st (v, VStr name) st1.

(** The state after [log]. *)
Definition logged (message : string) (st : state H) : state H :=
  snd (log message st).

(** "read the destination's current text payload; if unreadable, substitute
    an empty string" *)
Definition backup_of (text : pyval) : pyval :=
  if is_none text then VStr "" else text.

(** In world [w] the host stores what [SetInput("StyledText", x)] is
    given: a [GetInput("StyledText")] right after it returns [x]. *)
Definition stores_text (h : handle) (w : World H) : Prop :=
  forall (w' : World H) (x v : pyval),
    invoke H h "SetInput" [VStr "StyledText"; x] w = (Ok v, w') ->
    fst (invoke H h "GetInput" [VStr "StyledText"] w') = Ok x.

(** The three calls of the selection scan read the world and leave it as
    it is. *)
Definition scan_reads_only (w : World H) : Prop :=
  forall (h : handle) (meth : string) (args : list pyval),
    In meth ["GetTrackCount"; "GetItemListInTrack"; "GetClipColor"] ->
    snd (invoke H h meth args w) = w.

(** What the host answers to the scan in world [w]. *)
Definition track_items (w : World H) (timeline i : pyval) : list pyval :=
  match timeline with
  | VObj h =>
      match fst (invoke H h "GetItemListInTrack" [VStr "video"; i] w) with
      | Ok items =>
          if truthy items then
            match py_iter items with Ok l => l | Raise _ => [] end
          else []
      | Raise _ => []
      end
  | _ => []
  end.

Definition is_pink (w : World H) (item : pyval) : bool :=
  match item with
  | VObj h =>
      match fst (invoke H h "GetClipColor" [] w) with
      | Ok color => py_eq color (VStr "Pink")
      | Raise _ => false
      end
  | _ => false
  end.

(** "every item whose tag equals the fixed target marker and whose identity
    differs from the source item", by track order then in-track order. *)
Definition pink_others (w : World H) (timeline source_item : pyval)
    (indices : list pyval) : list pyval :=
  flat_map
    (fun i =>
       filter (fun item => negb (py_eq item source_item) && is_pink w item)
              (track_items w timeline i))
    indices.

(** "track order": the indices of the video tracks in world [w], 1 up to
    the number of tracks that the timeline reports, counted up. *)
Definition track_indices (w : World H) (timeline : pyval) : list pyval :=
  match timeline with
  | VObj h =>
      match fst (invoke H h "GetTrackCount" [VStr "video"] w) with
      | Ok (VInt n) => count_up (Z.to_nat n)
      | _ => []
      end
  | _ => []
  end.

(** Every host call that [m] issues satisfies [P]. *)
Definition emits {A} (P : event -> Prop) (m : M H A) : Prop :=
  forall st r st',
    m st = (r, st') ->
    exists evs, trace st' = trace st ++ evs /\ Forall P evs.

(** What [m] returns satisfies [Q]. *)
Definition returns {A} (Q : A -> Prop) (m : M H A) : Prop :=
  forall st a st', m st = (Ok a, st') -> Q a.

(** A call that is neither part of the scan, nor a setter, nor asks for a
    composition. *)
Definition quiet (e : event) : Prop :=
  is_scan e = false /\ is_setter e = false /\ is_comp_access e = false.

(** A call that leaves the destinations alone: no setter, and no
    composition asked of an item other than [source_item]. *)
Definition leaves_destinations (source_item : pyval) (e : event) : Prop :=
  is_setter e = false /\
  (is_comp_access e = true -> receiver e = source_item).

(** A computation that works on the store alone. *)
Definition heap_only {A} (m : M H A) : Prop :=
  forall st r st',
    m st = (r, st') ->
    world st' = world st /\ trace st' = trace st /\ lines st' = lines st.

End Specification.


(** ** Further notions used to describe runs *)

(** The test of line 53 on the name of a tool; an exception counts as no. *)
Definition names_text (name : pyval) : bool :=
  match py_in (VStr "Template") name with
  | Ok true => true
  | Ok false =>
      match py_in (VStr "Text") name with
      | Ok b => b
      | Raise _ => false
      end
  | Raise _ => false
  end.

(** The host calls [main] may issue.  The ones that write are the page
    switch to "Fusion" or "Edit", the two settings setters with one
    argument, and SetInput on "StyledText"; the others read. *)
Definition allowed_call (e : event) : bool :=
  match e with
  | EScriptApp _ | ESleep | EDialog _ _ => true
  | ECall _ meth args =>
      if String.eqb meth "SetInput" then
        match args with
        | [name; _] => py_eq name (VStr "StyledText")
        | _ => false
        end
      else if String.eqb meth "SetSettings" || String.eqb meth "LoadSettings" then
        match args with
        | [_] => true
        | _ => false
        end
      else if String.eqb meth "OpenPage" then
        match args with
        | [page] => py_eq page (VStr "Fusion") || py_eq page (VStr "Edit")
        | _ => false
        end
      else
        existsb (String.eqb meth)
          ["Fusion"; "GetProjectManager"; "GetCurrentProject";
           "GetCurrentTimeline"; "GetCurrentVideoItem"; "GetName";
           "GetFusionCompByIndex"; "GetToolList"; "GetAttrs";
           "GetSettings"; "SaveSettings"; "GetCurrentSettings";
           "GetTrackCount"; "GetItemListInTrack"; "GetClipColor"; "GetInput"]
  end.

(** A call [main] may issue that is not the report dialog. *)
Definition plain_call (e : event) : Prop :=
  allowed_call e = true /\ is_dialog e = false.

(** A call [main] may issue while it looks for the source: neither the
    dialog, nor a setter, nor part of the scan. *)
Definition lookup_call (e : event) : Prop :=
  plain_call e /\ is_setter e = false /\ is_scan e = false.

(** Asking an item for its clip colour. *)
Definition is_colour_query (e : event) : bool :=
  match e with
  | ECall _ meth _ => String.eqb meth "GetClipColor"
  | _ => false
  end.

Section Frames.
Context {H : Host}.

(** No dialog was shown, or one was, as the last thing the script did, and
    its text is the whole log. *)
Definition report_last (st : state H) : Prop :=
  Forall (fun e => is_dialog e = false) (trace st) \/
  exists pre h,
    trace st = pre ++ [EDialog h (String.concat newline (lines st))] /\
    Forall (fun e => is_dialog e = false) pre.

(** What a step of the script can do to its own state: log lines (printed
    as they are logged), allocate objects, issue calls.  Nothing that is
    there is taken back or overwritten. *)
Definition extends (st st' : state H) : Prop :=
  (exists l, lines st' = lines st ++ l /\ stdout st' = stdout st ++ l) /\
  (exists objs, heap st' = heap st ++ objs) /\
  (exists evs, trace st' = trace st ++ evs).

Definition grows {A} (m : M H A) : Prop :=
  forall st r st', m st = (r, st') -> extends st st'.

(** A computation that neither logs nor touches the store. *)
Definition silent {A} (m : M H A) : Prop :=
  forall st r st',
    m st = (r, st') ->
    lines st' = lines st /\ stdout st' = stdout st /\ heap st' = heap st.

(** In world [w] the host answers GetAttrs and GetToolList without
    changing. *)
Definition lookup_reads_only (w : World H) : Prop :=
  forall (h : handle) (meth : string) (args : list pyval),
    In meth ["GetAttrs"; "GetToolList"] ->
    snd (invoke H h meth args w) = w.

(** Whether the name of [tool] in world [w] passes the test of line 53. *)
Definition tool_named_text (w : World H) (tool : pyval) : bool :=
  match tool with
  | VObj h =>
      match fst (invoke H h "GetAttrs" [VStr "TOOLS_Name"] w) with
      | Ok name => names_text name
      | Raise _ => false
      end
  | _ => false
  end.

(** The tools that [GetToolList(args)] lists in world [w], in the order of
    the dict; none when the answer is falsy. *)
Definition listed_tools (w : World H) (fusion_comp : pyval)
    (args : list pyval) : list pyval :=
  match fusion_comp with
  | VObj h =>
      match fst (invoke H h "GetToolList" args w) with
      | Ok tools =>
          if truthy tools then
            match py_values tools with Ok l => l | Raise _ => [] end
          else []
      | Raise _ => []
      end
  | _ => []
  end.

(** The tool [find_textplus_tool] is after: the first TextPlus tool of the
    composition, else the first tool whose name passes the test of line 53,
    else None. *)
Definition located (w : World H) (fusion_comp : pyval) : pyval :=
  if negb (truthy fusion_comp) then VNone
  else
    match listed_tools w fusion_comp [VFalse; VStr "TextPlus"] with
    | tool :: _ => tool
    | [] =>
        match find (tool_named_text w)
                   (listed_tools w fusion_comp [VFalse]) with
        | Some tool => tool
        | None => VNone
        end
    end.

End Frames.

(** * Properties *)

(** Unfolding the monad: what is left are the host's answers and the
    lookups in the store. *)
Ltac msimpl :=
  cbv beta iota zeta delta
    [bind ret raise lift try_except load store new_object deepcopy log emit
     hasattr time_sleep get_full_report];
  cbn [world heap lines stdout trace fst snd].

Ltac msimpl_in R :=
  cbv beta iota zeta delta
    [bind ret raise lift try_except load store new_object deepcopy log emit
     hasattr time_sleep get_full_report] in R;
  cbn [world heap lines stdout trace fst snd] in R.

(** ** Values and dicts *)

Lemma atom_eqb_eq (a b : atom) : atom_eqb a b = true <-> a = b.
Proof.
  destruct a, b; simpl; split; intros E; try discriminate; try reflexivity.
  - apply Z.eqb_eq in E. now subst.
  - injection E as ->. apply Z.eqb_refl.
  - apply String.eqb_eq in E. now subst.
  - injection E as ->. apply String.eqb_refl.
  - apply Nat.eqb_eq in E. now subst.
  - injection E as ->. apply Nat.eqb_refl.
Qed.

Lemma atom_eqb_refl (a : atom) : atom_eqb a a = true.
Proof. now apply atom_eqb_eq. Qed.

Lemma atom_eqb_neq (a b : atom) : atom_eqb a b = false <-> a <> b.
Proof.
  split.
  - intros E ->. rewrite atom_eqb_refl in E. discriminate.
  - intros N. destruct (atom_eqb a b) eqn:E; [|reflexivity].
    apply atom_eqb_eq in E. contradiction.
Qed.

Lemma dict_mem_In (k : atom) (d : dict) :
  dict_mem k d = true <-> In k (dict_keys d).
Proof.
  unfold dict_mem. induction d as [|[k' v] d IH]; simpl.
  - split; [discriminate | contradiction].
  - destruct (atom_eqb k k') eqn:E.
    + apply atom_eqb_eq in E. subst. split; auto.
    + apply atom_eqb_neq in E. rewrite IH. split; [auto|].
      intros [E'|I]; [congruence | exact I].
Qed.

Lemma dict_get_mem (k : atom) (d : dict) (v : pyval) :
  dict_get k d = Some v -> dict_mem k d = true.
Proof. unfold dict_mem. now intros ->. Qed.

Lemma dict_get_set_same (k : atom) (v : pyval) (d : dict) :
  dict_get k (dict_set k v d) = Some v.
Proof.
  induction d as [|[k' v'] d IH]; simpl.
  - now rewrite atom_eqb_refl.
  - destruct (atom_eqb k k') eqn:E; simpl; rewrite E; auto.
Qed.

Lemma dict_get_set_other (k k' : atom) (v : pyval) (d : dict) :
  k' <> k -> dict_get k' (dict_set k v d) = dict_get k' d.
Proof.
  intros N. induction d as [|[k0 v0] d IH]; simpl.
  - apply atom_eqb_neq in N. now rewrite N.
  - destruct (atom_eqb k k0) eqn:E; simpl.
    + apply atom_eqb_eq in E. subst k0.
      apply atom_eqb_neq in N. now rewrite N.
    + now rewrite IH.
Qed.

Lemma dict_get_del_same (k : atom) (d : dict) :
  dict_get k (dict_del k d) = None.
Proof.
  unfold dict_del. induction d as [|[k' v'] d IH]; simpl; auto.
  destruct (atom_eqb k k') eqn:E; simpl; auto. now rewrite E.
Qed.

Lemma dict_get_del_other (k k' : atom) (d : dict) :
  k' <> k -> dict_get k' (dict_del k d) = dict_get k' d.
Proof.
  intros N. unfold dict_del. induction d as [|[k0 v0] d IH]; simpl; auto.
  destruct (atom_eqb k k0) eqn:E; simpl.
  - apply atom_eqb_eq in E. subst k0.
    apply atom_eqb_neq in N. now rewrite N.
  - now rewrite IH.
Qed.

(** ** The object store *)

Lemma list_set_last {A} (x y : A) (l : list A) :
  list_set (List.length l) x (l ++ [y]) = l ++ [x].
Proof. induction l as [|z l IH]; simpl; [reflexivity | now rewrite IH]. Qed.

Lemma nth_last {A} (x d : A) (l : list A) :
  nth (List.length l) (l ++ [x]) d = x.
Proof. induction l as [|z l IH]; simpl; auto. Qed.

Lemma nth_valid_location (l : nat) (hp : list pyval) (v : pyval) :
  nth l hp VNone = v -> v <> VNone -> l < List.length hp.
Proof.
  intros E N. destruct (Nat.lt_ge_cases l (List.length hp)) as [L|G]; auto.
  rewrite nth_overflow in E by exact G. congruence.
Qed.

(** ** The patch step *)

Section Patch.
Context {H : Host}.

Lemma bind_ok {A B} (m : M H A) (k : A -> M H B) st a st1 :
  m st = (Ok a, st1) -> bind m k st = k a st1.
Proof. unfold bind. now intros ->. Qed.

Lemma bind_raise {A B} (m : M H A) (k : A -> M H B) st e st1 :
  m st = (Raise e, st1) -> bind m k st = (Raise e, st1).
Proof. unfold bind. now intros ->. Qed.

(** Writing the tools of the object at the last location. *)
Lemma update_tools_last (f : dict -> result dict) (d tools tools' : dict)
    (w : World H) (hp : list pyval) (ls out : list string) (tr : list event) :
  dict_get (AStr "Tools") d = Some (VDict tools) ->
  f tools = Ok tools' ->
  update_tools (List.length hp) f (mkState w (hp ++ [VDict d]) ls out tr) =
  (Ok tt,
   mkState w (hp ++ [VDict (dict_set (AStr "Tools") (VDict tools') d)])
           ls out tr).
Proof.
  intros G F. unfold update_tools. msimpl.
  rewrite nth_last. unfold py_getitem. rewrite G. msimpl. rewrite F.
  now rewrite list_set_last.
Qed.

(** C3, as amended.  When the first entry of the snapshot's "Tools" with an
    "Inputs" key is keyed [key] and the destination's name is another one,
    the patch step hands out a copy in which [key] is gone from "Tools", the
    destination's name carries the value [key] had, and every other entry,
    of "Tools" and of the snapshot, is as before; the snapshot itself is
    not touched. *)
Theorem patch_step_renames_first (st : state H) (src : nat)
    (d tools : dict) (key name : atom) (val : pyval) :
  nth src (heap st) VNone = VDict d ->
  dict_get (AStr "Tools") d = Some (VDict tools) ->
  find has_inputs tools = Some (key, val) ->
  key <> name ->
  exists (d' tools' : dict) (st' : state H),
    patch_step src (VAtom name) st = (Ok (VDict d'), st') /\
    nth src (heap st') VNone = VDict d /\
    heap st' = heap st ++ [VDict d'] /\
    world st' = world st /\ trace st' = trace st /\ lines st' = lines st /\
    dict_get (AStr "Tools") d' = Some (VDict tools') /\
    (forall k, k <> AStr "Tools" -> dict_get k d' = dict_get k d) /\
    dict_mem key tools' = false /\
    dict_get name tools' = Some val /\
    (forall k, k <> key -> k <> name -> dict_get k tools' = dict_get k tools).
Proof.
  intros Hsrc Htools Hfind Hne.
  assert (Lsrc : src < List.length (heap st)).
  { eapply nth_valid_location; [exact Hsrc | discriminate]. }
  set (tools1 := dict_set name val tools).
  set (tools2 := dict_del key tools1).
  set (d1 := dict_set (AStr "Tools") (VDict tools1) d).
  set (d2 := dict_set (AStr "Tools") (VDict tools2) d1).
  exists d2, tools2.
  destruct st as [w hp ls out tr]. simpl in *.
  eexists. split.
  - assert (N : py_eq (VAtom key) (VAtom name) = false)
      by (apply atom_eqb_neq; exact Hne).
    unfold patch_step, prepatch. msimpl.
    rewrite Hsrc, nth_last. unfold py_in. rewrite (dict_get_mem _ _ _ Htools).
    unfold py_getitem. rewrite Htools. unfold py_items. rewrite Hfind, N.
    cbn [negb].
    rewrite (update_tools_last _ d tools tools1) by (exact Htools || reflexivity).
    rewrite (update_tools_last _ d1 tools1 tools2)
      by (apply dict_get_set_same || reflexivity).
    cbn [heap]. rewrite nth_last. reflexivity.
  - simpl. repeat split.
    + rewrite app_nth1 by exact Lsrc. exact Hsrc.
    + apply dict_get_set_same.
    + intros k Nk. unfold d2, d1. now rewrite !dict_get_set_other by exact Nk.
    + unfold dict_mem, tools2. now rewrite dict_get_del_same.
    + unfold tools2, tools1.
      rewrite dict_get_del_other by congruence. apply dict_get_set_same.
    + intros k N1 N2. unfold tools2, tools1.
      rewrite dict_get_del_other by exact N1.
      now rewrite dict_get_set_other by exact N2.
Qed.

(** C10.  When the first entry of "Tools" with an "Inputs" key already
    carries the destination's name, the copy handed to the setter is the
    snapshot, entry for entry: nothing is renamed, neither that entry nor a
    later one. *)
Theorem patch_step_same_name (st : state H) (src : nat) (d tools : dict)
    (key : atom) (val tgt_name : pyval) :
  nth src (heap st) VNone = VDict d ->
  dict_get (AStr "Tools") d = Some (VDict tools) ->
  find has_inputs tools = Some (key, val) ->
  py_eq (VAtom key) tgt_name = true ->
  exists st' : state H,
    patch_step src tgt_name st = (Ok (VDict d), st') /\
    heap st' = heap st ++ [VDict d] /\
    world st' = world st /\ trace st' = trace st /\ lines st' = lines st.
Proof.
  intros Hsrc Htools Hfind Heq.
  destruct st as [w hp ls out tr]. cbn [heap world trace lines] in *.
  eexists. split.
  - unfold patch_step, prepatch. msimpl.
    rewrite Hsrc, nth_last. unfold py_in. rewrite (dict_get_mem _ _ _ Htools).
    unfold py_getitem. rewrite Htools. unfold py_items. rewrite Hfind, Heq.
    cbn [negb]. msimpl. rewrite nth_last. reflexivity.
  - cbn [heap world trace lines]. auto.
Qed.

End Patch.

(** A snapshot of one node, patched for the tool "TextA". *)
Lemma patch_step_renames_first_witness :
  exists (d' tools' : dict) (st' : state Studio.host),
    patch_step 0 (VStr "TextA")
      (mkState (H:=Studio.host) Studio.demo [Studio.source_dump] [] [] []) =
    (Ok (VDict d'), st') /\
    nth 0 (heap st') VNone = Studio.source_dump /\
    dict_get (AStr "Tools") d' = Some (VDict tools') /\
    dict_mem (AStr "SourceText") tools' = false /\
    dict_get (AStr "TextA") tools' =
    Some (VDict [(AStr "Inputs", VDict [(AStr "Size", VInt 2)])]).
Proof.
  destruct (patch_step_renames_first
              (mkState (H:=Studio.host) Studio.demo [Studio.source_dump] [] [] [])
              0 _ _ (AStr "SourceText") (AStr "TextA") _
              eq_refl eq_refl eq_refl ltac:(discriminate))
    as (d' & tools' & st' & E & O & _ & _ & _ & _ & T & _ & A & G & _).
  exists d', tools', st'. auto.
Defined.

(** C3 as stated fails on a snapshot of two nodes in which the source's
    node comes second: the first node is renamed and the source's stays.
    It fails as well when source and destination tool carry one name: the
    entry stays where it is. *)
Lemma patch_step_second_node_counterexample :
  let source := VDict [(AStr "Inputs", VDict [(AStr "Size", VInt 2)])] in
  let tools := [(AStr "Backdrop", VDict [(AStr "Inputs", VDict [])]);
                (AStr "SourceText", source)] in
  let st := mkState (H:=Studio.host) Studio.demo
                    [VDict [(AStr "Tools", VDict tools)]] [] [] [] in
  dict_get (AStr "SourceText") tools = Some source /\
  has_inputs (AStr "SourceText", source) = true /\
  (exists (tools' : dict) (st' : state Studio.host),
     patch_step 0 (VStr "TextA") st =
     (Ok (VDict [(AStr "Tools", VDict tools')]), st') /\
     dict_mem (AStr "SourceText") tools' = true /\
     dict_get (AStr "TextA") tools' <> Some source) /\
  (exists (tools' : dict) (st' : state Studio.host),
     patch_step 0 (VStr "SourceText")
       (mkState (H:=Studio.host) Studio.demo [Studio.source_dump] [] [] []) =
     (Ok (VDict [(AStr "Tools", VDict tools')]), st') /\
     dict_mem (AStr "SourceText") tools' = true).
Proof.
  cbv zeta. split; [reflexivity|]. split; [reflexivity|]. split.
  - eexists. eexists. split; [vm_compute; reflexivity|].
    split; [reflexivity | discriminate].
  - eexists. eexists. split; [vm_compute; reflexivity | reflexivity].
Qed.

(** A snapshot patched for a tool that carries the source's name. *)
Lemma patch_step_same_name_witness :
  exists st' : state Studio.host,
    patch_step 0 (VStr "SourceText")
      (mkState (H:=Studio.host) Studio.demo [Studio.source_dump] [] [] []) =
    (Ok Studio.source_dump, st') /\
    heap st' = [Studio.source_dump; Studio.source_dump].
Proof.
  destruct (patch_step_same_name
              (mkState (H:=Studio.host) Studio.demo [Studio.source_dump] [] [] [])
              0 _ _ (AStr "SourceText") _ (VStr "SourceText")
              eq_refl eq_refl eq_refl eq_refl)
    as (st' & E & O & _).
  exists st'. auto.
Defined.

(** ** The settings reader *)

Section Reader.
Context {H : Host}.

Lemma qualifies_acceptable (v : pyval) : qualifies v = true <-> acceptable v.
Proof.
  unfold acceptable. destruct v as [a|l|d]; simpl.
  - split; [discriminate | intros (d & E & _); discriminate].
  - split; [discriminate | intros (d & E & _); discriminate].
  - rewrite andb_true_iff, !orb_true_iff, !dict_mem_In, !Nat.ltb_lt.
    split.
    + intros [L K]. exists d. repeat split; auto.
      * intros ->. simpl in L. lia.
      * tauto.
    + intros (d' & E & N & K). injection E as <-. split; [|tauto].
      destruct d; [contradiction | simpl; lia].
Qed.

Lemma probe_probed (tool : pyval) (avail : string -> bool)
    (names : list string) (st : state H) :
  exists (r : pyval * pyval) (st' : state H),
    probe tool (map (fun n => (n, avail n)) names) st = (Ok r, st') /\
    probed tool avail names st r st'.
Proof.
  revert st. induction names as [|name rest IH]; intros st; simpl.
  - exists (VNone, VNone), st. split; [reflexivity | constructor].
  - destruct (avail name) eqn:A.
    + unfold bind at 1, try_except, bind at 1, ret.
      destruct (call tool name [] st) as [[v|e] st1] eqn:C.
      * destruct (qualifies v) eqn:Q.
        -- exists (v, VStr name), st1. split; [reflexivity|].
           eapply probed_accepted; eauto. now apply qualifies_acceptable.
        -- destruct (IH st1) as (r & st' & E & P).
           exists r, st'. split; [exact E|].
           eapply probed_rejected; eauto.
           intros Acc. apply qualifies_acceptable in Acc. congruence.
      * destruct (IH st1) as (r & st' & E & P).
        exists r, st'. split; [exact E|].
        eapply probed_raised; eauto.
    + destruct (IH st) as (r & st' & E & P).
      exists r, st'. split; [exact E|].
      now apply probed_missing.
Qed.

(** C2.  [get_tool_settings] never raises, and what it returns is what the
    reader of the specification yields on the accessors GetSettings,
    SaveSettings, GetCurrentSettings in this order: the first acceptable
    result with the name of its accessor, an accessor that raises being
    passed over, and (None, None) when none is acceptable. *)
Theorem get_tool_settings_probes (tool : pyval) (st : state H) :
  exists (r : pyval * pyval) (st' : state H),
    get_tool_settings tool st = (Ok r, st') /\
    probed tool (available tool st) accessors st r st'.
Proof.
  unfold get_tool_settings. msimpl.
  exact (probe_probed tool (available tool st) accessors st).
Qed.

End Reader.

(** ** Apply and restore *)

Section Transfer.
Context {H : Host}.

Lemma bind_run {A B} (m : M H A) (k : A -> M H B) (st : state H) :
  bind m k st =
  match m st with
  | (Ok a, st') => k a st'
  | (Raise e, st') => (Raise e, st')
  end.
Proof. reflexivity. Qed.

(** What the apply step does, branch by branch. *)
Lemma apply_step_run (h : handle) (new_settings source_method : pyval)
    (st : state H) :
  apply_step (VObj h) new_settings source_method st =
  match preferred_setter (py_eq source_method (VStr "SaveSettings"))
                         (has_attr H h "LoadSettings" (world st))
                         (has_attr H h "SetSettings" (world st)) with
  | None => (Ok (inr false), st)
  | Some setter =>
      match invoke H h setter [new_settings] (world st) with
      | (Ok _, w) =>
          (Ok (inr true), emit (ECall h setter [new_settings]) w st)
      | (Raise e, w) =>
          (Ok (inl false),
           logged ("  [Error] Apply failed: " ++ exn_str e)
                  (emit (ECall h setter [new_settings]) w st))
      end
  end.
Proof.
  unfold apply_step, call, logged. msimpl.
  destruct (py_eq source_method (VStr "SaveSettings"));
    destruct (has_attr H h "LoadSettings" (world st));
    cbn [andb]; msimpl;
    try (destruct (has_attr H h "SetSettings" (world st)); msimpl);
    cbn [preferred_setter]; try reflexivity;
    match goal with
    | |- context [invoke H h ?m ?a ?w] =>
        destruct (invoke H h m a w) as [[v|e] w']; reflexivity
    end.
Qed.

Lemma restore_step_run (h : handle) (original_text : pyval) (st : state H) :
  restore_step (VObj h) original_text st =
  match invoke H h "SetInput" [VStr "StyledText"; original_text] (world st) with
  | (Ok _, w) =>
      (Ok true, emit (ECall h "SetInput" [VStr "StyledText"; original_text]) w st)
  | (Raise e, w) =>
      (Ok false,
       logged ("  [Error] Failed to restore text: " ++ exn_str e)
              (emit (ECall h "SetInput" [VStr "StyledText"; original_text]) w st))
  end.
Proof.
  unfold restore_step, call, logged. msimpl.
  destruct (invoke H h "SetInput" _ (world st)) as [[v|e] w']; reflexivity.
Qed.

(** The patch step works on the store alone. *)
Lemma heap_only_bind {A B} (m : M H A) (k : A -> M H B) :
  heap_only m -> (forall a, heap_only (k a)) -> heap_only (bind m k).
Proof.
  intros Hm Hk st r st' E. rewrite bind_run in E.
  destruct (m st) as [[a|e] st1] eqn:E1.
  - destruct (Hm _ _ _ E1) as (W1 & T1 & L1).
    destruct (Hk a _ _ _ E) as (W2 & T2 & L2).
    repeat split; congruence.
  - injection E as <- <-. eapply Hm; eauto.
Qed.

Lemma heap_only_lift {A} (r : result A) : heap_only (H:=H) (lift r).
Proof. intros st r' st' E. injection E as <- <-. auto. Qed.

Lemma heap_only_ret {A} (a : A) : heap_only (H:=H) (ret a : M H A).
Proof. intros st r' st' E. injection E as <- <-. auto. Qed.

Lemma heap_only_raise {A} (e : exn) : heap_only (H:=H) (raise e : M H A).
Proof. intros st r' st' E. injection E as <- <-. auto. Qed.

Lemma heap_only_load (l : nat) : heap_only (H:=H) (load l).
Proof. intros st r' st' E. injection E as <- <-. auto. Qed.

Lemma heap_only_store (l : nat) (v : pyval) : heap_only (H:=H) (store l v).
Proof. intros st r' st' E. injection E as <- <-. auto. Qed.

Lemma heap_only_new_object (v : pyval) : heap_only (H:=H) (new_object v).
Proof. intros st r' st' E. injection E as <- <-. auto. Qed.

Lemma heap_only_update_tools (l : nat) (f : dict -> result dict) :
  heap_only (update_tools l f).
Proof.
  unfold update_tools.
  apply heap_only_bind; [apply heap_only_load | intros settings].
  apply heap_only_bind; [apply heap_only_lift | intros tools_obj].
  destruct settings as [a|l'|d]; try apply heap_only_raise.
  destruct tools_obj as [a|l'|tools]; try apply heap_only_raise.
  apply heap_only_bind; [apply heap_only_lift | intros tools'].
  apply heap_only_store.
Qed.

Lemma heap_only_prepatch (l : nat) (tgt_name : pyval) :
  heap_only (prepatch l tgt_name).
Proof.
  unfold prepatch.
  apply heap_only_bind; [apply heap_only_load | intros settings].
  apply heap_only_bind; [apply heap_only_lift | intros [|]];
    [|apply heap_only_ret].
  apply heap_only_bind; [apply heap_only_lift | intros tools_obj].
  apply heap_only_bind; [apply heap_only_lift | intros tools].
  destruct (find has_inputs tools) as [[key val]|]; [|apply heap_only_ret].
  destruct (negb _); [|apply heap_only_ret].
  apply heap_only_bind; intros; apply heap_only_update_tools.
Qed.

Lemma heap_only_patch_step (src : nat) (tgt_name : pyval) :
  heap_only (patch_step src tgt_name).
Proof.
  unfold patch_step, deepcopy.
  apply heap_only_bind.
  - apply heap_only_bind; [apply heap_only_load | intros; apply heap_only_new_object].
  - intros new. apply heap_only_bind; [apply heap_only_prepatch|].
    intros _. apply heap_only_load.
Qed.

Lemma call_run (h : handle) (meth : string) (args : list pyval)
    (st : state H) :
  call (VObj h) meth args st =
  (fst (invoke H h meth args (world st)),
   emit (ECall h meth args) (snd (invoke H h meth args (world st))) st).
Proof. unfold call. now destruct (invoke H h meth args (world st)). Qed.

(** C4, as amended.  Once the name and the text of the destination are
    read and the settings patched (two reads, nothing logged), one setter at
    most is called, the preferred one that the destination has: LoadSettings
    for a snapshot from SaveSettings, else SetSettings, else LoadSettings.
    With neither setter the function returns False at once: no call, no log
    line.  If the setter raises, the function returns False, the line
    "  [Error] Apply failed: .." with the exception is appended to the log
    and printed, and the world is the one the failed call left; otherwise
    the function goes on to the restore. *)
Theorem apply_attempts_one_setter (h : handle) (src : nat)
    (source_method tgt_name text patched : pyval) (st st1 st2 st3 : state H) :
  call (VObj h) "GetAttrs" [VStr "TOOLS_Name"] st = (Ok tgt_name, st1) ->
  call (VObj h) "GetInput" [VStr "StyledText"] st1 = (Ok text, st2) ->
  patch_step src tgt_name st2 = (Ok patched, st3) ->
  lines st3 = lines st /\
  trace st3 = trace st ++ [ECall h "GetAttrs" [VStr "TOOLS_Name"];
                           ECall h "GetInput" [VStr "StyledText"]] /\
  match preferred_setter (py_eq source_method (VStr "SaveSettings"))
                         (has_attr H h "LoadSettings" (world st3))
                         (has_attr H h "SetSettings" (world st3)) with
  | None =>
      apply_style_and_restore_text (VObj h) src source_method st =
      (Ok false, st3)
  | Some setter =>
      In setter ["SetSettings"; "LoadSettings"] /\
      match invoke H h setter [patched] (world st3) with
      | (Raise e, w) =>
          apply_style_and_restore_text (VObj h) src source_method st =
          (Ok false,
           mkState w (heap st3)
             (lines st3 ++ [("  [Error] Apply failed: " ++ exn_str e)%string])
             (stdout st3 ++ [("  [Error] Apply failed: " ++ exn_str e)%string])
             (trace st3 ++ [ECall h setter [patched]]))
      | (Ok _, w) =>
          apply_style_and_restore_text (VObj h) src source_method st =
          restore_step (VObj h) (backup_of text)
            (mkState w (heap st3) (lines st3) (stdout st3)
                     (trace st3 ++ [ECall h setter [patched]]))
      end
  end.
Proof.
  intros HA HI HP.
  assert (P1 : lines st1 = lines st /\
               trace st1 = trace st ++ [ECall h "GetAttrs" [VStr "TOOLS_Name"]]).
  { rewrite call_run in HA. injection HA as _ <-. now split. }
  assert (P2 : lines st2 = lines st1 /\
               trace st2 = trace st1 ++ [ECall h "GetInput" [VStr "StyledText"]]).
  { rewrite call_run in HI. injection HI as _ <-. now split. }
  destruct (heap_only_patch_step _ _ _ _ _ HP) as (_ & T3 & L3).
  destruct P1 as [L1 T1], P2 as [L2 T2].
  split; [congruence|]. split.
  { rewrite T3, T2, T1. now rewrite <- app_assoc. }
  unfold apply_style_and_restore_text.
  rewrite (bind_ok _ _ _ _ _ HA), (bind_ok _ _ _ _ _ HI).
  rewrite (bind_ok _ _ _ _ _ HP).
  rewrite bind_run, apply_step_run.
  destruct (preferred_setter _ _ _) as [setter|] eqn:P; [|reflexivity].
  split.
  - destruct (py_eq source_method (VStr "SaveSettings")),
             (has_attr H h "LoadSettings" (world st3)),
             (has_attr H h "SetSettings" (world st3));
      simpl in P; inversion P; simpl; auto.
  - destruct (invoke H h setter [patched] (world st3)) as [[v|e] w];
      reflexivity.
Qed.

(** C1, as amended.  If [apply_style_and_restore_text] returns True, the
    chosen setter and the write of the text both returned without raising,
    and what was written is the backup: the text read before the settings
    were applied, or the empty string when that read gave None.  Where the
    host stores what SetInput is given, the text read after the call is
    that backup. *)
Theorem success_restores_backup (tool : pyval) (src : nat)
    (source_method : pyval) (st st' : state H) :
  apply_style_and_restore_text tool src source_method st = (Ok true, st') ->
  exists (h : handle) (tgt_name text patched v v' : pyval)
         (w1 w2 w3 : World H) (setter : string),
    tool = VObj h /\
    invoke H h "GetAttrs" [VStr "TOOLS_Name"] (world st) = (Ok tgt_name, w1) /\
    invoke H h "GetInput" [VStr "StyledText"] w1 = (Ok text, w2) /\
    In setter ["SetSettings"; "LoadSettings"] /\
    invoke H h setter [patched] w2 = (Ok v, w3) /\
    invoke H h "SetInput" [VStr "StyledText"; backup_of text] w3 =
    (Ok v', world st') /\
    trace st' =
    trace st ++ [ECall h "GetAttrs" [VStr "TOOLS_Name"];
                 ECall h "GetInput" [VStr "StyledText"];
                 ECall h setter [patched];
                 ECall h "SetInput" [VStr "StyledText"; backup_of text]] /\
    (stores_text h w3 ->
     fst (invoke H h "GetInput" [VStr "StyledText"] (world st')) =
     Ok (backup_of text)).
Proof.
  intros Hrun. unfold apply_style_and_restore_text in Hrun.
  rewrite bind_run in Hrun.
  destruct tool as [[| | |h]| |]; try discriminate Hrun.
  rewrite call_run in Hrun.
  destruct (invoke H h "GetAttrs" _ (world st)) as [[tgt_name|e] w1] eqn:HA;
    cbn [fst snd] in Hrun; [|discriminate].
  rewrite bind_run, call_run in Hrun. cbn [world emit] in Hrun.
  destruct (invoke H h "GetInput" _ w1) as [[text|e] w2] eqn:HI;
    cbn [fst snd] in Hrun; [|discriminate].
  cbv zeta in Hrun. rewrite bind_run in Hrun.
  destruct (patch_step src tgt_name _) as [[patched|e] st3] eqn:HP;
    [|discriminate].
  destruct (heap_only_patch_step _ _ _ _ _ HP) as (W3 & T3 & L3).
  unfold emit in W3, T3, L3. cbn [world trace lines] in W3, T3, L3.
  rewrite bind_run, apply_step_run in Hrun. rewrite W3 in Hrun.
  destruct (preferred_setter _ _ _) as [setter|] eqn:P; [|discriminate].
  assert (S : In setter ["SetSettings"; "LoadSettings"]).
  { destruct (py_eq source_method (VStr "SaveSettings")),
             (has_attr H h "LoadSettings" w2),
             (has_attr H h "SetSettings" w2);
      simpl in P; inversion P; simpl; auto. }
  destruct (invoke H h setter [patched] w2) as [[v|e] w3] eqn:HS;
    [|discriminate].
  rewrite restore_step_run in Hrun. fold (backup_of text) in Hrun.
  unfold emit in Hrun. cbn [world trace heap lines stdout] in Hrun.
  destruct (invoke H h "SetInput" [VStr "StyledText"; backup_of text] w3)
    as [[v'|e] w4] eqn:HR; [|discriminate].
  injection Hrun as <-. cbn [world trace].
  exists h, tgt_name, text, patched, v, v', w1, w2, w3, setter.
  repeat split; auto.
  - rewrite T3. now rewrite <- !app_assoc.
  - intros RB. exact (RB _ _ _ HR).
Qed.

(** C8, as amended.  When the read of the text returns, the operation goes
    on to patch and apply, whatever was read, with the empty string as the
    backup if it was None; the operation stops at the backup only when the
    read itself raises. *)
Theorem backup_proceeds_unless_read_raises (h : handle) (src : nat)
    (source_method tgt_name : pyval) (st st1 : state H) :
  call (VObj h) "GetAttrs" [VStr "TOOLS_Name"] st = (Ok tgt_name, st1) ->
  (forall text st2,
     call (VObj h) "GetInput" [VStr "StyledText"] st1 = (Ok text, st2) ->
     backup_of VNone = VStr "" /\
     (text <> VNone -> backup_of text = text) /\
     apply_style_and_restore_text (VObj h) src source_method st =
     (new_settings <- patch_step src tgt_name ;;
      applied <- apply_step (VObj h) new_settings source_method ;;
      match applied with
      | inl b => ret b
      | inr false => ret false
      | inr true => restore_step (VObj h) (backup_of text)
      end) st2) /\
  (forall e st2,
     call (VObj h) "GetInput" [VStr "StyledText"] st1 = (Raise e, st2) ->
     apply_style_and_restore_text (VObj h) src source_method st =
     (Raise e, st2)).
Proof.
  intros HA. split.
  - intros text st2 HI. split; [reflexivity|]. split.
    + intros N. destruct text as [[| | |]| |]; try reflexivity. congruence.
    + unfold apply_style_and_restore_text.
      now rewrite (bind_ok _ _ _ _ _ HA), (bind_ok _ _ _ _ _ HI).
  - intros e st2 HI. unfold apply_style_and_restore_text.
    rewrite (bind_ok _ _ _ _ _ HA). now rewrite (bind_raise _ _ _ _ _ HI).
Qed.

End Transfer.

(** The tool of clip "A" takes the settings and keeps its text. *)
Lemma success_restores_backup_witness :
  exists (h : handle) (text v' : pyval) (w3 : Studio.studio),
    VObj 15 = VObj h /\
    invoke Studio.host h "SetInput" [VStr "StyledText"; backup_of text] w3 =
    (Ok v',
     world (snd (apply_style_and_restore_text (VObj 15) 0 (VStr "GetSettings")
                   (Studio.captured Studio.demo)))).
Proof.
  destruct (success_restores_backup (H:=Studio.host) (VObj 15) 0
              (VStr "GetSettings") (Studio.captured Studio.demo)
              (snd (apply_style_and_restore_text (VObj 15) 0
                      (VStr "GetSettings") (Studio.captured Studio.demo)))
              eq_refl)
    as (h & tgt_name & text & patched & v & v' & w1 & w2 & w3 & setter &
        Eh & _ & _ & _ & _ & HR & _).
  exists h, text, v', w3. split; assumption.
Defined.

(** On that run the text after the call is the text before it. *)
Example text_kept_on_demo :
  let st := Studio.captured Studio.demo in
  let run := apply_style_and_restore_text (VObj 15) 0 (VStr "GetSettings") st in
  fst run = Ok true /\
  fst (invoke Studio.host 15 "GetInput" [VStr "StyledText"] (world st)) =
  Ok (VStr "Hello") /\
  fst (invoke Studio.host 15 "GetInput" [VStr "StyledText"] (world (snd run))) =
  Ok (VStr "Hello") /\
  Studio.applied
    (match nth_error (Studio.clips (world (snd run))) 1 with
     | Some c => match Studio.clip_tool c with
                 | Some t => t
                 | None => Studio.text_tool "" VNone VNone
                 end
     | None => Studio.text_tool "" VNone VNone
     end) =
  [VDict [(AStr "Tools",
           VDict [(AStr "TextA",
                   VDict [(AStr "Inputs", VDict [(AStr "Size", VInt 2)])])])]].
Proof. vm_compute. repeat split. Qed.

(** C1 as stated fails for a destination whose text reads None: the
    function returns True and the text is the empty string afterwards. *)
Lemma blank_text_counterexample :
  let st := Studio.captured Studio.blank_demo in
  let run := apply_style_and_restore_text (VObj 15) 0 (VStr "GetSettings") st in
  fst run = Ok true /\
  fst (invoke Studio.host 15 "GetInput" [VStr "StyledText"] (world st)) =
  Ok VNone /\
  fst (invoke Studio.host 15 "GetInput" [VStr "StyledText"] (world (snd run))) =
  Ok (VStr "") /\
  fst (invoke Studio.host 15 "GetInput" [VStr "StyledText"] (world (snd run))) <>
  fst (invoke Studio.host 15 "GetInput" [VStr "StyledText"] (world st)).
Proof. vm_compute. repeat split. discriminate. Qed.

(** The tool of clip "A" has SetSettings: that one is called, and the
    restore follows. *)
Lemma apply_attempts_one_setter_witness :
  exists st' : state Studio.host,
    apply_style_and_restore_text (VObj 15) 0 (VStr "GetSettings")
      (Studio.captured Studio.demo) = (Ok true, st') /\
    filter is_setter (trace st') =
    [ECall 15 "SetSettings"
       [VDict [(AStr "Tools",
                VDict [(AStr "TextA",
                        VDict [(AStr "Inputs", VDict [(AStr "Size", VInt 2)])])])]];
     ECall 15 "SetInput" [VStr "StyledText"; VStr "Hello"]].
Proof.
  pose proof
    (apply_attempts_one_setter (H:=Studio.host) 15 0 (VStr "GetSettings")
       (VStr "TextA") (VStr "Hello") _
       (Studio.captured Studio.demo) _ _ _ eq_refl eq_refl eq_refl) as W.
  vm_compute in W. destruct W as (_ & _ & _ & W).
  eexists. split; [exact W | reflexivity].
Defined.

(** C4 as stated fails on a destination that has neither setter: no setter
    is attempted, not one, and the function returns False without a line in
    the log. *)
Lemma no_setter_counterexample :
  let run := apply_style_and_restore_text (VObj 15) 0 (VStr "GetSettings")
               (Studio.captured Studio.bare_demo) in
  preferred_setter false
    (has_attr Studio.host 15 "LoadSettings" Studio.bare_demo)
    (has_attr Studio.host 15 "SetSettings" Studio.bare_demo) = None /\
  fst run = Ok false /\
  filter is_setter (trace (snd run)) = [] /\
  trace (snd run) = [ECall 15 "GetAttrs" [VStr "TOOLS_Name"];
                     ECall 15 "GetInput" [VStr "StyledText"]] /\
  lines (snd run) = [].
Proof. vm_compute. repeat split. Qed.

(** The text of clip "A" is read: the operation goes on. *)
Lemma backup_proceeds_unless_read_raises_witness :
  exists st2 : state Studio.host,
    apply_style_and_restore_text (VObj 15) 0 (VStr "GetSettings")
      (Studio.captured Studio.demo) =
    (new_settings <- patch_step 0 (VStr "TextA") ;;
     applied <- apply_step (VObj 15) new_settings (VStr "GetSettings") ;;
     match applied with
     | inl b => ret b
     | inr false => ret false
     | inr true => restore_step (VObj 15) (backup_of (VStr "Hello"))
     end) st2.
Proof.
  eexists.
  exact (proj2 (proj2 (proj1 (backup_proceeds_unless_read_raises
                                (H:=Studio.host) 15 0 (VStr "GetSettings")
                                (VStr "TextA") (Studio.captured Studio.demo)
                                _ eq_refl)
                             (VStr "Hello") _ eq_refl))).
Defined.

(** C8 as stated fails for a destination whose text cannot be read because
    the read raises: the operation ends there, before patch and apply, and
    [main] reports the clip as failed. *)
Lemma unreadable_text_counterexample :
  let st := Studio.captured Studio.unreadable_demo in
  let run := apply_style_and_restore_text (VObj 15) 0 (VStr "GetSettings") st in
  fst run = Raise (HostError "GetInput failed") /\
  trace (snd run) = [ECall 15 "GetAttrs" [VStr "TOOLS_Name"];
                     ECall 15 "GetInput" [VStr "StyledText"]] /\
  heap (snd run) = heap st /\
  In "[Fail] A: GetInput failed"
     (lines (snd (main (init (H:=Studio.host) Studio.unreadable_demo)))).
Proof. vm_compute. repeat split. auto. Qed.

(** ** The selection scan *)

Section Scan.
Context {H : Host}.

Lemma range_from_1_count_up (z : Z) :
  range_from_1 (VInt z) = Ok (count_up (Z.to_nat z)).
Proof.
  unfold range_from_1. f_equal.
  induction (Z.to_nat z) as [|n IH]; [reflexivity|].
  rewrite seq_S, map_app, IH. reflexivity.
Qed.

Lemma scan_items_excludes (source_item : pyval) (items acc r : list pyval)
    (st st' : state H) :
  scan_items source_item items acc st = (Ok r, st') ->
  Forall (fun t => py_eq t source_item = false) acc ->
  Forall (fun t => py_eq t source_item = false) r.
Proof.
  revert acc st. induction items as [|item rest IH]; intros acc st E A.
  - injection E as <- _. exact A.
  - simpl in E. destruct (py_eq item source_item) eqn:Q.
    + eapply IH; eauto.
    + rewrite bind_run in E.
      destruct (call item "GetClipColor" [] st) as [[color|e] st1];
        [|discriminate].
      destruct (py_eq color (VStr target_color)).
      * eapply IH; [exact E|]. apply Forall_app. split; auto.
      * eapply IH; eauto.
Qed.

Lemma scan_tracks_excludes (timeline source_item : pyval)
    (indices acc r : list pyval) (st st' : state H) :
  scan_tracks timeline source_item indices acc st = (Ok r, st') ->
  Forall (fun t => py_eq t source_item = false) acc ->
  Forall (fun t => py_eq t source_item = false) r.
Proof.
  revert acc st. induction indices as [|i rest IH]; intros acc st E A.
  - injection E as <- _. exact A.
  - simpl in E. rewrite bind_run in E.
    destruct (call timeline "GetItemListInTrack" _ st) as [[items|e] st1];
      [|discriminate].
    rewrite bind_run in E.
    destruct (truthy items).
    + rewrite bind_run in E. unfold lift in E.
      destruct (py_iter items) as [l|e]; [|discriminate].
      destruct (scan_items source_item l acc st1) as [[found|e] st2] eqn:S;
        [|discriminate].
      eapply IH; [exact E|]. eapply scan_items_excludes; eauto.
    + unfold ret in E. eapply IH; eauto.
Qed.

Lemma scan_items_filter (w : World H) (source_item : pyval)
    (items acc r : list pyval) (st st' : state H) :
  scan_reads_only w ->
  world st = w ->
  scan_items source_item items acc st = (Ok r, st') ->
  r = acc ++ filter (fun item => negb (py_eq item source_item) && is_pink w item)
                    items /\
  world st' = w.
Proof.
  intros R. revert acc st. induction items as [|item rest IH]; intros acc st W E.
  - injection E as <- <-. now rewrite app_nil_r.
  - simpl in E. simpl filter. destruct (py_eq item source_item) eqn:Q.
    + simpl. eapply IH; eauto.
    + simpl. destruct item as [[| | |h]| |]; try discriminate E.
      rewrite bind_run, call_run in E. rewrite W in E.
      assert (W1 : snd (invoke H h "GetClipColor" [] w) = w)
        by (apply R; simpl; auto).
      rewrite W1 in E. unfold is_pink.
      destruct (fst (invoke H h "GetClipColor" [] w)) as [color|e];
        [|discriminate].
      change (VStr target_color) with (VStr "Pink") in E.
      destruct (py_eq color (VStr "Pink")).
      * destruct (IH (acc ++ [VObj h]) (emit (ECall h "GetClipColor" []) w st)
                     eq_refl E) as [-> W']. split; [|exact W'].
        now rewrite <- app_assoc.
      * exact (IH acc (emit (ECall h "GetClipColor" []) w st) eq_refl E).
Qed.

Lemma scan_tracks_flat_map (w : World H) (timeline source_item : pyval)
    (indices acc r : list pyval) (st st' : state H) :
  scan_reads_only w ->
  world st = w ->
  scan_tracks timeline source_item indices acc st = (Ok r, st') ->
  r = acc ++ pink_others w timeline source_item indices /\
  world st' = w.
Proof.
  intros R. revert acc st.
  induction indices as [|i rest IH]; intros acc st W E.
  - injection E as <- <-. now rewrite app_nil_r.
  - simpl in E. simpl pink_others.
    destruct timeline as [[| | |h]| |]; try discriminate E.
    rewrite bind_run, call_run in E. rewrite W in E.
    assert (W1 : snd (invoke H h "GetItemListInTrack" [VStr "video"; i] w) = w)
      by (apply R; simpl; auto).
    rewrite W1 in E. unfold track_items.
    destruct (fst (invoke H h "GetItemListInTrack" [VStr "video"; i] w))
      as [items|e]; [|discriminate].
    rewrite bind_run in E. destruct (truthy items).
    + rewrite bind_run in E. unfold lift in E.
      destruct (py_iter items) as [l|e]; [|discriminate].
      destruct (scan_items source_item l acc _) as [[found|e] st2] eqn:S;
        [|discriminate].
      destruct (scan_items_filter w _ _ _ _
                  (emit (ECall h "GetItemListInTrack" [VStr "video"; i]) w st)
                  _ R eq_refl S) as [-> W2].
      destruct (IH _ _ W2 E) as [-> W']. split; [|exact W'].
      now rewrite <- app_assoc.
    + unfold ret in E. simpl.
      exact (IH acc (emit (ECall h "GetItemListInTrack" [VStr "video"; i]) w st)
                eq_refl E).
Qed.

(** C7.  The list that [main] collects never holds an item equal to the
    source item, whatever the colour of that item; and while the scan only
    reads the timeline, the list is, for the tracks 1, 2, .. up to the
    track count one after the other and within a track in the order of the
    track, every item that differs from the source item and whose clip
    colour is "Pink". *)
Theorem collect_targets_pink_others (timeline source_item : pyval)
    (targets : list pyval) (st st' : state H) :
  collect_targets timeline source_item st = (Ok targets, st') ->
  Forall (fun t => py_eq t source_item = false) targets /\
  (scan_reads_only (world st) ->
   targets = pink_others (world st) timeline source_item
                         (track_indices (world st) timeline) /\
   world st' = world st).
Proof.
  intros E. unfold collect_targets in E. rewrite bind_run in E. split.
  - destruct (call timeline "GetTrackCount" _ st) as [[n|e] st1];
      [|discriminate].
    rewrite bind_run in E. unfold lift in E.
    destruct (range_from_1 n) as [indices|e]; [|discriminate].
    eapply scan_tracks_excludes; eauto.
  - intros R. unfold track_indices.
    destruct timeline as [[| | |h]| |]; try discriminate E.
    rewrite call_run in E.
    assert (W1 : snd (invoke H h "GetTrackCount" [VStr "video"] (world st)) =
                 world st) by (apply R; simpl; auto).
    rewrite W1 in E.
    destruct (fst (invoke H h "GetTrackCount" [VStr "video"] (world st)))
      as [n|e]; [|discriminate].
    rewrite bind_run in E. unfold lift in E.
    destruct n as [[|z| |]| |]; try discriminate E.
    rewrite range_from_1_count_up in E.
    exact (scan_tracks_flat_map (world st) _ _ _ [] _
             (emit (ECall h "GetTrackCount" [VStr "video"]) (world st) st)
             _ R eq_refl E).
Qed.

End Scan.

(** The small host answers the scan without changing. *)
Lemma studio_scan_reads_only (w : Studio.studio) :
  scan_reads_only (H:=Studio.host) w.
Proof.
  intros h meth args I. cbn [invoke Studio.host].
  unfold Studio.do_invoke, Studio.invoke_app, Studio.invoke_timeline,
    Studio.invoke_clip, Studio.invoke_comp, Studio.invoke_tool,
    Studio.host_error.
  destruct I as [<-|[<-|[<-|[]]]]; cbn [String.eqb Ascii.eqb Bool.eqb andb orb negb];
    repeat match goal with
           | |- snd (if ?b then _ else _) = _ => destruct b
           | |- snd (match ?x with _ => _ end) = _ => destruct x
           end; reflexivity.
Qed.

(** A timeline whose source clip is tagged "Pink" itself: the clips "A" and
    "B" are collected, the source is not. *)
Lemma collect_targets_pink_others_witness :
  Forall (fun t => py_eq t (VObj 10) = false) [VObj 13; VObj 16] /\
  [VObj 13; VObj 16] =
  pink_others (H:=Studio.host) Studio.pink_source_demo (VObj 4) (VObj 10)
    (track_indices (H:=Studio.host) Studio.pink_source_demo (VObj 4)).
Proof.
  destruct (collect_targets_pink_others (H:=Studio.host) (VObj 4) (VObj 10)
              [VObj 13; VObj 16]
              (init (H:=Studio.host) Studio.pink_source_demo)
              (snd (collect_targets (VObj 4) (VObj 10)
                      (init (H:=Studio.host) Studio.pink_source_demo)))
              eq_refl) as [E P].
  split; [exact E|].
  exact (proj1 (P (studio_scan_reads_only Studio.pink_source_demo))).
Defined.

(** ** The calls a run issues *)

Section Calls.
Context {H : Host}.

Lemma emits_nothing {A} (P : event -> Prop) (m : M H A) :
  (forall st, trace (snd (m st)) = trace st) -> emits P m.
Proof.
  intros T st r st' E. exists []. split; [|constructor].
  rewrite app_nil_r. specialize (T st). now rewrite E in T.
Qed.

Lemma emits_ret {A} (P : event -> Prop) (a : A) : emits P (ret a).
Proof. now apply emits_nothing. Qed.

Lemma emits_raise {A} (P : event -> Prop) (e : exn) :
  emits P (raise e : M H A).
Proof. now apply emits_nothing. Qed.

Lemma emits_lift {A} (P : event -> Prop) (r : result A) : emits P (lift r).
Proof. now apply emits_nothing. Qed.

Lemma emits_log (P : event -> Prop) (message : string) :
  emits P (log message).
Proof. now apply emits_nothing. Qed.

Lemma emits_hasattr (P : event -> Prop) (v : pyval) (name : string) :
  emits P (hasattr v name).
Proof. now apply emits_nothing. Qed.

Lemma emits_new_object (P : event -> Prop) (v : pyval) :
  emits P (new_object v).
Proof. now apply emits_nothing. Qed.

Lemma emits_get_full_report (P : event -> Prop) : emits P get_full_report.
Proof. now apply emits_nothing. Qed.

Lemma emits_bind {A B} (P : event -> Prop) (m : M H A) (k : A -> M H B) :
  emits P m -> (forall a, emits P (k a)) -> emits P (bind m k).
Proof.
  intros Hm Hk st r st' E. rewrite bind_run in E.
  destruct (m st) as [[a|e] st1] eqn:E1.
  - destruct (Hm _ _ _ E1) as (evs1 & T1 & F1).
    destruct (Hk a _ _ _ E) as (evs2 & T2 & F2).
    exists (evs1 ++ evs2). split.
    + now rewrite T2, T1, app_assoc.
    + now apply Forall_app.
  - injection E as <- <-. eapply Hm; eauto.
Qed.

Lemma emits_try {A} (P : event -> Prop) (m : M H A) (handler : exn -> M H A) :
  emits P m -> (forall e, emits P (handler e)) -> emits P (try_except m handler).
Proof.
  intros Hm Hh st r st' E. unfold try_except in E.
  destruct (m st) as [[a|e] st1] eqn:E1.
  - injection E as <- <-. eapply Hm; eauto.
  - destruct (Hm _ _ _ E1) as (evs1 & T1 & F1).
    destruct (Hh e _ _ _ E) as (evs2 & T2 & F2).
    exists (evs1 ++ evs2). split.
    + now rewrite T2, T1, app_assoc.
    + now apply Forall_app.
Qed.

Lemma emits_call (P : event -> Prop) (recv : pyval) (meth : string)
    (args : list pyval) :
  (forall h, recv = VObj h -> P (ECall h meth args)) ->
  emits P (call recv meth args).
Proof.
  intros HP st r st' E.
  destruct recv as [[| | |h]| |];
    try (injection E as <- <-; exists []; rewrite app_nil_r; now split).
  rewrite call_run in E. injection E as <- <-.
  exists [ECall h meth args]. split; [reflexivity|].
  constructor; [now apply HP | constructor].
Qed.

Lemma emits_time_sleep (P : event -> Prop) : P ESleep -> emits P time_sleep.
Proof.
  intros HP st r st' E. injection E as <- <-.
  exists [ESleep]. split; [reflexivity | now repeat constructor].
Qed.

Lemma emits_get_resolve (P : event -> Prop) :
  (forall m, P (EScriptApp m)) -> emits P get_resolve.
Proof.
  intros HP st r st' E. unfold get_resolve in E.
  destruct (importable H (world st)).
  - destruct (scriptapp H _ (world st)) as [r0 w]. injection E as <- <-.
    eexists [_]. split; [reflexivity | now repeat constructor].
  - destruct (fusionscript_loaded H (world st)).
    + destruct (scriptapp H _ (world st)) as [r0 w]. injection E as <- <-.
      eexists [_]. split; [reflexivity | now repeat constructor].
    + injection E as <- <-. exists []. rewrite app_nil_r. now split.
Qed.

Lemma emits_show_report_window (P : event -> Prop) (fusion : pyval)
    (report : string) :
  (forall h, P (EDialog h report)) ->
  emits P (show_report_window fusion report).
Proof.
  intros HP. unfold show_report_window.
  destruct (negb (truthy fusion)); [apply emits_ret|].
  apply emits_bind; [apply emits_hasattr | intros has_ui].
  destruct fusion as [[| | |h]| |]; try apply emits_ret.
  destruct has_ui; [|apply emits_ret].
  intros st r st' E. injection E as <- <-.
  eexists [_]. split; [reflexivity | now repeat constructor].
Qed.

End Calls.

(** Taking a computation apart along its binds and branches. *)
Ltac emits_step :=
  match goal with
  | |- emits _ (bind _ _) => apply emits_bind; [|intros ?]
  | |- emits _ (try_except _ _) => apply emits_try; [|intros ?]
  | |- emits _ (ret _) => apply emits_ret
  | |- emits _ (raise _) => apply emits_raise
  | |- emits _ (lift _) => apply emits_lift
  | |- emits _ (log _) => apply emits_log
  | |- emits _ (hasattr _ _) => apply emits_hasattr
  | |- emits _ (new_object _) => apply emits_new_object
  | |- emits _ get_full_report => apply emits_get_full_report
  | |- emits _ (if ?b then _ else _) => destruct b
  | |- emits _ (match ?x with _ => _ end) => destruct x
  end.

Section Runs.
Context {H : Host}.

Lemma emits_first_text_named (P : event -> Prop) (tools : list pyval) :
  (forall h args, P (ECall h "GetAttrs" args)) ->
  emits P (first_text_named tools).
Proof.
  intros HP. induction tools as [|tool rest IH]; simpl.
  - apply emits_ret.
  - apply emits_bind; [apply emits_call; intros; apply HP | intros name].
    repeat emits_step. exact IH.
Qed.

Lemma emits_find_textplus_tool (P : event -> Prop) (fusion_comp : pyval) :
  (forall h args, P (ECall h "GetAttrs" args)) ->
  (forall h args, P (ECall h "GetToolList" args)) ->
  emits P (find_textplus_tool fusion_comp).
Proof.
  intros HA HT. unfold find_textplus_tool.
  destruct (negb (truthy fusion_comp)); [apply emits_ret|].
  apply emits_bind; [apply emits_call; intros; apply HT | intros tools_dict].
  apply emits_bind; [repeat emits_step | intros by_id].
  destruct by_id; [|apply emits_ret].
  apply emits_bind; [apply emits_call; intros; apply HT | intros all_tools].
  destruct (truthy all_tools); [|apply emits_ret].
  apply emits_bind; [apply emits_lift | intros tools].
  now apply emits_first_text_named.
Qed.

Lemma emits_probe (P : event -> Prop) (tool : pyval)
    (candidates : list (string * bool)) :
  (forall h name, In name (map fst candidates) -> P (ECall h name [])) ->
  emits P (probe tool candidates).
Proof.
  induction candidates as [|[name method] rest IH]; intros HP; simpl.
  - apply emits_ret.
  - assert (IH' : emits P (probe tool rest))
      by (apply IH; intros; apply HP; simpl; auto).
    destruct method; [|exact IH'].
    apply emits_bind.
    + apply emits_try; [|intros; apply emits_ret].
      apply emits_bind; [|intros; apply emits_ret].
      apply emits_call. intros. apply HP. simpl. auto.
    + intros [result|]; [apply emits_ret | exact IH'].
Qed.

Lemma emits_get_tool_settings (P : event -> Prop) (tool : pyval) :
  (forall h name, In name accessors -> P (ECall h name [])) ->
  emits P (get_tool_settings tool).
Proof.
  intros HP. unfold get_tool_settings. repeat emits_step.
  apply emits_probe. exact HP.
Qed.

Lemma emits_scan_items (P : event -> Prop) (source_item : pyval)
    (items acc : list pyval) :
  (forall h args, P (ECall h "GetClipColor" args)) ->
  emits P (scan_items source_item items acc).
Proof.
  intros HP. revert acc. induction items as [|item rest IH]; intros acc; simpl.
  - apply emits_ret.
  - destruct (py_eq item source_item); [apply IH|].
    apply emits_bind; [apply emits_call; intros; apply HP | intros color].
    destruct (py_eq color _); apply IH.
Qed.

Lemma emits_collect_targets (P : event -> Prop) (timeline source_item : pyval) :
  (forall h args, P (ECall h "GetClipColor" args)) ->
  (forall h args, P (ECall h "GetItemListInTrack" args)) ->
  (forall h args, P (ECall h "GetTrackCount" args)) ->
  emits P (collect_targets timeline source_item).
Proof.
  intros HC HI HT. unfold collect_targets.
  apply emits_bind; [apply emits_call; intros; apply HT | intros n].
  apply emits_bind; [apply emits_lift | intros indices].
  generalize (@nil pyval) as acc.
  induction indices as [|i rest IH]; intros acc; simpl.
  - apply emits_ret.
  - apply emits_bind; [apply emits_call; intros; apply HI | intros items].
    apply emits_bind; [|intros; apply IH].
    destruct (truthy items); [|apply emits_ret].
    apply emits_bind; [apply emits_lift | intros l].
    now apply emits_scan_items.
Qed.

Lemma quiet_leaves (source_item : pyval) (e : event) :
  quiet e -> is_scan e = false /\ leaves_destinations source_item e.
Proof.
  intros (S & T & C). repeat split; auto. intros C'. congruence.
Qed.

(** One step of a run that goes on. *)
Lemma bind_inv {A B} (P : event -> Prop) (m : M H A) (k : A -> M H B)
    (st st' : state H) (b : B) :
  emits P m ->
  bind m k st = (Ok b, st') ->
  exists a st1 evs,
    m st = (Ok a, st1) /\ trace st1 = trace st ++ evs /\ Forall P evs /\
    lines st1 = lines (snd (m st)) /\
    k a st1 = (Ok b, st').
Proof.
  intros Hm E. rewrite bind_run in E.
  destruct (m st) as [[a|e] st1] eqn:E1; [|discriminate].
  destruct (Hm _ _ _ E1) as (evs & T & F).
  exists a, st1, evs. auto.
Qed.

Lemma returns_bind {A B} (Q : B -> Prop) (m : M H A) (k : A -> M H B) :
  (forall a, returns Q (k a)) -> returns Q (bind m k).
Proof.
  intros Hk st b st' E. rewrite bind_run in E.
  destruct (m st) as [[a|e] st1]; [|discriminate]. eapply Hk; eauto.
Qed.

Lemma returns_ret {A} (Q : A -> Prop) (a : A) :
  Q a -> returns Q (ret a : M H A).
Proof. intros HQ st b st' E. now injection E as <- _. Qed.

(** The part of [main] that loads the composition of the source works on
    the source item, the application and the tools of that composition. *)
Lemma emits_main_tool (P : event -> Prop)
    (resolve fusion timeline source_item source_comp : pyval) :
  (forall e, quiet e -> P e) ->
  emits P (main_tool resolve fusion timeline source_item source_comp).
Proof.
  intros HP. unfold main_tool.
  apply emits_bind.
  - apply emits_find_textplus_tool; intros; apply HP; now repeat split.
  - intros tool. repeat emits_step.
Qed.

Lemma emits_main_comp (resolve fusion timeline source_item : pyval) :
  emits (fun e => is_scan e = false /\ leaves_destinations source_item e)
        (main_comp resolve fusion timeline source_item).
Proof.
  assert (Q : forall e, quiet e ->
                is_scan e = false /\ leaves_destinations source_item e)
    by (intros; now apply quiet_leaves).
  assert (C : emits (fun e => is_scan e = false /\
                               leaves_destinations source_item e)
                    (call source_item "GetFusionCompByIndex" [VInt 1])).
  { apply emits_call. intros h ->. repeat split. }
  unfold main_comp.
  apply emits_bind;
    [apply emits_call; intros; apply Q; now repeat split | intros name].
  apply emits_bind; [apply emits_log | intros _].
  apply emits_bind; [exact C | intros comp].
  destruct (negb (truthy comp)); [|now apply emits_main_tool].
  apply emits_bind;
    [apply emits_call; intros; apply Q; now repeat split | intros _].
  apply emits_bind;
    [apply emits_time_sleep; apply Q; now repeat split | intros _].
  apply emits_bind; [exact C | intros comp'].
  apply emits_bind;
    [apply emits_call; intros; apply Q; now repeat split | intros _].
  destruct (negb (truthy comp')); [repeat emits_step|].
  now apply emits_main_tool.
Qed.

Lemma returns_main_comp (resolve fusion timeline item : pyval) :
  returns (fun r => forall v, r = Some v -> item = source_item v)
          (main_comp resolve fusion timeline item).
Proof.
  assert (T : forall comp,
             returns (fun r => forall v, r = Some v ->
                                 item = source_item v)
                     (main_tool resolve fusion timeline item comp)).
  { intros comp. unfold main_tool. apply returns_bind. intros tool.
    destruct (negb (truthy tool)).
    - apply returns_bind. intros _. apply returns_ret. discriminate.
    - apply returns_ret. intros v E. now injection E as <-. }
  unfold main_comp.
  apply returns_bind. intros name. apply returns_bind. intros _.
  apply returns_bind. intros comp.
  destruct (negb (truthy comp)); [|apply T].
  apply returns_bind. intros _. apply returns_bind. intros _.
  apply returns_bind. intros comp'. apply returns_bind. intros _.
  destruct (negb (truthy comp')); [|apply T].
  apply returns_bind. intros _. apply returns_ret. discriminate.
Qed.

(** What [main] has issued when it reaches the settings reader. *)
Lemma main_source_trace (v : locals) (st st' : state H) :
  main_source st = (Ok (Some v), st') ->
  exists evs,
    trace st' = trace st ++ evs /\
    Forall (fun e => is_scan e = false /\
                     leaves_destinations (source_item v) e) evs.
Proof.
  intros E. unfold main_source in E.
  apply (bind_inv quiet) in E as (resolve & st1 & evs1 & _ & T1 & F1 & _ & E);
    [|apply emits_get_resolve; now repeat split].
  destruct (negb (truthy resolve)); [discriminate|].
  apply (bind_inv quiet) in E as (fusion & st2 & evs2 & _ & T2 & F2 & _ & E);
    [|apply emits_call; now repeat split].
  apply (bind_inv quiet) in E as (manager & st3 & evs3 & _ & T3 & F3 & _ & E);
    [|apply emits_call; now repeat split].
  apply (bind_inv quiet) in E as (project & st4 & evs4 & _ & T4 & F4 & _ & E);
    [|apply emits_call; now repeat split].
  apply (bind_inv quiet) in E as (timeline & st5 & evs5 & _ & T5 & F5 & _ & E);
    [|apply emits_call; now repeat split].
  destruct (negb (truthy timeline)).
  { rewrite bind_run in E. discriminate. }
  apply (bind_inv quiet) in E as (item & st6 & evs6 & _ & T6 & F6 & _ & E);
    [|apply emits_call; now repeat split].
  destruct (negb (truthy item)).
  { rewrite bind_run in E. discriminate. }
  pose proof (returns_main_comp _ _ _ _ _ _ _ E v eq_refl) as <-.
  destruct (emits_main_comp _ _ _ _ _ _ _ E) as (evs7 & T7 & F7).
  exists (evs1 ++ evs2 ++ evs3 ++ evs4 ++ evs5 ++ evs6 ++ evs7). split.
  - rewrite T7, T6, T5, T4, T3, T2, T1. now rewrite <- !app_assoc.
  - repeat (apply Forall_app; split);
      try exact F7;
      (eapply Forall_impl; [intros e; apply quiet_leaves | eassumption]).
Qed.

Lemma show_report_window_run (fusion : pyval) (report : string)
    (st : state H) :
  exists st',
    show_report_window fusion report st = (Ok tt, st') /\
    lines st' = lines st /\
    exists evs, trace st' = trace st ++ evs /\ Forall quiet evs.
Proof.
  unfold show_report_window.
  destruct (negb (truthy fusion)).
  { exists st. repeat split. exists []. now rewrite app_nil_r. }
  rewrite bind_run. unfold hasattr.
  destruct fusion as [[| | |h]| |];
    try (exists st; repeat split; exists []; now rewrite app_nil_r).
  destruct (has_attr H h "UIDispatcher" (world st)).
  - eexists. split; [reflexivity|]. split; [reflexivity|].
    eexists [_]. split; [reflexivity|]. now repeat constructor.
  - exists st. repeat split. exists []. now rewrite app_nil_r.
Qed.

Lemma call_silent (recv : pyval) (meth : string) (args : list pyval)
    (st st' : state H) (r : result pyval) :
  call recv meth args st = (r, st') ->
  lines st' = lines st /\ stdout st' = stdout st.
Proof.
  intros E. destruct recv as [[| | |h]| |];
    try (injection E as <- <-; now split).
  rewrite call_run in E. injection E as <- <-. now split.
Qed.

Lemma get_resolve_silent (st st' : state H) (r : result pyval) :
  get_resolve st = (r, st') ->
  lines st' = lines st /\ stdout st' = stdout st.
Proof.
  unfold get_resolve. intros E.
  destruct (importable H (world st)).
  - destruct (scriptapp H _ (world st)). injection E as <- <-. now split.
  - destruct (fusionscript_loaded H (world st)).
    + destruct (scriptapp H _ (world st)). injection E as <- <-. now split.
    + injection E as <- <-. now split.
Qed.

(** C9.  With a connection to the application that knows no current
    project, [main] ends in the AttributeError of calling
    GetCurrentTimeline on None: nothing is logged or printed, and no report
    dialog is shown. *)
Theorem main_without_project (w : World H) (resolve fusion manager : pyval)
    (st1 st2 st3 st4 : state H) :
  get_resolve (init w) = (Ok resolve, st1) ->
  truthy resolve = true ->
  call resolve "Fusion" [] st1 = (Ok fusion, st2) ->
  call resolve "GetProjectManager" [] st2 = (Ok manager, st3) ->
  call manager "GetCurrentProject" [] st3 = (Ok VNone, st4) ->
  main (init w) =
  (Raise (AttributeError "'NoneType' object has no attribute 'GetCurrentTimeline'"),
   st4) /\
  lines st4 = [] /\ stdout st4 = [] /\
  Forall (fun e => is_dialog e = false) (trace st4).
Proof.
  intros HR HT HF HM HP. split; [|split; [|split]].
  - unfold main, main_source.
    rewrite bind_run, (bind_ok _ _ _ _ _ HR), HT. cbn [negb].
    rewrite (bind_ok _ _ _ _ _ HF), (bind_ok _ _ _ _ _ HM).
    rewrite (bind_ok _ _ _ _ _ HP). reflexivity.
  - destruct (call_silent _ _ _ _ _ _ HP) as [-> _].
    destruct (call_silent _ _ _ _ _ _ HM) as [-> _].
    destruct (call_silent _ _ _ _ _ _ HF) as [-> _].
    now destruct (get_resolve_silent _ _ _ HR) as [-> _].
  - destruct (call_silent _ _ _ _ _ _ HP) as [_ ->].
    destruct (call_silent _ _ _ _ _ _ HM) as [_ ->].
    destruct (call_silent _ _ _ _ _ _ HF) as [_ ->].
    now destruct (get_resolve_silent _ _ _ HR) as [_ ->].
  - destruct (emits_get_resolve (fun e => is_dialog e = false)
                (fun _ => eq_refl) _ _ _ HR) as (e1 & T1 & F1).
    destruct (emits_call (fun e => is_dialog e = false) _ _ _
                (fun _ _ => eq_refl) _ _ _ HF) as (e2 & T2 & F2).
    destruct (emits_call (fun e => is_dialog e = false) _ _ _
                (fun _ _ => eq_refl) _ _ _ HM) as (e3 & T3 & F3).
    destruct (emits_call (fun e => is_dialog e = false) _ _ _
                (fun _ _ => eq_refl) _ _ _ HP) as (e4 & T4 & F4).
    rewrite T4, T3, T2, T1. cbn [init trace]. rewrite ?app_nil_l.
    repeat (apply Forall_app; split); assumption.
Qed.

(** C5.  When [main] has reached the settings reader and the reader finds
    no qualifying accessor, [main] logs the fatal error and returns; no call
    of the selection scan and no setter has been issued in the run, and no
    composition was asked of an item other than the source. *)
Theorem main_without_settings (w : World H) (v : locals)
    (st st1 : state H) :
  main_source (init w) = (Ok (Some v), st) ->
  get_tool_settings (source_tool v) st = (Ok (VNone, VNone), st1) ->
  exists st2 : state H,
    main (init w) = (Ok tt, st2) /\
    lines st2 = lines st1 ++ ["[Fatal Error] Could not retrieve settings."] /\
    Forall (fun e => is_scan e = false /\
                     leaves_destinations (source_item v) e) (trace st2).
Proof.
  intros Hs Hp.
  destruct (main_source_trace _ _ _ Hs) as (evs1 & T1 & F1).
  assert (EP : emits (fun e => is_scan e = false /\
                                leaves_destinations (source_item v) e)
                     (get_tool_settings (source_tool v))).
  { apply emits_get_tool_settings. intros h name I. apply quiet_leaves.
    destruct I as [<-|[<-|[<-|[]]]]; now repeat split. }
  destruct (EP _ _ _ Hp) as (evs2 & T2 & F2).
  destruct (show_report_window_run (fusion v)
              (String.concat newline
                 (lines st1 ++ ["[Fatal Error] Could not retrieve settings."]))
              (logged "[Fatal Error] Could not retrieve settings." st1))
    as (st2 & R & L & evs3 & T3 & F3).
  exists st2. split; [|split].
  - unfold main. rewrite (bind_ok _ _ _ _ _ Hs).
    unfold main_settings. rewrite bind_run, (bind_ok _ _ _ _ _ Hp).
    cbn [truthy negb]. unfold logged in R. msimpl. msimpl_in R.
    now rewrite R.
  - exact L.
  - rewrite T3. unfold logged. cbn [log snd trace]. rewrite T2, T1.
    cbn [init trace]. rewrite ?app_nil_l.
    repeat (apply Forall_app; split); try assumption.
    eapply Forall_impl; [intros e; apply quiet_leaves | exact F3].
Qed.

End Runs.

(** A source whose accessors return an empty dict. *)
Lemma main_without_settings_witness :
  exists st2 : state Studio.host,
    main (init (H:=Studio.host) Studio.empty_demo) = (Ok tt, st2) /\
    lines st2 = ["Source: Title"; "[Fatal Error] Could not retrieve settings."] /\
    Forall (fun e => is_scan e = false /\ leaves_destinations (VObj 10) e)
           (trace st2).
Proof.
  destruct (main_without_settings (H:=Studio.host) Studio.empty_demo
              (mkLocals (VObj 0) (VObj 1) (VObj 4) (VObj 10) (VObj 12))
              (snd (main_source (init (H:=Studio.host) Studio.empty_demo)))
              (snd (get_tool_settings (VObj 12)
                      (snd (main_source (init (H:=Studio.host) Studio.empty_demo)))))
              ltac:(vm_compute; reflexivity) ltac:(vm_compute; reflexivity))
    as (st2 & E & L & F).
  exists st2. split; [exact E|]. split; [exact L | exact F].
Defined.

(** An application with no project open. *)
Lemma main_without_project_witness :
  fst (main (init (H:=Studio.host) Studio.closed_demo)) =
  Raise (AttributeError "'NoneType' object has no attribute 'GetCurrentTimeline'") /\
  lines (snd (main (init (H:=Studio.host) Studio.closed_demo))) = [].
Proof.
  destruct (main_without_project (H:=Studio.host) Studio.closed_demo
              (VObj 0) (VObj 1) (VObj 2)
              (snd (get_resolve (init (H:=Studio.host) Studio.closed_demo)))
              _ _ _
              eq_refl eq_refl eq_refl eq_refl eq_refl) as (E & L & _).
  rewrite E. split; [reflexivity | exact L].
Defined.

(** The scenario of the specification, end to end: the tagged clips "A"
    and "B" take the settings of the source under their own tool's name and
    keep their texts, the untagged clip "C" is left alone, and the tally is
    two. *)
Example demo_end_to_end :
  let run := main (init (H:=Studio.host) Studio.demo) in
  let tool_of i :=
    match nth_error (Studio.clips (world (snd run))) i with
    | Some c => Studio.clip_tool c
    | None => None
    end in
  fst run = Ok tt /\
  lines (snd run) =
  ["Source: Title"; "[Success] Settings captured via 'GetSettings'";
   "Targets: 2 clips."; "[OK] A"; "[OK] B";
   "----------------------------------------"; "Done. Updated 2 clips."] /\
  option_map Studio.styled_text (tool_of 1) = Some (VStr "Hello") /\
  option_map Studio.styled_text (tool_of 2) = Some (VStr "World") /\
  option_map Studio.applied (tool_of 1) =
  Some [VDict [(AStr "Tools",
                VDict [(AStr "TextA",
                        VDict [(AStr "Inputs", VDict [(AStr "Size", VInt 2)])])])]] /\
  option_map Studio.applied (tool_of 3) = Some [] /\
  nth 0 (heap (snd run)) VNone = Studio.source_dump.
Proof. vm_compute. repeat split. Qed.

(** * Further properties *)

(** ** The tool locator *)

Lemma prefix_iff (t s : string) :
  String.prefix t s = true <-> exists post, s = (t ++ post)%string.
Proof.
  revert s. induction t as [|c t IH]; intros s; simpl.
  - split; [intros _; exists s; reflexivity | intros _; now destruct s].
  - destruct s as [|c' s]; simpl.
    + split; [discriminate | intros [post E]; discriminate].
    + destruct (Ascii.ascii_dec c c') as [->|N].
      * rewrite IH. split; intros [post E]; exists post; congruence.
      * split; [discriminate|]. intros [post E]. congruence.
Qed.

Lemma contains_iff (t s : string) :
  contains t s = true <-> exists pre post, s = (pre ++ t ++ post)%string.
Proof.
  induction s as [|c s IH]; cbn [contains]; rewrite orb_true_iff, prefix_iff.
  - split.
    + intros [[post E]|F]; [|discriminate]. exists "", post. exact E.
    + intros (pre & post & E). left.
      destruct pre; [exists post; exact E | discriminate].
  - rewrite IH. split.
    + intros [[post E]|(pre & post & E)].
      * exists "", post. exact E.
      * exists (String c pre), post. simpl. now rewrite E.
    + intros (pre & post & E). destruct pre as [|c' pre]; simpl in E.
      * left. exists post. exact E.
      * right. injection E as _ E. exists pre, post. exact E.
Qed.

(** X1.  The name test of line 53 on a string: the name holds "Template"
    or "Text" somewhere inside. *)
Theorem names_text_substring (s : string) :
  names_text (VStr s) = true <->
  exists pre post,
    s = (pre ++ "Template" ++ post)%string \/
    s = (pre ++ "Text" ++ post)%string.
Proof.
  unfold names_text, py_in.
  destruct (contains "Template" s) eqn:T.
  - split; [|reflexivity]. intros _.
    apply contains_iff in T as (pre & post & E). exists pre, post. now left.
  - rewrite contains_iff. split.
    + intros (pre & post & E). exists pre, post. now right.
    + intros (pre & post & [E|E]).
      * assert (X : contains "Template" s = true)
          by (apply contains_iff; eauto).
        congruence.
      * eauto.
Qed.

Section Locator.
Context {H : Host}.

Lemma silent_bind {A B} (m : M H A) (k : A -> M H B) :
  silent m -> (forall a, silent (k a)) -> silent (bind m k).
Proof.
  intros Hm Hk st r st' E. rewrite bind_run in E.
  destruct (m st) as [[a|e] st1] eqn:E1.
  - destruct (Hm _ _ _ E1) as (L1 & O1 & P1).
    destruct (Hk a _ _ _ E) as (L2 & O2 & P2).
    repeat split; congruence.
  - injection E as <- <-. eapply Hm; eauto.
Qed.

Lemma silent_try {A} (m : M H A) (handler : exn -> M H A) :
  silent m -> (forall e, silent (handler e)) -> silent (try_except m handler).
Proof.
  intros Hm Hh st r st' E. unfold try_except in E.
  destruct (m st) as [[a|e] st1] eqn:E1.
  - injection E as <- <-. eapply Hm; eauto.
  - destruct (Hm _ _ _ E1) as (L1 & O1 & P1).
    destruct (Hh e _ _ _ E) as (L2 & O2 & P2).
    repeat split; congruence.
Qed.

Lemma silent_ret {A} (a : A) : silent (ret a : M H A).
Proof. intros st r st' E. injection E as <- <-. auto. Qed.

Lemma silent_raise {A} (e : exn) : silent (raise e : M H A).
Proof. intros st r st' E. injection E as <- <-. auto. Qed.

Lemma silent_lift {A} (r : result A) : silent (lift r : M H A).
Proof. intros st r' st' E. injection E as <- <-. auto. Qed.

Lemma silent_hasattr (v : pyval) (name : string) : silent (hasattr v name).
Proof. intros st r' st' E. injection E as <- <-. auto. Qed.

Lemma silent_time_sleep : silent time_sleep.
Proof. intros st r' st' E. injection E as <- <-. auto. Qed.

Lemma silent_call (recv : pyval) (meth : string) (args : list pyval) :
  silent (call recv meth args).
Proof.
  intros st r st' E. destruct recv as [[| | |h]| |];
    try (injection E as <- <-; auto).
  rewrite call_run in E. injection E as <- <-. auto.
Qed.

Lemma silent_first_text_named (tools : list pyval) :
  silent (first_text_named tools).
Proof.
  induction tools as [|tool rest IH]; simpl; [apply silent_ret|].
  apply silent_bind; [apply silent_call | intros name].
  apply silent_bind; [apply silent_lift | intros a].
  apply silent_bind; [destruct a; [apply silent_ret | apply silent_lift]|].
  intros b. destruct b; [apply silent_ret | exact IH].
Qed.

Lemma silent_find_textplus_tool (fusion_comp : pyval) :
  silent (find_textplus_tool fusion_comp).
Proof.
  unfold find_textplus_tool.
  destruct (negb (truthy fusion_comp)); [apply silent_ret|].
  apply silent_bind; [apply silent_call | intros tools_dict].
  apply silent_bind.
  { destruct (truthy tools_dict); [apply silent_lift | apply silent_ret]. }
  intros by_id. destruct by_id; [|apply silent_ret].
  apply silent_bind; [apply silent_call | intros all_tools].
  destruct (truthy all_tools); [|apply silent_ret].
  apply silent_bind; [apply silent_lift | intros tools].
  apply silent_first_text_named.
Qed.

(** X2.  [find_textplus_tool] only looks: it logs nothing and leaves the
    store alone, and the calls it issues are GetToolList on the composition
    and GetAttrs("TOOLS_Name") on tools.  For a composition that is absent
    it returns None without any call. *)
Theorem find_textplus_tool_only_looks (fusion_comp : pyval)
    (st st' : state H) (r : result pyval) :
  find_textplus_tool fusion_comp st = (r, st') ->
  lines st' = lines st /\ stdout st' = stdout st /\ heap st' = heap st /\
  (exists evs,
     trace st' = trace st ++ evs /\
     Forall (fun e =>
               (exists h args,
                  e = ECall h "GetToolList" args /\ fusion_comp = VObj h) \/
               (exists h, e = ECall h "GetAttrs" [VStr "TOOLS_Name"]))
            evs) /\
  (truthy fusion_comp = false -> r = Ok VNone /\ st' = st).
Proof.
  assert (EM : emits (fun e =>
               (exists h args,
                  e = ECall h "GetToolList" args /\ fusion_comp = VObj h) \/
               (exists h, e = ECall h "GetAttrs" [VStr "TOOLS_Name"]))
              (find_textplus_tool fusion_comp)).
  { unfold find_textplus_tool.
    destruct (negb (truthy fusion_comp)); [apply emits_ret|].
    apply emits_bind; [apply emits_call; intros h ->; left; eauto|].
    intros tools_dict.
    apply emits_bind;
      [destruct (truthy tools_dict); [apply emits_lift | apply emits_ret]|].
    intros by_id. destruct by_id; [|apply emits_ret].
    apply emits_bind; [apply emits_call; intros h ->; left; eauto|].
    intros all_tools. destruct (truthy all_tools); [|apply emits_ret].
    apply emits_bind; [apply emits_lift | intros tools].
    induction tools as [|tool rest IH]; simpl; [apply emits_ret|].
    apply emits_bind; [apply emits_call; intros h _; right; eauto|].
    intros name. repeat emits_step. exact IH. }
  intros E.
  destruct (silent_find_textplus_tool _ _ _ _ E) as (L & O & P).
  split; [exact L|]. split; [exact O|]. split; [exact P|].
  split; [exact (EM _ _ _ E)|].
  intros F. unfold find_textplus_tool in E. rewrite F in E.
  now injection E as <- <-.
Qed.

Lemma first_text_named_find (w : World H) (tools : list pyval)
    (st st' : state H) (r : pyval) :
  lookup_reads_only w ->
  world st = w ->
  first_text_named tools st = (Ok r, st') ->
  r = match find (tool_named_text w) tools with
      | Some tool => tool
      | None => VNone
      end /\
  world st' = w.
Proof.
  intros R. revert st. induction tools as [|tool rest IH]; intros st W E.
  - injection E as <- <-. auto.
  - simpl in E. destruct tool as [[| | |h]| |]; try discriminate E.
    rewrite bind_run, call_run in E. rewrite W in E.
    assert (W1 : snd (invoke H h "GetAttrs" [VStr "TOOLS_Name"] w) = w)
      by (apply R; simpl; auto).
    rewrite W1 in E. simpl find. unfold tool_named_text at 1.
    destruct (fst (invoke H h "GetAttrs" [VStr "TOOLS_Name"] w))
      as [name|e]; [|discriminate].
    rewrite bind_run in E. unfold lift at 1 in E. unfold names_text.
    destruct (py_in (VStr "Template") name) as [[|]|e]; try discriminate E.
    + rewrite bind_run in E. unfold ret at 1 in E.
      injection E as <- <-. auto.
    + rewrite bind_run in E. unfold lift at 1 in E.
      destruct (py_in (VStr "Text") name) as [[|]|e]; try discriminate E.
      * injection E as <- <-. auto.
      * exact (IH (emit (ECall h "GetAttrs" [VStr "TOOLS_Name"]) w st)
                  eq_refl E).
Qed.

(** X3.  Where GetToolList and GetAttrs only read, what
    [find_textplus_tool] returns is the first tool the composition lists
    as TextPlus, whatever its name; with none listed, the first of all
    tools whose name holds "Template" or "Text"; and None otherwise. *)
Theorem find_textplus_tool_locates (fusion_comp r : pyval)
    (st st' : state H) :
  lookup_reads_only (world st) ->
  find_textplus_tool fusion_comp st = (Ok r, st') ->
  r = located (world st) fusion_comp /\ world st' = world st.
Proof.
  intros R E. unfold find_textplus_tool in E. unfold located.
  destruct (negb (truthy fusion_comp)); [now injection E as <- <-|].
  destruct fusion_comp as [[| | |h]| |]; try discriminate E.
  rewrite bind_run, call_run in E.
  assert (W1 : forall args,
             snd (invoke H h "GetToolList" args (world st)) = world st)
    by (intros; apply R; simpl; auto).
  rewrite W1 in E. unfold listed_tools at 1.
  destruct (fst (invoke H h "GetToolList" [VFalse; VStr "TextPlus"] (world st)))
    as [tools_dict|e]; [|discriminate].
  rewrite bind_run in E.
  destruct (truthy tools_dict).
  - unfold lift at 1 in E.
    destruct (py_values tools_dict) as [[|tool l]|e]; try discriminate E.
    + rewrite bind_run, call_run in E. cbn [world emit] in E.
      rewrite W1 in E. unfold listed_tools.
      destruct (fst (invoke H h "GetToolList" [VFalse] (world st)))
        as [all_tools|e]; [|discriminate].
      destruct (truthy all_tools); [|now injection E as <- <-].
      rewrite bind_run in E. unfold lift at 1 in E.
      destruct (py_values all_tools) as [tools|e]; [|discriminate].
      refine (first_text_named_find (world st) _ _ _ _ R _ E); reflexivity.
    + now injection E as <- <-.
  - unfold ret at 1 in E. rewrite bind_run, call_run in E.
    cbn [world emit] in E. rewrite W1 in E. unfold listed_tools.
    destruct (fst (invoke H h "GetToolList" [VFalse] (world st)))
      as [all_tools|e]; [|discriminate].
    destruct (truthy all_tools); [|now injection E as <- <-].
    rewrite bind_run in E. unfold lift at 1 in E.
    destruct (py_values all_tools) as [tools|e]; [|discriminate].
    refine (first_text_named_find (world st) _ _ _ _ R _ E); reflexivity.
Qed.

End Locator.

(** The small host answers the lookups without changing. *)
Lemma studio_lookup_reads_only (w : Studio.studio) :
  lookup_reads_only (H:=Studio.host) w.
Proof.
  intros h meth args I. cbn [invoke Studio.host].
  unfold Studio.do_invoke, Studio.invoke_app, Studio.invoke_timeline,
    Studio.invoke_clip, Studio.invoke_comp, Studio.invoke_tool,
    Studio.host_error.
  destruct I as [<-|[<-|[]]]; cbn [String.eqb Ascii.eqb Bool.eqb andb orb negb];
    repeat match goal with
           | |- snd (if ?b then _ else _) = _ => destruct b
           | |- snd (match ?x with _ => _ end) = _ => destruct x
           end; reflexivity.
Qed.

(** The composition of clip "A" lists its tool as TextPlus: one call. *)
Lemma find_textplus_tool_only_looks_witness :
  exists evs,
    trace (snd (find_textplus_tool (VObj 14) (init (H:=Studio.host) Studio.demo))) =
    [] ++ evs /\
    Forall (fun e =>
              (exists h args,
                 e = ECall h "GetToolList" args /\ VObj 14 = VObj h) \/
              (exists h, e = ECall h "GetAttrs" [VStr "TOOLS_Name"])) evs.
Proof.
  exact (proj1 (proj2 (proj2 (proj2
           (find_textplus_tool_only_looks (H:=Studio.host) (VObj 14)
              (init (H:=Studio.host) Studio.demo) _ _ eq_refl))))).
Defined.

(** A composition without a TextPlus tool: the tool called "Template" is
    found by its name; and the composition of a clip whose only tool is
    called "Merge1" yields None. *)
Lemma find_textplus_tool_locates_witness :
  VObj 12 = located (H:=Studio.host) Studio.template_demo (VObj 11) /\
  VNone = located (H:=Studio.host) Studio.template_demo (VObj 14).
Proof.
  split.
  - exact (proj1 (find_textplus_tool_locates (H:=Studio.host) (VObj 11) (VObj 12)
                    (init (H:=Studio.host) Studio.template_demo) _
                    (studio_lookup_reads_only Studio.template_demo) eq_refl)).
  - exact (proj1 (find_textplus_tool_locates (H:=Studio.host) (VObj 14) VNone
                    (init (H:=Studio.host) Studio.template_demo) _
                    (studio_lookup_reads_only Studio.template_demo) eq_refl)).
Defined.

(** ** The settings reader, once more *)

Section ReaderOutcome.
Context {H : Host}.

Lemma probe_outcome (tool : pyval) (candidates : list (string * bool))
    (st : state H) :
  exists (settings name : pyval) (st' : state H) (called later : list string),
    probe tool candidates st = (Ok (settings, name), st') /\
    lines st' = lines st /\ stdout st' = stdout st /\ heap st' = heap st /\
    map fst (filter snd candidates) = called ++ later /\
    trace st' = trace st ++ calls_of tool called /\
    ((settings = VNone /\ name = VNone /\ later = []) \/
     (exists n pre,
        qualifies settings = true /\ name = VStr n /\ called = pre ++ [n])).
Proof.
  revert st. induction candidates as [|[n method] rest IH]; intros st.
  - exists VNone, VNone, st, [], []. simpl.
    destruct tool as [[| | |h]| |]; simpl; rewrite app_nil_r;
      repeat split; auto.
  - simpl probe. destruct method; [|exact (IH st)].
    assert (Next : forall st1,
               lines st1 = lines st -> stdout st1 = stdout st ->
               heap st1 = heap st ->
               trace st1 = trace st ++ calls_of tool [n] ->
               exists settings name st' called later,
                 probe tool rest st1 = (Ok (settings, name), st') /\
                 lines st' = lines st /\ stdout st' = stdout st /\
                 heap st' = heap st /\
                 map fst (filter snd ((n, true) :: rest)) = called ++ later /\
                 trace st' = trace st ++ calls_of tool called /\
                 ((settings = VNone /\ name = VNone /\ later = []) \/
                  (exists n0 pre,
                     qualifies settings = true /\ name = VStr n0 /\
                     called = pre ++ [n0]))).
    { intros st1 L1 O1 P1 T1.
      destruct (IH st1)
        as (s & nm & st' & called & later & E & L & O & P & Fl & T & C).
      exists s, nm, st', (n :: called), later. split; [exact E|].
      split; [congruence|]. split; [congruence|]. split; [congruence|].
      split; [simpl; now rewrite Fl|]. split.
      { rewrite T, T1. rewrite <- app_assoc. f_equal.
        destruct tool as [[| | |h]| |]; reflexivity. }
      destruct C as [C|(n0 & pre & Q & En & Ec)]; [now left|right].
      exists n0, (n :: pre). rewrite Ec. auto. }
    destruct tool as [[| | |h]| |];
      try (cbv beta iota delta [bind try_except call raise ret];
           apply (Next st);
           [reflexivity | reflexivity | reflexivity | now rewrite app_nil_r]).
    rewrite bind_run. unfold try_except. rewrite bind_run.
    rewrite call_run.
    set (w' := snd (invoke H h n [] (world st))).
    destruct (fst (invoke H h n [] (world st))) as [v|e].
    + unfold ret at 1. destruct (qualifies v) eqn:Q.
      * exists v, (VStr n), (emit (ECall h n []) w' st), [n],
          (map fst (filter snd rest)).
        unfold ret. repeat split; auto.
        right. exists n, []. auto.
      * apply (Next (emit (ECall h n []) w' st)); reflexivity.
    + unfold ret at 1.
      apply (Next (emit (ECall h n []) w' st)); reflexivity.
Qed.

(** X4.  [get_tool_settings] always returns, without logging and without
    touching the store, whatever the accessors do.  The accessors that the
    tool has are called in their priority order, one call each with no
    argument, up to the first whose result is acceptable: the calls issued
    are those of an initial part of the available accessors.  The result is
    either (None, None), after every available accessor was called, or an
    acceptable dict together with the name of the accessor called last; so
    the settings are falsy exactly when the reader failed. *)
Theorem get_tool_settings_outcome (tool : pyval) (st : state H) :
  exists (settings name : pyval) (st' : state H)
         (called later : list string),
    get_tool_settings tool st = (Ok (settings, name), st') /\
    lines st' = lines st /\ stdout st' = stdout st /\ heap st' = heap st /\
    filter (available tool st) accessors = called ++ later /\
    NoDup called /\
    trace st' = trace st ++ calls_of tool called /\
    ((settings = VNone /\ name = VNone /\ later = [] /\
      truthy settings = false) \/
     (exists n pre,
        acceptable settings /\ name = VStr n /\ called = pre ++ [n] /\
        truthy settings = true)).
Proof.
  unfold get_tool_settings. msimpl. fold (available tool st).
  destruct (probe_outcome tool
              [("GetSettings", available tool st "GetSettings");
               ("SaveSettings", available tool st "SaveSettings");
               ("GetCurrentSettings", available tool st "GetCurrentSettings")]
              st)
    as (s & nm & st' & called & later & E & L & O & P & Fl & T & C).
  assert (Fl' : filter (available tool st) accessors = called ++ later).
  { rewrite <- Fl. unfold accessors. simpl.
    destruct (available tool st "GetSettings"),
             (available tool st "SaveSettings"),
             (available tool st "GetCurrentSettings"); reflexivity. }
  exists s, nm, st', called, later. split; [exact E|].
  repeat (split; [assumption|]). split.
  { assert (N : NoDup (called ++ later)).
    { rewrite <- Fl'. apply NoDup_filter. unfold accessors.
      repeat constructor; simpl; intuition discriminate. }
    now apply NoDup_app_remove_r in N. }
  split; [exact T|].
  destruct C as [(-> & -> & ->)|(n & pre & Q & -> & Ec)].
  - left. auto.
  - right. exists n, pre. split; [now apply qualifies_acceptable|].
    repeat split; auto.
    destruct s as [a|l|[|kv d]]; try discriminate Q; reflexivity.
Qed.

End ReaderOutcome.

(** ** What a step leaves behind *)

Section Growth.
Context {H : Host}.

Lemma extends_refl (st : state H) : extends st st.
Proof.
  repeat split; [exists [] | exists [] | exists []];
    rewrite ?app_nil_r; auto.
Qed.

Lemma extends_trans (st1 st2 st3 : state H) :
  extends st1 st2 -> extends st2 st3 -> extends st1 st3.
Proof.
  intros ((l1 & L1 & O1) & (o1 & P1) & (e1 & T1))
         ((l2 & L2 & O2) & (o2 & P2) & (e2 & T2)).
  repeat split.
  - exists (l1 ++ l2). rewrite L2, L1, O2, O1. now rewrite !app_assoc.
  - exists (o1 ++ o2). rewrite P2, P1. now rewrite app_assoc.
  - exists (e1 ++ e2). rewrite T2, T1. now rewrite app_assoc.
Qed.

Lemma extends_emit (e : event) (w : World H) (st : state H) :
  extends st (emit e w st).
Proof.
  repeat split; [exists [] | exists [] | exists [e]];
    rewrite ?app_nil_r; auto.
Qed.

Lemma grows_same {A} (m : M H A) :
  (forall st, snd (m st) = st) -> grows m.
Proof.
  intros S st r st' E. specialize (S st). rewrite E in S. simpl in S.
  subst. apply extends_refl.
Qed.

Lemma grows_ret {A} (a : A) : grows (ret a : M H A).
Proof. now apply grows_same. Qed.

Lemma grows_raise {A} (e : exn) : grows (raise e : M H A).
Proof. now apply grows_same. Qed.

Lemma grows_lift {A} (r : result A) : grows (lift r : M H A).
Proof. now apply grows_same. Qed.

Lemma grows_hasattr (v : pyval) (name : string) : grows (hasattr v name).
Proof. now apply grows_same. Qed.

Lemma grows_get_full_report : grows (get_full_report (H:=H)).
Proof. now apply grows_same. Qed.

Lemma grows_log (message : string) : grows (log message).
Proof.
  intros st r st' E. injection E as <- <-.
  repeat split; [exists [message] | exists [] | exists []];
    rewrite ?app_nil_r; auto.
Qed.

Lemma grows_new_object (v : pyval) : grows (new_object v).
Proof.
  intros st r st' E. injection E as <- <-.
  repeat split; [exists [] | exists [v] | exists []];
    rewrite ?app_nil_r; auto.
Qed.

Lemma grows_time_sleep : grows time_sleep.
Proof. intros st r st' E. injection E as <- <-. apply extends_emit. Qed.

Lemma grows_call (recv : pyval) (meth : string) (args : list pyval) :
  grows (call recv meth args).
Proof.
  intros st r st' E. destruct recv as [[| | |h]| |];
    try (injection E as <- <-; apply extends_refl).
  rewrite call_run in E. injection E as <- <-. apply extends_emit.
Qed.

Lemma grows_bind {A B} (m : M H A) (k : A -> M H B) :
  grows m -> (forall a, grows (k a)) -> grows (bind m k).
Proof.
  intros Hm Hk st r st' E. rewrite bind_run in E.
  destruct (m st) as [[a|e] st1] eqn:E1.
  - eapply extends_trans; [eapply Hm | eapply Hk]; eauto.
  - injection E as <- <-. eapply Hm; eauto.
Qed.

Lemma grows_try {A} (m : M H A) (handler : exn -> M H A) :
  grows m -> (forall e, grows (handler e)) -> grows (try_except m handler).
Proof.
  intros Hm Hh st r st' E. unfold try_except in E.
  destruct (m st) as [[a|e] st1] eqn:E1.
  - injection E as <- <-. eapply Hm; eauto.
  - eapply extends_trans; [eapply Hm | eapply Hh]; eauto.
Qed.

Lemma grows_get_resolve : grows (get_resolve (H:=H)).
Proof.
  intros st r st' E. unfold get_resolve in E.
  destruct (importable H (world st)).
  - destruct (scriptapp H _ (world st)). injection E as <- <-.
    apply extends_emit.
  - destruct (fusionscript_loaded H (world st)).
    + destruct (scriptapp H _ (world st)). injection E as <- <-.
      apply extends_emit.
    + injection E as <- <-. apply extends_refl.
Qed.

Lemma grows_show_report_window (fusion : pyval) (report : string) :
  grows (show_report_window fusion report).
Proof.
  unfold show_report_window.
  destruct (negb (truthy fusion)); [apply grows_ret|].
  apply grows_bind; [apply grows_hasattr | intros has_ui].
  destruct fusion as [[| | |h]| |]; try apply grows_ret.
  destruct has_ui; [|apply grows_ret].
  intros st r st' E. injection E as <- <-. apply extends_emit.
Qed.

(** Writing the tools of the last object, whatever comes of it. *)
Lemma update_tools_keeps_rest (f : dict -> result dict) (v : pyval)
    (w : World H) (hp : list pyval) (ls out : list string) (tr : list event) :
  exists (r : result unit) (v' : pyval),
    update_tools (List.length hp) f (mkState w (hp ++ [v]) ls out tr) =
    (r, mkState w (hp ++ [v']) ls out tr).
Proof.
  unfold update_tools. msimpl. rewrite nth_last.
  destruct (py_getitem v (AStr "Tools")) as [tools_obj|e];
    [|exists (Raise e), v; reflexivity].
  destruct v as [a|l|d]; try (eexists; exists (VAtom a); reflexivity);
    try (eexists; exists (VList l); reflexivity).
  destruct tools_obj as [a|l|tools];
    try (eexists; exists (VDict d); reflexivity).
  destruct (f tools) as [tools'|e]; [|exists (Raise e), (VDict d); reflexivity].
  msimpl. rewrite list_set_last. eexists. eexists. reflexivity.
Qed.

Lemma prepatch_keeps_rest (tgt_name v : pyval)
    (w : World H) (hp : list pyval) (ls out : list string) (tr : list event) :
  exists (r : result unit) (v' : pyval),
    prepatch (List.length hp) tgt_name (mkState w (hp ++ [v]) ls out tr) =
    (r, mkState w (hp ++ [v']) ls out tr).
Proof.
  unfold prepatch. msimpl. rewrite nth_last.
  destruct (py_in (VStr "Tools") v) as [[|]|e];
    try (eexists; exists v; reflexivity).
  destruct (py_getitem v (AStr "Tools")) as [tools_obj|e];
    [|eexists; exists v; reflexivity].
  destruct (py_items tools_obj) as [tools|e];
    [|eexists; exists v; reflexivity].
  destruct (find has_inputs tools) as [[key val]|];
    [|eexists; exists v; reflexivity].
  destruct (negb (py_eq (VAtom key) tgt_name));
    [|eexists; exists v; reflexivity].
  destruct (update_tools_keeps_rest (fun t => py_setitem t tgt_name val)
              v w hp ls out tr) as ([[]|e] & v1 & E1); rewrite E1.
  - apply update_tools_keeps_rest.
  - eexists. exists v1. reflexivity.
Qed.

Lemma patch_step_effect (src : nat) (tgt_name : pyval)
    (st st' : state H) (r : result pyval) :
  patch_step src tgt_name st = (r, st') ->
  (exists copy, heap st' = heap st ++ [copy]) /\
  world st' = world st /\ trace st' = trace st /\
  lines st' = lines st /\ stdout st' = stdout st.
Proof.
  intros E. destruct st as [w hp ls out tr].
  unfold patch_step, deepcopy in E. msimpl_in E.
  destruct (prepatch_keeps_rest tgt_name (nth src hp VNone) w hp ls out tr)
    as ([[]|e] & v' & E1); rewrite E1 in E; injection E as <- <-;
    cbn [heap world trace lines stdout];
    (split; [exists v'; reflexivity | auto]).
Qed.

(** X5.  The patch step works on a copy whatever the snapshot holds and
    whether it returns or raises: it allocates one object and leaves every
    object that was there as it is; it issues no call and logs nothing. *)
Theorem patch_step_allocates_one (src : nat) (tgt_name : pyval)
    (st st' : state H) (r : result pyval) :
  patch_step src tgt_name st = (r, st') ->
  (exists copy, heap st' = heap st ++ [copy]) /\
  (forall l, l < List.length (heap st) ->
             nth l (heap st') VNone = nth l (heap st) VNone) /\
  world st' = world st /\ trace st' = trace st /\
  lines st' = lines st /\ stdout st' = stdout st.
Proof.
  intros E.
  destruct (patch_step_effect _ _ _ _ _ E) as ((copy & P) & W & T & L & O).
  split; [exists copy; exact P|].
  split; [intros l Ll; rewrite P; now apply app_nth1 | auto].
Qed.

Lemma grows_patch_step (src : nat) (tgt_name : pyval) :
  grows (patch_step src tgt_name).
Proof.
  intros st r st' E.
  destruct (patch_step_effect src tgt_name st st' r E)
    as ((copy & P) & _ & T & L & O).
  repeat split; [exists [] | exists [copy] | exists []];
    rewrite ?app_nil_r; auto.
Qed.

(** X6.  A snapshot that has no "Tools" key (the flat shape), or whose
    "Tools" mapping has no entry with an "Inputs" key, is handed to the
    setter as it is: the copy equals the snapshot. *)
Theorem patch_step_leaves_flat (st : state H) (src : nat) (d : dict)
    (tgt_name : pyval) :
  nth src (heap st) VNone = VDict d ->
  dict_get (AStr "Tools") d = None \/
  (exists tools, dict_get (AStr "Tools") d = Some (VDict tools) /\
                 find has_inputs tools = None) ->
  exists st' : state H,
    patch_step src tgt_name st = (Ok (VDict d), st') /\
    heap st' = heap st ++ [VDict d].
Proof.
  intros Hsrc Shape. destruct st as [w hp ls out tr]. cbn [heap] in *.
  eexists. split.
  - unfold patch_step, prepatch. msimpl.
    rewrite Hsrc, nth_last. unfold py_in, dict_mem.
    destruct Shape as [N|(tools & T & F)].
    + rewrite N. msimpl. rewrite nth_last. reflexivity.
    + rewrite T. unfold py_getitem. rewrite T. unfold py_items. rewrite F.
      msimpl. rewrite nth_last. reflexivity.
  - reflexivity.
Qed.

(** X7.  A snapshot whose "Tools" entry is None, a number, a string or a
    list makes the operation on a destination raise the AttributeError of
    [.items()] after the name and the text were read: no setter is called,
    nothing is logged by the function. *)
Theorem apply_raises_on_odd_tools (h : handle) (src : nat)
    (source_method tgt_name text v : pyval) (d : dict)
    (st st1 st2 : state H) :
  call (VObj h) "GetAttrs" [VStr "TOOLS_Name"] st = (Ok tgt_name, st1) ->
  call (VObj h) "GetInput" [VStr "StyledText"] st1 = (Ok text, st2) ->
  nth src (heap st) VNone = VDict d ->
  dict_get (AStr "Tools") d = Some v ->
  (forall tools, v <> VDict tools) ->
  (forall object, v <> VObj object) ->
  exists st' : state H,
    apply_style_and_restore_text (VObj h) src source_method st =
    (Raise (no_attribute v "items"), st') /\
    trace st' = trace st2 /\ world st' = world st2 /\
    lines st' = lines st /\
    nth src (heap st') VNone = VDict d.
Proof.
  intros HA HI Hsrc Hv Odd _.
  destruct (silent_call _ _ _ _ _ _ HA) as (L1 & _ & P1).
  destruct (silent_call _ _ _ _ _ _ HI) as (L2 & _ & P2).
  assert (Hsrc2 : nth src (heap st2) VNone = VDict d) by congruence.
  assert (Lsrc : src < List.length (heap st2)).
  { eapply nth_valid_location; [exact Hsrc2 | discriminate]. }
  assert (E : patch_step src tgt_name st2 =
              (Raise (no_attribute v "items"),
               mkState (world st2) (heap st2 ++ [VDict d]) (lines st2)
                       (stdout st2) (trace st2))).
  { destruct st2 as [w hp ls out tr]. cbn [heap world lines stdout trace] in *.
    unfold patch_step, prepatch. msimpl.
    rewrite Hsrc2, nth_last. unfold py_in. rewrite (dict_get_mem _ _ _ Hv).
    unfold py_getitem. rewrite Hv.
    destruct v as [a|l|tools]; try reflexivity. now destruct (Odd tools). }
  eexists. split.
  - unfold apply_style_and_restore_text.
    rewrite (bind_ok _ _ _ _ _ HA), (bind_ok _ _ _ _ _ HI).
    now rewrite (bind_raise _ _ _ _ _ E).
  - cbn [trace world lines heap]. repeat split; try congruence.
    now rewrite app_nth1.
Qed.

End Growth.

(** A copy is made even of a snapshot that cannot be patched. *)
Lemma patch_step_allocates_one_witness :
  exists copy,
    heap (snd (patch_step 0 (VStr "TextA")
                 (mkState (H:=Studio.host) Studio.demo
                          [VDict [(AStr "Tools", VList [])]] [] [] []))) =
    [VDict [(AStr "Tools", VList [])]] ++ [copy].
Proof.
  exact (proj1 (patch_step_allocates_one (H:=Studio.host) 0 (VStr "TextA")
                  (mkState (H:=Studio.host) Studio.demo
                           [VDict [(AStr "Tools", VList [])]] [] [] [])
                  _ _ eq_refl)).
Defined.

(** A flat snapshot, and a nested one without a node. *)
Lemma patch_step_leaves_flat_witness :
  (exists st',
     patch_step 0 (VStr "TextA")
       (mkState (H:=Studio.host) Studio.demo
                [VDict [(AStr "Size", VInt 2)]] [] [] []) =
     (Ok (VDict [(AStr "Size", VInt 2)]), st')) /\
  (exists st',
     patch_step 0 (VStr "TextA")
       (mkState (H:=Studio.host) Studio.demo
                [VDict [(AStr "Tools", VDict [(AStr "Note", VStr "x")])]]
                [] [] []) =
     (Ok (VDict [(AStr "Tools", VDict [(AStr "Note", VStr "x")])]), st')).
Proof.
  split.
  - destruct (patch_step_leaves_flat (H:=Studio.host)
                (mkState (H:=Studio.host) Studio.demo
                         [VDict [(AStr "Size", VInt 2)]] [] [] [])
                0 _ (VStr "TextA") eq_refl (or_introl eq_refl))
      as (st' & E & _).
    exists st'. exact E.
  - destruct (patch_step_leaves_flat (H:=Studio.host)
                (mkState (H:=Studio.host) Studio.demo
                         [VDict [(AStr "Tools", VDict [(AStr "Note", VStr "x")])]]
                         [] [] [])
                0 _ (VStr "TextA") eq_refl
                (or_intror (ex_intro _ [(AStr "Note", VStr "x")]
                              (conj eq_refl eq_refl))))
      as (st' & E & _).
    exists st'. exact E.
Defined.

(** A snapshot whose "Tools" is a list. *)
Lemma apply_raises_on_odd_tools_witness :
  exists st' : state Studio.host,
    apply_style_and_restore_text (VObj 15) 0 (VStr "GetSettings")
      (mkState (H:=Studio.host) Studio.demo
               [VDict [(AStr "Tools", VList [])]] [] [] []) =
    (Raise (AttributeError "'list' object has no attribute 'items'"), st') /\
    filter is_setter (trace st') = [].
Proof.
  destruct (apply_raises_on_odd_tools (H:=Studio.host) 15 0
              (VStr "GetSettings") (VStr "TextA") (VStr "Hello") (VList [])
              [(AStr "Tools", VList [])]
              (mkState (H:=Studio.host) Studio.demo
                       [VDict [(AStr "Tools", VList [])]] [] [] [])
              _ _ eq_refl eq_refl eq_refl eq_refl
              ltac:(discriminate) ltac:(discriminate))
    as (st' & E & T & _).
  exists st'. split; [exact E|]. rewrite T. reflexivity.
Defined.

(** ** One destination *)

Section Destination.
Context {H : Host}.

(** X8.  Whatever happens, the calls that
    [apply_style_and_restore_text] issues are the first few of: GetAttrs,
    GetInput, one settings setter, SetInput("StyledText", ..), all on the
    destination tool.  So at most one setter is tried, and the text is
    written only after a setter was called. *)
Theorem apply_calls_in_order (tool : pyval) (src : nat)
    (source_method : pyval) (st st' : state H) (r : result bool) :
  apply_style_and_restore_text tool src source_method st = (r, st') ->
  exists evs,
    trace st' = trace st ++ evs /\
    (evs = [] \/
     exists (h : handle) (setter : string) (patched text : pyval)
            (rest : list event),
       tool = VObj h /\
       In setter ["SetSettings"; "LoadSettings"] /\
       evs ++ rest =
       [ECall h "GetAttrs" [VStr "TOOLS_Name"];
        ECall h "GetInput" [VStr "StyledText"];
        ECall h setter [patched];
        ECall h "SetInput" [VStr "StyledText"; backup_of text]]).
Proof.
  intros E. unfold apply_style_and_restore_text in E.
  rewrite bind_run in E.
  destruct tool as [[| | |h]| |];
    try (injection E as <- <-; exists []; rewrite app_nil_r; auto).
  rewrite call_run in E.
  assert (Shape : forall evs setter patched text rest,
             evs ++ rest =
             [ECall h "GetAttrs" [VStr "TOOLS_Name"];
              ECall h "GetInput" [VStr "StyledText"];
              ECall h setter [patched];
              ECall h "SetInput" [VStr "StyledText"; backup_of text]] ->
             In setter ["SetSettings"; "LoadSettings"] ->
             evs = [] \/
             exists (h0 : handle) (setter : string) (patched text : pyval)
                    (rest : list event),
               VObj h = VObj h0 /\
               In setter ["SetSettings"; "LoadSettings"] /\
               evs ++ rest =
               [ECall h0 "GetAttrs" [VStr "TOOLS_Name"];
                ECall h0 "GetInput" [VStr "StyledText"];
                ECall h0 setter [patched];
                ECall h0 "SetInput" [VStr "StyledText"; backup_of text]]).
  { intros evs setter patched text rest Ev I. right.
    exists h, setter, patched, text, rest. auto. }
  unfold emit in E. cbn [world trace heap lines stdout] in E.
  destruct (invoke H h "GetAttrs" _ (world st)) as [[tgt_name|e] w1];
    cbn [fst snd] in E.
  2:{ injection E as <- <-. eexists [_]. split; [reflexivity|].
      eapply (Shape _ "SetSettings" VNone VNone); [reflexivity | simpl; auto]. }
  rewrite bind_run, call_run in E.
  unfold emit in E. cbn [world trace heap lines stdout] in E.
  destruct (invoke H h "GetInput" _ w1) as [[text|e] w2];
    cbn [fst snd] in E.
  2:{ injection E as <- <-. eexists [_; _]. split.
      - cbn [trace]. now rewrite <- app_assoc.
      - eapply (Shape _ "SetSettings" VNone VNone); [reflexivity | simpl; auto]. }
  cbv zeta in E. rewrite bind_run in E.
  destruct (patch_step src tgt_name _) as [[patched|e] st3] eqn:HP.
  2:{ injection E as <- <-.
      destruct (patch_step_effect _ _ _ _ _ HP) as (_ & _ & T3 & _).
      eexists [_; _]. split.
      - rewrite T3. cbn [trace]. now rewrite <- app_assoc.
      - eapply (Shape _ "SetSettings" VNone VNone); [reflexivity | simpl; auto]. }
  destruct (patch_step_effect _ _ _ _ _ HP) as (_ & W3 & T3 & _).
  cbn [world trace] in W3, T3.
  rewrite bind_run, apply_step_run in E. rewrite W3 in E.
  destruct (preferred_setter _ _ _) as [setter|] eqn:P.
  2:{ injection E as <- <-. eexists [_; _]. split.
      - rewrite T3. now rewrite <- app_assoc.
      - eapply (Shape _ "SetSettings" VNone VNone); [reflexivity | simpl; auto]. }
  assert (S : In setter ["SetSettings"; "LoadSettings"]).
  { destruct (py_eq source_method (VStr "SaveSettings")),
             (has_attr H h "LoadSettings" w2),
             (has_attr H h "SetSettings" w2);
      simpl in P; inversion P; simpl; auto. }
  destruct (invoke H h setter [patched] w2) as [[v|e] w3].
  2:{ injection E as <- <-. eexists [_; _; _]. split.
      - unfold logged, emit. cbn [log snd trace]. rewrite T3.
        now rewrite <- !app_assoc.
      - eapply (Shape _ setter patched VNone); [reflexivity | exact S]. }
  rewrite restore_step_run in E. fold (backup_of text) in E.
  eexists [_; _; _; _].
  split.
  - destruct (invoke H h "SetInput" _ _) as [[v'|e] w4];
      injection E as <- <-; unfold logged, emit; cbn [log snd trace];
      rewrite T3; now rewrite <- !app_assoc.
  - eapply (Shape _ setter patched text []); [now rewrite app_nil_r | exact S].
Qed.

(** X9.  When the setter has returned and the write of the text raises,
    the function returns False with the exception logged; the settings stay
    applied (the world is the one the failed write left, and the setter
    call is in the trace). *)
Theorem restore_failure_is_reported (h : handle) (src : nat)
    (source_method tgt_name text patched v : pyval) (setter : string)
    (e : exn) (w w' : World H) (st st1 st2 st3 : state H) :
  call (VObj h) "GetAttrs" [VStr "TOOLS_Name"] st = (Ok tgt_name, st1) ->
  call (VObj h) "GetInput" [VStr "StyledText"] st1 = (Ok text, st2) ->
  patch_step src tgt_name st2 = (Ok patched, st3) ->
  preferred_setter (py_eq source_method (VStr "SaveSettings"))
                   (has_attr H h "LoadSettings" (world st3))
                   (has_attr H h "SetSettings" (world st3)) = Some setter ->
  invoke H h setter [patched] (world st3) = (Ok v, w) ->
  invoke H h "SetInput" [VStr "StyledText"; backup_of text] w = (Raise e, w') ->
  exists st' : state H,
    apply_style_and_restore_text (VObj h) src source_method st =
    (Ok false, st') /\
    world st' = w' /\
    lines st' = lines st3 ++
    [("  [Error] Failed to restore text: " ++ exn_str e)%string] /\
    trace st' =
    trace st3 ++ [ECall h setter [patched];
                  ECall h "SetInput" [VStr "StyledText"; backup_of text]].
Proof.
  intros HA HI HP P HS HR. eexists. split.
  - unfold apply_style_and_restore_text.
    rewrite (bind_ok _ _ _ _ _ HA), (bind_ok _ _ _ _ _ HI).
    rewrite (bind_ok _ _ _ _ _ HP).
    rewrite bind_run, apply_step_run, P, HS.
    rewrite restore_step_run. fold (backup_of text).
    unfold emit at 1. cbn [world]. rewrite HR. reflexivity.
  - unfold logged, emit. cbn [log snd world lines trace].
    repeat split. now rewrite <- app_assoc.
Qed.

End Destination.

(** On the tool of clip "A" all four calls are issued. *)
Lemma apply_calls_in_order_witness :
  exists evs,
    trace (snd (apply_style_and_restore_text (VObj 15) 0 (VStr "GetSettings")
                  (Studio.captured Studio.demo))) = [] ++ evs /\
    (evs = [] \/
     exists (h : handle) (setter : string) (patched text : pyval)
            (rest : list event),
       VObj 15 = VObj h /\
       In setter ["SetSettings"; "LoadSettings"] /\
       evs ++ rest =
       [ECall h "GetAttrs" [VStr "TOOLS_Name"];
        ECall h "GetInput" [VStr "StyledText"];
        ECall h setter [patched];
        ECall h "SetInput" [VStr "StyledText"; backup_of text]]).
Proof.
  exact (apply_calls_in_order (H:=Studio.host) (VObj 15) 0 (VStr "GetSettings")
           (Studio.captured Studio.demo) _ _ eq_refl).
Defined.

(** The tool of clip "A" takes the settings and refuses the text. *)
Lemma restore_failure_is_reported_witness :
  exists st' : state Studio.host,
    apply_style_and_restore_text (VObj 15) 0 (VStr "GetSettings")
      (Studio.captured Studio.locked_demo) = (Ok false, st') /\
    lines st' = ["  [Error] Failed to restore text: SetInput failed"] /\
    filter is_setter (trace st') =
    [ECall 15 "SetSettings"
       [VDict [(AStr "Tools",
                VDict [(AStr "TextA",
                        VDict [(AStr "Inputs", VDict [(AStr "Size", VInt 2)])])])]];
     ECall 15 "SetInput" [VStr "StyledText"; VStr "Hello"]].
Proof.
  destruct (restore_failure_is_reported (H:=Studio.host) 15 0
              (VStr "GetSettings") (VStr "TextA") (VStr "Hello") _ VNone
              "SetSettings" (HostError "SetInput failed") _ _
              (Studio.captured Studio.locked_demo) _ _ _
              eq_refl eq_refl eq_refl eq_refl eq_refl eq_refl)
    as (st' & E & _ & L & T).
  exists st'. split; [exact E|]. split; [exact L|]. rewrite T. reflexivity.
Defined.

(** ** The batch *)

Section Batch.
Context {H : Host}.

Lemma grows_first_text_named (tools : list pyval) :
  grows (first_text_named tools).
Proof.
  induction tools as [|tool rest IH]; simpl; [apply grows_ret|].
  apply grows_bind; [apply grows_call | intros name].
  apply grows_bind; [apply grows_lift | intros a].
  apply grows_bind; [destruct a; [apply grows_ret | apply grows_lift]|].
  intros b. destruct b; [apply grows_ret | exact IH].
Qed.

Lemma grows_find_textplus_tool (fusion_comp : pyval) :
  grows (find_textplus_tool fusion_comp).
Proof.
  unfold find_textplus_tool.
  destruct (negb (truthy fusion_comp)); [apply grows_ret|].
  apply grows_bind; [apply grows_call | intros tools_dict].
  apply grows_bind.
  { destruct (truthy tools_dict); [apply grows_lift | apply grows_ret]. }
  intros by_id. destruct by_id; [|apply grows_ret].
  apply grows_bind; [apply grows_call | intros all_tools].
  destruct (truthy all_tools); [|apply grows_ret].
  apply grows_bind; [apply grows_lift | intros tools].
  apply grows_first_text_named.
Qed.

Lemma grows_apply_style_and_restore_text (tool : pyval) (src : nat)
    (source_method : pyval) :
  grows (apply_style_and_restore_text tool src source_method).
Proof.
  unfold apply_style_and_restore_text.
  apply grows_bind; [apply grows_call | intros tgt_name].
  apply grows_bind; [apply grows_call | intros text].
  apply grows_bind; [apply grows_patch_step | intros patched].
  apply grows_bind.
  - unfold apply_step. apply grows_try.
    + apply grows_bind; [apply grows_hasattr | intros has_load].
      destruct (_ && _).
      * apply grows_bind; [apply grows_call | intros; apply grows_ret].
      * apply grows_bind; [apply grows_hasattr | intros has_set].
        destruct has_set.
        -- apply grows_bind; [apply grows_call | intros; apply grows_ret].
        -- destruct has_load; [|apply grows_ret].
           apply grows_bind; [apply grows_call | intros; apply grows_ret].
    + intros e. apply grows_bind; [apply grows_log | intros; apply grows_ret].
  - intros [b|[|]]; try apply grows_ret.
    unfold restore_step. apply grows_try.
    + apply grows_bind; [apply grows_call | intros; apply grows_ret].
    + intros e. apply grows_bind; [apply grows_log | intros; apply grows_ret].
Qed.

Lemma grows_apply_to_targets (src : nat) (method_used : pyval)
    (items : list pyval) (n : nat) :
  grows (apply_to_targets src method_used items n).
Proof.
  revert n. induction items as [|item rest IH]; intros n; simpl.
  - apply grows_ret.
  - apply grows_bind; [apply grows_call | intros name].
    apply grows_bind; [apply grows_call | intros comp].
    destruct (negb (truthy comp)).
    + apply grows_bind; [apply grows_log | intros; apply IH].
    + apply grows_bind; [apply grows_find_textplus_tool | intros tool].
      destruct (negb (truthy tool)).
      * apply grows_bind; [apply grows_log | intros; apply IH].
      * apply grows_bind; [|intros; apply IH].
        apply grows_try.
        -- apply grows_bind;
             [apply grows_apply_style_and_restore_text | intros ok].
           destruct ok;
             (apply grows_bind; [apply grows_log | intros; apply grows_ret]).
        -- intros e.
           apply grows_bind; [apply grows_log | intros; apply grows_ret].
Qed.

Lemma returns_try {A} (Q : A -> Prop) (m : M H A) (handler : exn -> M H A) :
  returns Q m -> (forall e, returns Q (handler e)) ->
  returns Q (try_except m handler).
Proof.
  intros Hm Hh st a st' E. unfold try_except in E.
  destruct (m st) as [[a'|e] st1] eqn:E1.
  - injection E as <- <-. eapply Hm; eauto.
  - eapply Hh; eauto.
Qed.

Lemma returns_apply_to_targets (src : nat) (method_used : pyval)
    (items : list pyval) (n : nat) :
  returns (fun k => n <= k <= n + List.length items)
          (apply_to_targets src method_used items n).
Proof.
  revert n. induction items as [|item rest IH]; intros n; simpl.
  - apply returns_ret. lia.
  - assert (Same : returns (fun k => n <= k <= n + S (List.length rest))
                     (apply_to_targets src method_used rest n)).
    { intros st k st' E. apply IH in E. lia. }
    assert (Next : returns (fun k => n <= k <= n + S (List.length rest))
                     (apply_to_targets src method_used rest (S n))).
    { intros st k st' E. apply IH in E. lia. }
    apply returns_bind. intros name. apply returns_bind. intros comp.
    destruct (negb (truthy comp)); [apply returns_bind; intros; exact Same|].
    apply returns_bind. intros tool.
    destruct (negb (truthy tool)); [apply returns_bind; intros; exact Same|].
    intros st k st' E. rewrite bind_run in E.
    destruct (try_except _ _ st) as [[count|e] st1] eqn:T; [|discriminate].
    assert (C : count = n \/ count = S n).
    { revert T. generalize st count st1.
      change (returns (fun c => c = n \/ c = S n)
                (try_except
                   (ok <- apply_style_and_restore_text tool src method_used ;;
                    if ok : bool
                    then log ("[OK] " ++ py_str H name) ;; ret (S n)
                    else log ("[Fail] " ++ py_str H name ++ ": Apply failed.") ;;
                         ret n)
                   (fun e => log ("[Fail] " ++ py_str H name ++ ": " ++ exn_str e) ;;
                             ret n))).
      apply returns_try.
      - apply returns_bind. intros [|]; apply returns_bind; intros;
          apply returns_ret; auto.
      - intros e. apply returns_bind. intros. apply returns_ret. auto. }
    destruct C as [-> | ->]; [eapply Same | eapply Next]; eauto.
Qed.

(** X10.  The tally of the batch never runs ahead of the destinations:
    starting from [n], the count that the loop over [target_items] returns
    lies between [n] and [n] plus the number of items. *)
Theorem tally_within_targets (src : nat) (method_used : pyval)
    (items : list pyval) (n k : nat) (st st' : state H) :
  apply_to_targets src method_used items n st = (Ok k, st') ->
  n <= k <= n + List.length items.
Proof. apply returns_apply_to_targets. Qed.

(** X11.  Through the whole batch, and however it ends, the captured
    snapshot stays as it was: every destination is patched from the same
    settings.  The log is only appended to, and every line logged is
    printed. *)
Theorem batch_keeps_snapshot (src : nat) (method_used : pyval)
    (items : list pyval) (n : nat) (st st' : state H) (r : result nat) :
  apply_to_targets src method_used items n st = (r, st') ->
  src < List.length (heap st) ->
  nth src (heap st') VNone = nth src (heap st) VNone /\
  exists l, lines st' = lines st ++ l /\ stdout st' = stdout st ++ l.
Proof.
  intros E L.
  destruct (grows_apply_to_targets _ _ _ _ _ _ _ E) as (Hl & (objs & P) & _).
  split; [|exact Hl]. rewrite P. now apply app_nth1.
Qed.

(** X12.  A destination whose name, composition and tool can be asked for
    gets exactly one verdict line, appended to the log and printed, and the
    loop goes on with the next one, also when
    [apply_style_and_restore_text] raises: "[Skip] .. No Comp." without a
    composition, "[Skip] .. No Text+ tool." without a tool, "[OK] .." when
    the function returned True, "[Fail] .." when it returned False or
    raised.  Nothing is logged for the destination before the function is
    called.  Only "[OK]" counts. *)
Theorem destination_gets_one_verdict (src : nat)
    (method_used item name comp tool : pyval) (rest : list pyval) (n : nat)
    (st st1 st2 st3 : state H) :
  call item "GetName" [] st = (Ok name, st1) ->
  call item "GetFusionCompByIndex" [VInt 1] st1 = (Ok comp, st2) ->
  find_textplus_tool comp st2 = (Ok tool, st3) ->
  lines st2 = lines st /\ lines st3 = lines st /\
  exists (verdict : string) (n' : nat) (st4 : state H),
    apply_to_targets src method_used (item :: rest) n st =
    apply_to_targets src method_used rest n'
      (mkState (world st4) (heap st4) (lines st4 ++ [verdict])
               (stdout st4 ++ [verdict]) (trace st4)) /\
    ((truthy comp = false /\ n' = n /\ st4 = st2 /\
      verdict = ("[Skip] " ++ py_str H name ++ ": No Comp.")%string) \/
     (truthy comp = true /\ truthy tool = false /\ n' = n /\ st4 = st3 /\
      verdict = ("[Skip] " ++ py_str H name ++ ": No Text+ tool.")%string) \/
     (truthy comp = true /\ truthy tool = true /\
      ((apply_style_and_restore_text tool src method_used st3 = (Ok true, st4) /\
        n' = S n /\ verdict = ("[OK] " ++ py_str H name)%string) \/
       (apply_style_and_restore_text tool src method_used st3 = (Ok false, st4) /\
        n' = n /\
        verdict = ("[Fail] " ++ py_str H name ++ ": Apply failed.")%string) \/
       (exists e,
          apply_style_and_restore_text tool src method_used st3 = (Raise e, st4) /\
          n' = n /\
          verdict = ("[Fail] " ++ py_str H name ++ ": " ++ exn_str e)%string)))).
Proof.
  intros HN HC HT.
  destruct (call_silent _ _ _ _ _ _ HN) as [L1 _].
  destruct (call_silent _ _ _ _ _ _ HC) as [L2 _].
  destruct (silent_find_textplus_tool _ _ _ _ HT) as (L3 & _).
  split; [congruence|]. split; [congruence|].
  simpl apply_to_targets.
  rewrite (bind_ok _ _ _ _ _ HN), (bind_ok _ _ _ _ _ HC).
  destruct (truthy comp) eqn:TC; cbn [negb].
  - rewrite (bind_ok _ _ _ _ _ HT).
    destruct (truthy tool) eqn:TT; cbn [negb].
    + destruct (apply_style_and_restore_text tool src method_used st3)
        as [[[|]|e] st4] eqn:A.
      * exists ("[OK] " ++ py_str H name)%string, (S n), st4.
        split; [|right; right; repeat split; left; auto].
        rewrite bind_run. unfold try_except. rewrite bind_run, A. reflexivity.
      * exists ("[Fail] " ++ py_str H name ++ ": Apply failed.")%string, n, st4.
        split; [|right; right; repeat split; right; left; auto].
        rewrite bind_run. unfold try_except. rewrite bind_run, A. reflexivity.
      * exists ("[Fail] " ++ py_str H name ++ ": " ++ exn_str e)%string, n, st4.
        split; [|right; right; repeat split; right; right; eauto].
        rewrite bind_run. unfold try_except. rewrite bind_run, A. reflexivity.
    + exists ("[Skip] " ++ py_str H name ++ ": No Text+ tool.")%string, n, st3.
      split; [reflexivity | right; left; auto].
  - exists ("[Skip] " ++ py_str H name ++ ": No Comp.")%string, n, st2.
    split; [reflexivity | left; auto].
Qed.

End Batch.

(** The two tagged clips of the scenario: a tally of two. *)
Lemma tally_within_targets_witness : 0 <= 2 <= 0 + 2.
Proof.
  exact (tally_within_targets (H:=Studio.host) 0 (VStr "GetSettings")
           [VObj 13; VObj 16] 0 2 (Studio.captured Studio.demo)
           (snd (apply_to_targets 0 (VStr "GetSettings") [VObj 13; VObj 16] 0
                   (Studio.captured Studio.demo)))
           ltac:(vm_compute; reflexivity)).
Defined.

(** The same batch: the snapshot at location 0 is still the source's. *)
Lemma batch_keeps_snapshot_witness :
  nth 0 (heap (snd (apply_to_targets 0 (VStr "GetSettings") [VObj 13; VObj 16] 0
                      (Studio.captured Studio.demo)))) VNone =
  Studio.source_dump.
Proof.
  exact (proj1 (batch_keeps_snapshot (H:=Studio.host) 0 (VStr "GetSettings")
                  [VObj 13; VObj 16] 0 (Studio.captured Studio.demo)
                  (snd (apply_to_targets 0 (VStr "GetSettings")
                          [VObj 13; VObj 16] 0 (Studio.captured Studio.demo)))
                  (fst (apply_to_targets 0 (VStr "GetSettings")
                          [VObj 13; VObj 16] 0 (Studio.captured Studio.demo)))
                  ltac:(vm_compute; reflexivity) (le_n 1))).
Defined.

(** Clip "A" when its text cannot be read: a verdict all the same. *)
Lemma destination_gets_one_verdict_witness :
  exists (verdict : string) (n' : nat) (st4 : state Studio.host),
    apply_to_targets 0 (VStr "GetSettings") [VObj 13; VObj 16] 0
      (Studio.captured Studio.unreadable_demo) =
    apply_to_targets 0 (VStr "GetSettings") [VObj 16] n'
      (mkState (world st4) (heap st4) (lines st4 ++ [verdict])
               (stdout st4 ++ [verdict]) (trace st4)).
Proof.
  destruct (destination_gets_one_verdict (H:=Studio.host) 0
              (VStr "GetSettings") (VObj 13) (VStr "A") (VObj 14) (VObj 15)
              [VObj 16] 0 (Studio.captured Studio.unreadable_demo)
              (snd (call (VObj 13) "GetName" []
                      (Studio.captured Studio.unreadable_demo)))
              (snd (call (VObj 13) "GetFusionCompByIndex" [VInt 1]
                 (snd (call (VObj 13) "GetName" []
                      (Studio.captured Studio.unreadable_demo)))))
              (snd (find_textplus_tool (VObj 14)
                (snd (call (VObj 13) "GetFusionCompByIndex" [VInt 1]
                 (snd (call (VObj 13) "GetName" []
                      (Studio.captured Studio.unreadable_demo)))))))
              ltac:(vm_compute; reflexivity) ltac:(vm_compute; reflexivity)
              ltac:(vm_compute; reflexivity))
    as (_ & _ & verdict & n' & st4 & E & _).
  exists verdict, n', st4. exact E.
Defined.

(** ** Whole runs *)

Section WholeRuns.
Context {H : Host}.

Lemma grows_probe (tool : pyval) (candidates : list (string * bool)) :
  grows (probe tool candidates).
Proof.
  induction candidates as [|[name method] rest IH]; simpl.
  - apply grows_ret.
  - destruct method; [|exact IH].
    apply grows_bind.
    + apply grows_try; [|intros; apply grows_ret].
      apply grows_bind; [apply grows_call | intros; apply grows_ret].
    + intros [result|]; [apply grows_ret | exact IH].
Qed.

Lemma grows_get_tool_settings (tool : pyval) :
  grows (get_tool_settings tool).
Proof.
  unfold get_tool_settings.
  repeat (apply grows_bind; [apply grows_hasattr | intros ?]).
  apply grows_probe.
Qed.

Lemma grows_scan_items (source_item : pyval) (items acc : list pyval) :
  grows (scan_items source_item items acc).
Proof.
  revert acc. induction items as [|item rest IH]; intros acc; simpl.
  - apply grows_ret.
  - destruct (py_eq item source_item); [apply IH|].
    apply grows_bind; [apply grows_call | intros color].
    destruct (py_eq color _); apply IH.
Qed.

Lemma grows_collect_targets (timeline source_item : pyval) :
  grows (collect_targets timeline source_item).
Proof.
  unfold collect_targets.
  apply grows_bind; [apply grows_call | intros n].
  apply grows_bind; [apply grows_lift | intros indices].
  generalize (@nil pyval) as acc.
  induction indices as [|i rest IH]; intros acc; simpl.
  - apply grows_ret.
  - apply grows_bind; [apply grows_call | intros items].
    apply grows_bind; [|intros; apply IH].
    destruct (truthy items); [|apply grows_ret].
    apply grows_bind; [apply grows_lift | intros l].
    apply grows_scan_items.
Qed.

Lemma grows_main_tool (resolve fusion timeline item comp : pyval) :
  grows (main_tool resolve fusion timeline item comp).
Proof.
  unfold main_tool.
  apply grows_bind; [apply grows_find_textplus_tool | intros tool].
  destruct (negb (truthy tool)); [|apply grows_ret].
  apply grows_bind; [apply grows_log | intros; apply grows_ret].
Qed.

Lemma grows_main_comp (resolve fusion timeline item : pyval) :
  grows (main_comp resolve fusion timeline item).
Proof.
  unfold main_comp.
  apply grows_bind; [apply grows_call | intros name].
  apply grows_bind; [apply grows_log | intros _].
  apply grows_bind; [apply grows_call | intros comp].
  destruct (negb (truthy comp)); [|apply grows_main_tool].
  apply grows_bind; [apply grows_call | intros _].
  apply grows_bind; [apply grows_time_sleep | intros _].
  apply grows_bind; [apply grows_call | intros comp'].
  apply grows_bind; [apply grows_call | intros _].
  destruct (negb (truthy comp')); [|apply grows_main_tool].
  apply grows_bind; [apply grows_log | intros; apply grows_ret].
Qed.

Lemma grows_main_source : grows (main_source (H:=H)).
Proof.
  unfold main_source.
  apply grows_bind; [apply grows_get_resolve | intros resolve].
  destruct (negb (truthy resolve)); [apply grows_ret|].
  do 4 (apply grows_bind; [apply grows_call | intros ?]).
  destruct (negb (truthy _)).
  { apply grows_bind; [apply grows_log | intros; apply grows_ret]. }
  apply grows_bind; [apply grows_call | intros item].
  destruct (negb (truthy item)); [|apply grows_main_comp].
  apply grows_bind; [apply grows_log | intros; apply grows_ret].
Qed.

Lemma grows_main_settings (v : locals) : grows (main_settings v).
Proof.
  unfold main_settings.
  apply grows_bind; [apply grows_get_tool_settings | intros [settings name]].
  destruct (negb (truthy settings)).
  - apply grows_bind; [apply grows_log | intros _].
    apply grows_bind; [apply grows_get_full_report | intros report].
    apply grows_bind; [apply grows_show_report_window | intros; apply grows_ret].
  - apply grows_bind; [apply grows_log | intros _].
    apply grows_bind; [apply grows_new_object | intros; apply grows_ret].
Qed.

Lemma grows_main_apply (resolve fusion : pyval) (src : nat)
    (method_used : pyval) (targets : list pyval) :
  grows (main_apply resolve fusion src method_used targets).
Proof.
  unfold main_apply. destruct targets as [|t ts].
  - apply grows_bind; [apply grows_log | intros _].
    apply grows_bind; [apply grows_get_full_report | intros report].
    apply grows_show_report_window.
  - apply grows_bind; [apply grows_log | intros _].
    apply grows_bind; [apply grows_call | intros _].
    apply grows_bind; [apply grows_apply_to_targets | intros k].
    apply grows_bind; [apply grows_log | intros _].
    apply grows_bind; [apply grows_log | intros _].
    apply grows_bind; [apply grows_get_full_report | intros report].
    apply grows_show_report_window.
Qed.

Lemma grows_main : grows (main (H:=H)).
Proof.
  unfold main.
  apply grows_bind; [apply grows_main_source | intros [v|]];
    [|apply grows_ret].
  apply grows_bind; [apply grows_main_settings | intros [[src m]|]];
    [|apply grows_ret].
  apply grows_bind; [apply grows_collect_targets | intros targets].
  apply grows_main_apply.
Qed.

(** X13.  However a run of [main] ends, what was printed is what the
    logger holds, line for line and in the same order. *)
Theorem main_prints_what_it_logs (w : World H) (r : result unit)
    (st : state H) :
  main (init w) = (r, st) -> stdout st = lines st.
Proof.
  intros E. destruct (grows_main _ _ _ E) as ((l & L & O) & _).
  cbn [init lines stdout] in L, O. congruence.
Qed.

Lemma emits_impl {A} (P Q : event -> Prop) (m : M H A) :
  (forall e, P e -> Q e) -> emits P m -> emits Q m.
Proof.
  intros PQ Hm st r st' E. destruct (Hm _ _ _ E) as (evs & T & F).
  exists evs. split; [exact T|]. eapply Forall_impl; eauto.
Qed.

Lemma emits_patch_step (P : event -> Prop) (src : nat) (tgt_name : pyval) :
  emits P (patch_step src tgt_name).
Proof.
  intros st r st' E.
  destruct (patch_step_effect _ _ _ _ _ E) as (_ & _ & T & _).
  exists []. rewrite app_nil_r. now split.
Qed.

Lemma plain_apply_style_and_restore_text (tool : pyval) (src : nat)
    (source_method : pyval) :
  emits plain_call (apply_style_and_restore_text tool src source_method).
Proof.
  unfold apply_style_and_restore_text.
  apply emits_bind; [apply emits_call; intros; now split | intros tgt_name].
  apply emits_bind; [apply emits_call; intros; now split | intros text].
  apply emits_bind; [apply emits_patch_step | intros patched].
  apply emits_bind.
  - unfold apply_step. apply emits_try.
    + apply emits_bind; [apply emits_hasattr | intros has_load].
      destruct (_ && _).
      * apply emits_bind;
          [apply emits_call; intros; now split | intros; apply emits_ret].
      * apply emits_bind; [apply emits_hasattr | intros has_set].
        destruct has_set.
        -- apply emits_bind;
             [apply emits_call; intros; now split | intros; apply emits_ret].
        -- destruct has_load; [|apply emits_ret].
           apply emits_bind;
             [apply emits_call; intros; now split | intros; apply emits_ret].
    + intros e. apply emits_bind; [apply emits_log | intros; apply emits_ret].
  - intros [b|[|]]; try apply emits_ret.
    unfold restore_step. apply emits_try.
    + apply emits_bind; [|intros; apply emits_ret].
      apply emits_call. intros. split; [|reflexivity].
      destruct text as [[| | |]| |]; reflexivity.
    + intros e. apply emits_bind; [apply emits_log | intros; apply emits_ret].
Qed.

Lemma plain_find_textplus_tool (comp : pyval) :
  emits lookup_call (find_textplus_tool comp).
Proof. apply emits_find_textplus_tool; intros; now repeat split. Qed.

Lemma plain_apply_to_targets (src : nat) (method_used : pyval)
    (items : list pyval) (n : nat) :
  emits plain_call (apply_to_targets src method_used items n).
Proof.
  revert n. induction items as [|item rest IH]; intros n; simpl.
  - apply emits_ret.
  - apply emits_bind; [apply emits_call; intros; now split | intros name].
    apply emits_bind; [apply emits_call; intros; now split | intros comp].
    destruct (negb (truthy comp)).
    + apply emits_bind; [apply emits_log | intros; apply IH].
    + apply emits_bind.
      { eapply emits_impl; [|apply plain_find_textplus_tool]. now intros e [p _]. }
      intros tool. destruct (negb (truthy tool)).
      * apply emits_bind; [apply emits_log | intros; apply IH].
      * apply emits_bind; [|intros; apply IH].
        apply emits_try.
        -- apply emits_bind;
             [apply plain_apply_style_and_restore_text | intros ok].
           destruct ok;
             (apply emits_bind; [apply emits_log | intros; apply emits_ret]).
        -- intros e.
           apply emits_bind; [apply emits_log | intros; apply emits_ret].
Qed.

Lemma lookup_main_source : emits lookup_call (main_source (H:=H)).
Proof.
  assert (T : forall resolve fusion timeline item comp,
             emits lookup_call (main_tool resolve fusion timeline item comp)).
  { intros. unfold main_tool.
    apply emits_bind; [apply plain_find_textplus_tool | intros tool].
    repeat emits_step. }
  unfold main_source.
  apply emits_bind;
    [apply emits_get_resolve; intros; now repeat split | intros resolve].
  destruct (negb (truthy resolve)); [apply emits_ret|].
  do 4 (apply emits_bind;
        [apply emits_call; intros; now repeat split | intros ?]).
  destruct (negb (truthy _)); [repeat emits_step|].
  apply emits_bind;
    [apply emits_call; intros; now repeat split | intros item].
  destruct (negb (truthy item)); [repeat emits_step|].
  unfold main_comp.
  apply emits_bind;
    [apply emits_call; intros; now repeat split | intros name].
  apply emits_bind; [apply emits_log | intros _].
  apply emits_bind;
    [apply emits_call; intros; now repeat split | intros comp].
  destruct (negb (truthy comp)); [|apply T].
  apply emits_bind;
    [apply emits_call; intros; now repeat split | intros _].
  apply emits_bind;
    [apply emits_time_sleep; now repeat split | intros _].
  apply emits_bind;
    [apply emits_call; intros; now repeat split | intros comp'].
  apply emits_bind;
    [apply emits_call; intros; now repeat split | intros _].
  destruct (negb (truthy comp')); [repeat emits_step | apply T].
Qed.

Lemma plain_get_tool_settings (tool : pyval) :
  emits plain_call (get_tool_settings tool).
Proof.
  apply emits_get_tool_settings. intros h name I.
  destruct I as [<-|[<-|[<-|[]]]]; now split.
Qed.

Lemma plain_collect_targets (timeline item : pyval) :
  emits plain_call (collect_targets timeline item).
Proof. apply emits_collect_targets; intros; now split. Qed.

(** X15.  In any run, every host call that [main] issues is one of a fixed
    repertoire.  The calls that write are OpenPage("Fusion"),
    OpenPage("Edit"), SetSettings or LoadSettings with one argument, and
    SetInput on "StyledText"; no other input is ever written and no other
    writing method is ever called. *)
Theorem main_stays_in_repertoire (w : World H) (r : result unit)
    (st : state H) :
  main (init w) = (r, st) ->
  Forall (fun e => allowed_call e = true) (trace st).
Proof.
  assert (D : forall fusion report,
             emits (fun e => allowed_call e = true)
                   (show_report_window fusion report))
    by (intros; now apply emits_show_report_window).
  assert (P : forall A (m : M H A),
             emits plain_call m -> emits (fun e => allowed_call e = true) m).
  { intros A m. apply emits_impl. now intros e [a _]. }
  assert (E : emits (fun e => allowed_call e = true) (main (H:=H))).
  { unfold main. apply emits_bind.
    { apply P. eapply emits_impl; [|apply lookup_main_source].
      now intros e [p _]. }
    intros [v|]; [|apply emits_ret].
    apply emits_bind.
    { unfold main_settings.
      apply emits_bind; [apply P, plain_get_tool_settings|].
      intros [settings name]. destruct (negb (truthy settings)).
      - repeat emits_step. apply D.
      - repeat emits_step. }
    intros [[src m]|]; [|apply emits_ret].
    apply emits_bind; [apply P, plain_collect_targets | intros targets].
    unfold main_apply. destruct targets as [|t ts].
    - repeat emits_step. apply D.
    - apply emits_bind; [apply emits_log | intros _].
      apply emits_bind; [apply emits_call; now intros | intros _].
      apply emits_bind; [apply P, plain_apply_to_targets | intros k].
      repeat emits_step. apply D. }
  intros Hrun. destruct (E _ _ _ Hrun) as (evs & T & F).
  cbn [init trace] in T. rewrite app_nil_l in T. now rewrite T.
Qed.

Lemma silent_get_resolve : silent (get_resolve (H:=H)).
Proof.
  intros st r st' E. unfold get_resolve in E.
  destruct (importable H (world st)).
  - destruct (scriptapp H _ (world st)). injection E as <- <-. auto.
  - destruct (fusionscript_loaded H (world st)).
    + destruct (scriptapp H _ (world st)). injection E as <- <-. auto.
    + injection E as <- <-. auto.
Qed.

(** One step of a run that goes on, when the step logs nothing. *)
Lemma bind_silent_inv {A B} (m : M H A) (k : A -> M H B)
    (st st' : state H) (b : B) :
  silent m ->
  bind m k st = (Ok b, st') ->
  exists a st1, lines st1 = lines st /\ k a st1 = (Ok b, st').
Proof.
  intros Hm E. rewrite bind_run in E.
  destruct (m st) as [[a|e] st1] eqn:E1; [|discriminate].
  destruct (Hm _ _ _ E1) as (L & _). exists a, st1. auto.
Qed.

Lemma main_tool_none (resolve fusion timeline item comp : pyval)
    (st st' : state H) :
  main_tool resolve fusion timeline item comp st = (Ok None, st') ->
  lines st' = lines st ++ ["[Error] Text+ tool not found."].
Proof.
  intros E. unfold main_tool in E.
  apply bind_silent_inv in E as (tool & s1 & L1 & E);
    [|apply silent_find_textplus_tool].
  destruct (negb (truthy tool)); [|discriminate].
  injection E as <-. cbn [lines]. now rewrite L1.
Qed.

(** X16.  When [main] returns before it reads the settings (no
    application, no timeline, no clip at the playhead, no composition, no
    tool), it ends normally without showing the report dialog, having
    called no setter and nothing of the scan; the log is empty or holds the
    one error line, after the "Source:" line once the source was named. *)
Theorem main_leaves_early (w : World H) (st : state H) :
  main_source (init w) = (Ok None, st) ->
  main (init w) = (Ok tt, st) /\
  Forall lookup_call (trace st) /\
  (lines st = [] \/
   lines st = ["[Error] No timeline open."] \/
   lines st = ["[Error] No clip found at playhead."] \/
   exists name : string,
     lines st = [("Source: " ++ name)%string;
                 "[Error] Could not load Fusion Comp."] \/
     lines st = [("Source: " ++ name)%string;
                 "[Error] Text+ tool not found."]).
Proof.
  intros E. split; [unfold main; now rewrite (bind_ok _ _ _ _ _ E)|]. split.
  { destruct (lookup_main_source _ _ _ E) as (evs & T & F).
    cbn [init trace] in T. rewrite app_nil_l in T. now rewrite T. }
  unfold main_source in E.
  apply bind_silent_inv in E as (resolve & s1 & L1 & E);
    [|apply silent_get_resolve].
  cbn [init lines] in L1.
  destruct (negb (truthy resolve)).
  { injection E as <-. now left. }
  apply bind_silent_inv in E as (fusion & s2 & L2 & E); [|apply silent_call].
  apply bind_silent_inv in E as (manager & s3 & L3 & E); [|apply silent_call].
  apply bind_silent_inv in E as (project & s4 & L4 & E); [|apply silent_call].
  apply bind_silent_inv in E as (timeline & s5 & L5 & E); [|apply silent_call].
  assert (L : lines s5 = []) by congruence.
  destruct (negb (truthy timeline)).
  { injection E as <-. right. left. cbn [lines]. now rewrite L. }
  apply bind_silent_inv in E as (item & s6 & L6 & E); [|apply silent_call].
  destruct (negb (truthy item)).
  { injection E as <-. right. right. left. cbn [lines]. now rewrite L6, L. }
  right. right. right. unfold main_comp in E.
  apply bind_silent_inv in E as (name & s7 & L7 & E); [|apply silent_call].
  exists (py_str H name).
  rewrite bind_run in E. cbn [log] in E.
  apply bind_silent_inv in E as (comp & s8 & L8 & E); [|apply silent_call].
  cbn [lines] in L8.
  assert (LS : lines s8 = [("Source: " ++ py_str H name)%string])
    by (rewrite L8, L7, L6, L; reflexivity).
  destruct (negb (truthy comp)).
  - apply bind_silent_inv in E as (x1 & s9 & L9 & E); [|apply silent_call].
    apply bind_silent_inv in E as (x2 & s10 & L10 & E);
      [|apply silent_time_sleep].
    apply bind_silent_inv in E as (comp' & s11 & L11 & E); [|apply silent_call].
    apply bind_silent_inv in E as (x3 & s12 & L12 & E); [|apply silent_call].
    assert (LS' : lines s12 = [("Source: " ++ py_str H name)%string])
      by congruence.
    destruct (negb (truthy comp')).
    + injection E as <-. left. cbn [lines]. now rewrite LS'.
    + right. apply main_tool_none in E. now rewrite E, LS'.
  - right. apply main_tool_none in E. now rewrite E, LS.
Qed.

Lemma show_report_window_trace (fusion : pyval) (report : string)
    (st : state H) :
  exists st' : state H,
    show_report_window fusion report st = (Ok tt, st') /\
    lines st' = lines st /\
    (trace st' = trace st \/
     exists h, trace st' = trace st ++ [EDialog h report]).
Proof.
  assert (Same : exists st' : state H,
             (Ok tt, st) = (Ok tt, st') /\ lines st' = lines st /\
             (trace st' = trace st \/
              exists h, trace st' = trace st ++ [EDialog h report])).
  { exists st. repeat split. now left. }
  unfold show_report_window.
  destruct (negb (truthy fusion)); [exact Same|].
  rewrite bind_run. unfold hasattr.
  destruct fusion as [[| | |h]| |]; try exact Same.
  destruct (has_attr H h "UIDispatcher" (world st)); [|exact Same].
  eexists. split; [reflexivity|]. split; [reflexivity|]. right. now exists h.
Qed.

(** Showing the log as the last thing. *)
Lemma report_shown_last (fusion : pyval) (st0 st' : state H)
    (r : result unit) :
  Forall (fun e => is_dialog e = false) (trace st0) ->
  (report <- get_full_report ;; show_report_window fusion report) st0 =
  (r, st') ->
  report_last st'.
Proof.
  intros F E. rewrite bind_run in E. cbn [get_full_report] in E.
  destruct (show_report_window_trace fusion
              (String.concat newline (lines st0)) st0)
    as (s & S & L & [T|(h & T)]); rewrite S in E; injection E as _ <-.
  - left. now rewrite T.
  - right. exists (trace st0), h. rewrite L. auto.
Qed.

Lemma no_dialog_after {A} (m : M H A) (st0 st' : state H) (r : result A) :
  emits plain_call m ->
  Forall (fun e => is_dialog e = false) (trace st0) ->
  m st0 = (r, st') ->
  Forall (fun e => is_dialog e = false) (trace st').
Proof.
  intros Hm F E. destruct (Hm _ _ _ E) as (evs & T & Fe).
  rewrite T. apply Forall_app. split; [exact F|].
  eapply Forall_impl; [|exact Fe]. now intros e [_ d].
Qed.

(** X17.  In any run of [main] the report dialog is shown at most once, as
    the very last thing, and its text is the whole log of the run, the
    lines joined by newlines: nothing is logged or called after it. *)
Theorem main_reports_last (w : World H) (r : result unit) (st : state H) :
  main (init w) = (r, st) -> report_last st.
Proof.
  intros E. unfold main in E. rewrite bind_run in E.
  assert (F0 : Forall (fun e => is_dialog e = false) (trace (init w)))
    by constructor.
  destruct (main_source (init w)) as [[[v|]|e] s1] eqn:E1.
  - assert (F1 : Forall (fun e => is_dialog e = false) (trace s1)).
    { eapply no_dialog_after; [|exact F0|exact E1].
      eapply emits_impl; [|apply lookup_main_source]. now intros ev [p _]. }
    rewrite bind_run in E. unfold main_settings in E. rewrite bind_run in E.
    destruct (get_tool_settings (source_tool v) s1)
      as [[[settings name]|e] s2] eqn:E2.
    + assert (F2 : Forall (fun e => is_dialog e = false) (trace s2))
        by (eapply no_dialog_after; [apply plain_get_tool_settings | |]; eauto).
      destruct (negb (truthy settings)).
      * rewrite bind_run in E. cbn [log] in E.
        rewrite bind_run in E. cbn [get_full_report] in E.
        rewrite bind_run in E.
        match type of E with
        | context [show_report_window ?f ?rep ?s] =>
            destruct (show_report_window_trace f rep s)
              as (s3 & S & L & [T|(h & T)]); rewrite S in E
        end; cbn [ret] in E; injection E as _ <-.
        -- left. rewrite T. exact F2.
        -- right. exists (trace s2), h. rewrite L. auto.
      * rewrite bind_run in E. cbn [log] in E.
        rewrite bind_run in E. cbn [new_object ret] in E.
        cbn [world heap lines stdout trace] in E. rewrite bind_run in E.
        match type of E with
        | context [collect_targets ?t ?i ?s] =>
            destruct (collect_targets t i s) as [[targets|e] s3] eqn:E3
        end.
        2:{ injection E as _ <-. left.
            eapply no_dialog_after; [apply plain_collect_targets| |exact E3].
            exact F2. }
        assert (F3 : Forall (fun e => is_dialog e = false) (trace s3)).
        { eapply no_dialog_after; [apply plain_collect_targets| |exact E3].
          exact F2. }
        unfold main_apply in E. destruct targets as [|t ts].
        -- rewrite bind_run in E. cbn [log] in E.
           eapply report_shown_last; [|exact E]. exact F3.
        -- rewrite bind_run in E. cbn [log] in E. rewrite bind_run in E.
           match type of E with
           | context [call ?a ?b ?c ?s] =>
               destruct (call a b c s) as [[x|e] s4] eqn:E4
           end.
           2:{ injection E as _ <-. left.
               eapply no_dialog_after; [| |exact E4];
                 [apply emits_call; now intros | exact F3]. }
           assert (F4 : Forall (fun e => is_dialog e = false) (trace s4)).
           { eapply no_dialog_after; [| |exact E4];
               [apply emits_call; now intros | exact F3]. }
           rewrite bind_run in E.
           destruct (apply_to_targets _ _ _ _ s4) as [[k|e] s5] eqn:E5.
           2:{ injection E as _ <-. left.
               eapply no_dialog_after; [apply plain_apply_to_targets| |exact E5].
               exact F4. }
           assert (F5 : Forall (fun e => is_dialog e = false) (trace s5)).
           { eapply no_dialog_after; [apply plain_apply_to_targets| |exact E5].
             exact F4. }
           rewrite bind_run in E. cbn [log] in E.
           rewrite bind_run in E. cbn [log] in E.
           eapply report_shown_last; [|exact E]. exact F5.
    + injection E as _ <-. left.
      eapply no_dialog_after; [apply plain_get_tool_settings | |]; eauto.
  - injection E as _ <-. left.
    eapply no_dialog_after; [|exact F0|exact E1].
    eapply emits_impl; [|apply lookup_main_source]. now intros ev [p _].
  - injection E as _ <-. left.
    eapply no_dialog_after; [|exact F0|exact E1].
    eapply emits_impl; [|apply lookup_main_source]. now intros ev [p _].
Qed.

Lemma silent_collect_targets (timeline item : pyval) :
  silent (collect_targets timeline item).
Proof.
  unfold collect_targets.
  apply silent_bind; [apply silent_call | intros n].
  apply silent_bind; [apply silent_lift | intros indices].
  generalize (@nil pyval) as acc.
  induction indices as [|i rest IH]; intros acc; simpl.
  - apply silent_ret.
  - apply silent_bind; [apply silent_call | intros items].
    apply silent_bind; [|intros; apply IH].
    destruct (truthy items); [|apply silent_ret].
    apply silent_bind; [apply silent_lift | intros l].
    revert acc. induction l as [|x l IHl]; intros acc; simpl.
    + apply silent_ret.
    + destruct (py_eq x item); [apply IHl|].
      apply silent_bind; [apply silent_call | intros color].
      destruct (py_eq color _); apply IHl.
Qed.

(** X18.  The selection scan only reads: it logs nothing, leaves the store
    alone and issues none but the three calls GetTrackCount,
    GetItemListInTrack and GetClipColor; and the clip colour is never asked
    of an item that equals the source item. *)
Theorem scan_spares_the_source (timeline item : pyval)
    (st st' : state H) (r : result (list pyval)) :
  collect_targets timeline item st = (r, st') ->
  lines st' = lines st /\ stdout st' = stdout st /\ heap st' = heap st /\
  exists evs,
    trace st' = trace st ++ evs /\
    Forall (fun e => is_scan e = true /\
                     (is_colour_query e = true ->
                      py_eq (receiver e) item = false)) evs.
Proof.
  intros E. destruct (silent_collect_targets _ _ _ _ _ E) as (L & O & P).
  repeat (split; [assumption|]).
  revert st r st' E L O P.
  change (forall st r st',
             collect_targets timeline item st = (r, st') ->
             lines st' = lines st -> stdout st' = stdout st ->
             heap st' = heap st ->
             exists evs,
               trace st' = trace st ++ evs /\
               Forall (fun e => is_scan e = true /\
                                (is_colour_query e = true ->
                                 py_eq (receiver e) item = false)) evs).
  intros st r st' E _ _ _. revert st r st' E.
  fold (emits (fun e => is_scan e = true /\
                        (is_colour_query e = true ->
                         py_eq (receiver e) item = false))
              (collect_targets timeline item)).
  unfold collect_targets.
  apply emits_bind;
    [apply emits_call; intros h _; split; [reflexivity | discriminate]|].
  intros n. apply emits_bind; [apply emits_lift | intros indices].
  generalize (@nil pyval) as acc.
  induction indices as [|i rest IH]; intros acc; simpl.
  - apply emits_ret.
  - apply emits_bind;
      [apply emits_call; intros h _; split; [reflexivity | discriminate]|].
    intros items. apply emits_bind; [|intros; apply IH].
    destruct (truthy items); [|apply emits_ret].
    apply emits_bind; [apply emits_lift | intros l].
    revert acc. induction l as [|x l IHl]; intros acc; simpl.
    + apply emits_ret.
    + destruct (py_eq x item) eqn:Q; [apply IHl|].
      apply emits_bind.
      { apply emits_call. intros h ->. split; [reflexivity|].
        intros _. exact Q. }
      intros color. destruct (py_eq color _); apply IHl.
Qed.

(** X19.  A run that works through a non-empty list of destinations ends
    its log with the line of dashes and "Done. Updated k clips.", where k
    is at most the number of destinations announced in the "Targets:" line
    at the head of the batch. *)
Theorem completed_run_tallies (resolve fusion : pyval) (src : nat)
    (method_used t : pyval) (ts : list pyval) (st st' : state H) :
  main_apply resolve fusion src method_used (t :: ts) st = (Ok tt, st') ->
  exists (k : nat) (verdicts : list string),
    k <= List.length (t :: ts) /\
    lines st' =
    lines st ++
    [("Targets: " ++ string_of_nat (List.length (t :: ts)) ++ " clips.")%string] ++
    verdicts ++
    [dashes; ("Done. Updated " ++ string_of_nat k ++ " clips.")%string].
Proof.
  intros E. unfold main_apply in E.
  rewrite bind_run in E. cbn [log] in E.
  apply bind_silent_inv in E as (x & s1 & L1 & E); [|apply silent_call].
  cbn [lines] in L1.
  rewrite bind_run in E.
  destruct (apply_to_targets src method_used (t :: ts) 0 s1)
    as [[k|e] s2] eqn:E2; [|discriminate].
  destruct (grows_apply_to_targets _ _ _ _ _ _ _ E2) as ((l & L2 & _) & _).
  pose proof (returns_apply_to_targets _ _ _ _ _ _ _ E2) as B.
  rewrite bind_run in E. cbn [log] in E.
  rewrite bind_run in E. cbn [log] in E.
  rewrite bind_run in E. cbn [get_full_report] in E.
  match type of E with
  | context [show_report_window ?f ?rep ?s] =>
      destruct (show_report_window_trace f rep s) as (s3 & S & L3 & _);
      rewrite S in E
  end.
  injection E as <-. exists k, l. split; [simpl in B |- *; lia|].
  rewrite L3. cbn [lines]. rewrite L2, L1. now rewrite <- !app_assoc.
Qed.

(** X20.  A timeline that reports no track (or a negative count) yields an
    empty list after that one call; a track count that is None, a string, a
    list or a dict makes the scan end in a TypeError after that one call. *)
Theorem scan_on_odd_track_count (timeline item n : pyval)
    (st st1 : state H) :
  call timeline "GetTrackCount" [VStr "video"] st = (Ok n, st1) ->
  ((exists z, n = VInt z /\ (z <= 0)%Z) ->
   collect_targets timeline item st = (Ok [], st1)) /\
  ((forall z, n <> VInt z) -> (forall h, n <> VObj h) ->
   exists msg,
     collect_targets timeline item st = (Raise (TypeError msg), st1)).
Proof.
  intros C. unfold collect_targets. rewrite (bind_ok _ _ _ _ _ C). split.
  - intros (z & -> & Z). rewrite bind_run. cbn [lift range_from_1].
    replace (Z.to_nat z) with 0 by lia. reflexivity.
  - intros Odd _. rewrite bind_run. cbn [lift].
    destruct n as [[|z|s|h]| |]; try (eexists; reflexivity).
    now destruct (Odd z).
Qed.

(** X21.  Started where neither DaVinciResolveScript can be imported nor
    fusionscript is loaded, [main] ends in the AttributeError of
    [None.scriptapp] at once: nothing is logged, no call is made and no
    window is shown. *)
Theorem main_outside_resolve (w : World H) :
  importable H w = false ->
  fusionscript_loaded H w = false ->
  main (init w) =
  (Raise (AttributeError "'NoneType' object has no attribute 'scriptapp'"),
   init w).
Proof.
  intros I F. unfold main, main_source.
  rewrite !bind_run. unfold get_resolve. cbn [init world].
  rewrite I, F. reflexivity.
Qed.

End WholeRuns.

(** ** A scan that finds nothing *)

Section EmptyScan.
Context {H : Host}.

(** A call whose result the run goes on with. *)
Lemma call_inv {B} (recv : pyval) (meth : string) (args : list pyval)
    (k : pyval -> M H B) (st st' : state H) (b : B) :
  bind (call recv meth args) k st = (Ok b, st') ->
  exists h a w,
    recv = VObj h /\
    invoke H h meth args (world st) = (Ok a, w) /\
    k a (emit (ECall h meth args) w st) = (Ok b, st').
Proof.
  intros E. rewrite bind_run in E.
  destruct recv as [[| | |h]| |]; try discriminate E.
  rewrite call_run in E.
  destruct (invoke H h meth args (world st)) as [[a|e] w] eqn:I;
    [|discriminate E].
  exists h, a, w. auto.
Qed.

Lemma main_tool_shape (resolve0 fusion0 timeline0 item comp : pyval)
    (v : locals) (st st' : state H) :
  main_tool resolve0 fusion0 timeline0 item comp st = (Ok (Some v), st') ->
  resolve v = resolve0 /\ source_item v = item /\
  exists post,
    trace st' = trace st ++ post /\
    Forall (fun e => is_query e = true) post.
Proof.
  intros E. unfold main_tool in E.
  apply (bind_inv (fun e => is_query e = true)) in E
    as (tool & st1 & evs & _ & T & F & _ & E);
    [|apply emits_find_textplus_tool; intros; reflexivity].
  destruct (negb (truthy tool)).
  - rewrite bind_run in E. discriminate E.
  - injection E as <- <-. repeat split. now exists evs.
Qed.

(** The calls of lines 198-215 when they reach line 217: the name and the
    composition of the source item are asked for; when there is no
    composition yet the page is switched to Fusion, the composition asked
    for again after a second, and the page switched to Edit; then come the
    calls of the tool search. *)
Lemma main_comp_shape (resolve0 fusion0 timeline0 item : pyval)
    (v : locals) (st st' : state H) :
  main_comp resolve0 fusion0 timeline0 item st = (Ok (Some v), st') ->
  exists (h : handle) (w : World H) (comp : pyval)
         (page post : list event),
    source_item v = VObj h /\ item = VObj h /\
    fst (invoke H h "GetFusionCompByIndex" [VInt 1] w) = Ok comp /\
    trace st' =
    trace st ++ [ECall h "GetName" []] ++
    [ECall h "GetFusionCompByIndex" [VInt 1]] ++ page ++ post /\
    Forall (fun e => is_query e = true) post /\
    (if truthy comp then page = []
     else exists r,
         resolve v = VObj r /\
         page = [ECall r "OpenPage" [VStr "Fusion"]; ESleep;
                 ECall h "GetFusionCompByIndex" [VInt 1];
                 ECall r "OpenPage" [VStr "Edit"]]).
Proof.
  intros E. unfold main_comp in E.
  apply call_inv in E as (h & name & w1 & -> & I1 & E).
  rewrite bind_run in E. cbn [log] in E.
  apply call_inv in E as (h' & comp & w2 & Q & I2 & E).
  injection Q as <-. cbn [world emit] in I2.
  exists h, w1, comp.
  destruct (truthy comp) eqn:TC; cbn [negb] in E.
  - destruct (main_tool_shape _ _ _ _ _ _ _ _ E) as (_ & S & post & T & F).
    exists [], post. rewrite I2. repeat split; auto.
    rewrite T. cbn [emit trace]. now rewrite <- !app_assoc.
  - apply call_inv in E as (r & x1 & w3 & -> & I3 & E).
    rewrite bind_run in E. cbn [time_sleep] in E.
    apply call_inv in E as (h' & comp' & w4 & Q & I4 & E).
    injection Q as <-.
    apply call_inv in E as (r' & x2 & w5 & Q & I5 & E).
    injection Q as <-.
    destruct (negb (truthy comp')).
    { rewrite bind_run in E. discriminate E. }
    destruct (main_tool_shape _ _ _ _ _ _ _ _ E) as (R & S & post & T & F).
    exists [ECall r "OpenPage" [VStr "Fusion"]; ESleep;
            ECall h "GetFusionCompByIndex" [VInt 1];
            ECall r "OpenPage" [VStr "Edit"]], post.
    rewrite I2. repeat split; auto.
    + rewrite T. cbn [emit trace]. rewrite <- !app_assoc. reflexivity.
    + exists r. split; [exact R | reflexivity].
Qed.

(** The calls of lines 180-215 when they reach line 217. *)
Lemma main_source_shape (v : locals) (st st' : state H) :
  main_source st = (Ok (Some v), st') ->
  exists (h : handle) (w : World H) (comp : pyval)
         (pre page post : list event),
    source_item v = VObj h /\
    fst (invoke H h "GetFusionCompByIndex" [VInt 1] w) = Ok comp /\
    trace st' =
    trace st ++ pre ++ [ECall h "GetFusionCompByIndex" [VInt 1]] ++
    page ++ post /\
    Forall (fun e => is_query e = true) pre /\
    Forall (fun e => is_query e = true) post /\
    (if truthy comp then page = []
     else exists r,
         resolve v = VObj r /\
         page = [ECall r "OpenPage" [VStr "Fusion"]; ESleep;
                 ECall h "GetFusionCompByIndex" [VInt 1];
                 ECall r "OpenPage" [VStr "Edit"]]).
Proof.
  intros E. unfold main_source in E.
  apply (bind_inv (fun e => is_query e = true)) in E as (resolve0 & st1 & evs1 & _ & T1 & F1 & _ & E);
    [|apply emits_get_resolve; now intros].
  destruct (negb (truthy resolve0)); [discriminate|].
  apply (bind_inv (fun e => is_query e = true)) in E as (fusion0 & st2 & evs2 & _ & T2 & F2 & _ & E);
    [|apply emits_call; now intros].
  apply (bind_inv (fun e => is_query e = true)) in E as (manager & st3 & evs3 & _ & T3 & F3 & _ & E);
    [|apply emits_call; now intros].
  apply (bind_inv (fun e => is_query e = true)) in E as (project & st4 & evs4 & _ & T4 & F4 & _ & E);
    [|apply emits_call; now intros].
  apply (bind_inv (fun e => is_query e = true)) in E as (timeline0 & st5 & evs5 & _ & T5 & F5 & _ & E);
    [|apply emits_call; now intros].
  destruct (negb (truthy timeline0)).
  { rewrite bind_run in E. discriminate. }
  apply (bind_inv (fun e => is_query e = true)) in E as (item & st6 & evs6 & _ & T6 & F6 & _ & E);
    [|apply emits_call; now intros].
  destruct (negb (truthy item)).
  { rewrite bind_run in E. discriminate. }
  destruct (main_comp_shape _ _ _ _ _ _ _ E)
    as (h & w & comp & page & post & S & _ & I & T & F & P).
  exists h, w, comp,
    (evs1 ++ evs2 ++ evs3 ++ evs4 ++ evs5 ++ evs6 ++ [ECall h "GetName" []]),
    page, post.
  split; [exact S|]. split; [exact I|]. split.
  { rewrite T, T6, T5, T4, T3, T2, T1. now rewrite <- !app_assoc. }
  split; [|split; [exact F | exact P]].
  repeat (apply Forall_app; split); try assumption.
  now repeat constructor.
Qed.

(** C6, as amended.  When the scan collects no destination, [main] logs the
    warning and returns, and after the scan it has issued nothing but the
    report dialog, if that: the page switch of line 249 is not reached.
    Before the scan the run asked the source item for its composition,
    either once, or - the reload of lines 203-207 - once, then the page
    switched to Fusion, a sleep, the composition asked for again and the
    page switched to Edit; every other call before the scan is a query.
    The scan issues its three calls only.  So no setter is called in the
    run and no composition is asked of an item other than the source. *)
Theorem main_without_targets (w : World H) (v : locals) (snapshot : nat)
    (method_used : pyval) (st st1 st2 : state H) :
  main_source (init w) = (Ok (Some v), st) ->
  main_settings v st = (Ok (Some (snapshot, method_used)), st1) ->
  collect_targets (timeline v) (source_item v) st1 = (Ok [], st2) ->
  exists st3 : state H,
    main (init w) = (Ok tt, st3) /\
    lines st3 = lines st2 ++ ["[Warning] No 'Pink' clips found."] /\
    stdout st3 = stdout st2 ++ ["[Warning] No 'Pink' clips found."] /\
    (exists (h : handle) (pre page post : list event),
       source_item v = VObj h /\
       trace st1 =
       pre ++ [ECall h "GetFusionCompByIndex" [VInt 1]] ++ page ++ post /\
       Forall (fun e => is_query e = true) pre /\
       Forall (fun e => is_query e = true) post /\
       (page = [] \/
        exists r,
          resolve v = VObj r /\
          page = [ECall r "OpenPage" [VStr "Fusion"]; ESleep;
                  ECall h "GetFusionCompByIndex" [VInt 1];
                  ECall r "OpenPage" [VStr "Edit"]])) /\
    (exists scan,
       trace st2 = trace st1 ++ scan /\
       Forall (fun e => is_scan e = true) scan) /\
    (trace st3 = trace st2 \/
     exists f,
       trace st3 =
       trace st2 ++ [EDialog f (String.concat newline (lines st3))]) /\
    Forall (leaves_destinations (source_item v)) (trace st3).
Proof.
  intros Hs Hc Ht.
  destruct (main_source_shape _ _ _ Hs)
    as (h & w0 & comp & pre & page & post & S & I & T & Fpre & Fpost & P0).
  cbn [init trace] in T. rewrite app_nil_l in T.
  assert (P : page = [] \/
              exists r,
                resolve v = VObj r /\
                page = [ECall r "OpenPage" [VStr "Fusion"]; ESleep;
                        ECall h "GetFusionCompByIndex" [VInt 1];
                        ECall r "OpenPage" [VStr "Edit"]]).
  { destruct (truthy comp); [left | right]; exact P0. }
  clear P0 I.
  assert (EC : exists evs, trace st1 = trace st ++ evs /\
                           Forall (fun e => is_query e = true) evs).
  { unfold main_settings in Hc.
    apply (bind_inv (fun e => is_query e = true)) in Hc
      as ([settings name] & sa & evs & _ & Ta & Fa & _ & Hc).
    - destruct (negb (truthy settings)).
      + rewrite bind_run in Hc. cbn [log] in Hc. rewrite bind_run in Hc.
        cbn [get_full_report] in Hc. rewrite bind_run in Hc.
        destruct (show_report_window _ _ _) as [[[]|e] sb];
          discriminate Hc.
      + rewrite bind_run in Hc. cbn [log] in Hc. rewrite bind_run in Hc.
        cbn [new_object] in Hc. injection Hc as _ _ <-.
        exists evs. now split.
    - apply emits_get_tool_settings. intros h0 name I0.
      destruct I0 as [<-|[<-|[<-|[]]]]; reflexivity. }
  destruct EC as (evs2 & T2 & F2).
  assert (ET : emits (fun e => is_scan e = true)
                     (collect_targets (timeline v) (source_item v))).
  { apply emits_collect_targets; intros; reflexivity. }
  destruct (ET _ _ _ Ht) as (scan & T3 & F3).
  destruct (show_report_window_trace (fusion v)
              (String.concat newline
                 (lines st2 ++ ["[Warning] No 'Pink' clips found."]))
              (mkState (world st2) (heap st2)
                 (lines st2 ++ ["[Warning] No 'Pink' clips found."])
                 (stdout st2 ++ ["[Warning] No 'Pink' clips found."])
                 (trace st2)))
    as (st3 & R & L & D).
  cbn [lines stdout trace] in L, D.
  assert (Tail : trace st3 = trace st2 \/
                 exists f, trace st3 =
                   trace st2 ++ [EDialog f (String.concat newline (lines st3))]).
  { rewrite L. exact D. }
  assert (Out : stdout st3 = stdout st2 ++ ["[Warning] No 'Pink' clips found."]).
  { assert (SO : silent (show_report_window (fusion v)
                   (String.concat newline
                      (lines st2 ++ ["[Warning] No 'Pink' clips found."])))).
    { unfold show_report_window.
      destruct (negb (truthy (fusion v))); [apply silent_ret|].
      apply silent_bind; [apply silent_hasattr | intros b].
      destruct (fusion v) as [[| | |f]| |]; try apply silent_ret.
      destruct b; [|apply silent_ret].
      intros s r s' E. injection E as <- <-. now repeat split. }
    destruct (SO _ _ _ R) as (_ & SO' & _). exact SO'. }
  exists st3. split; [|split; [exact L|split; [exact Out|]]].
  { unfold main. rewrite (bind_ok _ _ _ _ _ Hs), (bind_ok _ _ _ _ _ Hc).
    rewrite (bind_ok _ _ _ _ _ Ht). unfold main_apply.
    msimpl. msimpl_in R. exact R. }
  split.
  { exists h, pre, page, (post ++ evs2).
    split; [exact S|]. split.
    { rewrite T2, T. now rewrite <- !app_assoc. }
    split; [exact Fpre|]. split; [|exact P].
    apply Forall_app. now split. }
  split; [now exists scan|]. split; [exact Tail|].
  assert (Qr : forall e, is_query e = true ->
                         leaves_destinations (source_item v) e).
  { intros [m| h0 m a | | f r] Q; try discriminate Q; [now split|].
    cbn [is_query existsb] in Q.
    repeat match type of Q with
           | (String.eqb ?m ?n || _)%bool = true =>
               destruct (String.eqb_spec m n) as [->|_];
               [split; [reflexivity | discriminate] | cbn [orb] in Q]
           end.
    discriminate Q. }
  assert (Before : Forall (leaves_destinations (source_item v)) (trace st2)).
  { rewrite T3, T2, T.
    repeat (apply Forall_app; split).
    - eapply Forall_impl; [exact Qr | exact Fpre].
    - repeat constructor. intros _. now rewrite S.
    - destruct P as [->|(r & _ & ->)]; [constructor|].
      repeat constructor; try discriminate. intros _. now rewrite S.
    - eapply Forall_impl; [exact Qr | exact Fpost].
    - eapply Forall_impl; [exact Qr | exact F2].
    - eapply Forall_impl; [|exact F3]. intros e Sc.
      destruct e as [m| h0 m a | | f r]; try discriminate Sc.
      cbn [is_scan] in Sc.
      destruct (String.eqb_spec m "GetTrackCount") as [->|_];
        [split; [reflexivity | discriminate]|].
      destruct (String.eqb_spec m "GetItemListInTrack") as [->|_];
        [split; [reflexivity | discriminate]|].
      destruct (String.eqb_spec m "GetClipColor") as [->|_];
        [split; [reflexivity | discriminate]|].
      simpl in Sc. discriminate Sc. }
  destruct Tail as [->|(f & ->)]; [exact Before|].
  apply Forall_app. split; [exact Before|].
  repeat constructor. discriminate.
Qed.

End EmptyScan.

(** A timeline without a tagged clip besides the source. *)
Lemma main_without_targets_witness :
  exists st3 : state Studio.host,
    main (init (H:=Studio.host) Studio.untagged_demo) = (Ok tt, st3) /\
    lines st3 = ["Source: Title";
                 "[Success] Settings captured via 'GetSettings'";
                 "[Warning] No 'Pink' clips found."] /\
    Forall (leaves_destinations (VObj 10)) (trace st3).
Proof.
  destruct (main_without_targets (H:=Studio.host) Studio.untagged_demo
              (mkLocals (VObj 0) (VObj 1) (VObj 4) (VObj 10) (VObj 12))
              0 (VStr "GetSettings")
              (snd (main_source (init (H:=Studio.host) Studio.untagged_demo)))
              (snd (main_settings
                      (mkLocals (VObj 0) (VObj 1) (VObj 4) (VObj 10) (VObj 12))
                      (snd (main_source (init (H:=Studio.host) Studio.untagged_demo)))))
              (snd (collect_targets (VObj 4) (VObj 10)
                 (snd (main_settings
                      (mkLocals (VObj 0) (VObj 1) (VObj 4) (VObj 10) (VObj 12))
                      (snd (main_source (init (H:=Studio.host) Studio.untagged_demo)))))))
              ltac:(vm_compute; reflexivity) ltac:(vm_compute; reflexivity)
              ltac:(vm_compute; reflexivity))
    as (st3 & E & L & _ & _ & _ & _ & F).
  exists st3. split; [exact E|]. split; [exact L | exact F].
Defined.

(** C6 as stated fails when the composition of the source is not loaded
    yet: before the scan finds no tagged clip, [main] has switched the
    application to the Fusion page and back to the Edit page, which is not
    the page the run started on, and has asked the source item for its
    composition. *)
Lemma page_switch_counterexample :
  let run := main (init (H:=Studio.host) Studio.untagged_demo) in
  fst run = Ok tt /\
  In "[Warning] No 'Pink' clips found." (lines (snd run)) /\
  pink_others (H:=Studio.host) Studio.untagged_demo (VObj 4) (VObj 10)
    (track_indices (H:=Studio.host) Studio.untagged_demo (VObj 4)) = [] /\
  In (ECall 0 "OpenPage" [VStr "Fusion"]) (trace (snd run)) /\
  In (ECall 0 "OpenPage" [VStr "Edit"]) (trace (snd run)) /\
  In (ECall 10 "GetFusionCompByIndex" [VInt 1]) (trace (snd run)) /\
  Studio.page Studio.untagged_demo = "Color" /\
  Studio.page (world (snd run)) = "Edit".
Proof.
  vm_compute.
  repeat split; try reflexivity; repeat (first [left; reflexivity | right]).
Qed.

(** The scenario of the specification: everything logged was printed. *)
Lemma main_prints_what_it_logs_witness :
  exists st : state Studio.host,
    main (init (H:=Studio.host) Studio.demo) = (Ok tt, st) /\
    stdout st = lines st.
Proof.
  exists (snd (main (init (H:=Studio.host) Studio.demo))).
  split; [vm_compute; reflexivity|].
  apply (main_prints_what_it_logs (H:=Studio.host) Studio.demo (Ok tt)).
  vm_compute; reflexivity.
Defined.

(** The scenario of the specification stays within the repertoire. *)
Lemma main_stays_in_repertoire_witness :
  Forall (fun e => allowed_call e = true)
         (trace (snd (main (init (H:=Studio.host) Studio.demo)))).
Proof.
  apply (main_stays_in_repertoire (H:=Studio.host) Studio.demo (Ok tt)).
  vm_compute; reflexivity.
Defined.

(** No clip under the playhead. *)
Lemma main_leaves_early_witness :
  let st := snd (main_source (init (H:=Studio.host) Studio.parked_demo)) in
  main (init (H:=Studio.host) Studio.parked_demo) = (Ok tt, st) /\
  Forall lookup_call (trace st).
Proof.
  destruct (main_leaves_early (H:=Studio.host) Studio.parked_demo
              (snd (main_source (init (H:=Studio.host) Studio.parked_demo)))
              ltac:(vm_compute; reflexivity)) as (E & F & _).
  split; [exact E | exact F].
Defined.

(** The run that raises for want of a project shows no window; the scenario
    of the specification shows its log last. *)
Lemma main_reports_last_witness :
  report_last (snd (main (init (H:=Studio.host) Studio.closed_demo))) /\
  report_last (snd (main (init (H:=Studio.host) Studio.demo))).
Proof.
  split.
  - apply (main_reports_last (H:=Studio.host) Studio.closed_demo
             (fst (main (init (H:=Studio.host) Studio.closed_demo)))).
    vm_compute; reflexivity.
  - apply (main_reports_last (H:=Studio.host) Studio.demo (Ok tt)).
    vm_compute; reflexivity.
Defined.

(** The scan of the timeline whose source is tagged like the
    destinations. *)
Lemma scan_spares_the_source_witness :
  let st := init (H:=Studio.host) Studio.pink_source_demo in
  let st' := snd (collect_targets (VObj 4) (VObj 10) st) in
  lines st' = lines st /\ heap st' = heap st /\
  Forall (fun e => is_colour_query e = true ->
                   py_eq (receiver e) (VObj 10) = false) (trace st').
Proof.
  destruct (scan_spares_the_source (H:=Studio.host) (VObj 4) (VObj 10)
              (init (H:=Studio.host) Studio.pink_source_demo)
              (snd (collect_targets (VObj 4) (VObj 10)
                      (init (H:=Studio.host) Studio.pink_source_demo)))
              (Ok [VObj 13; VObj 16])
              ltac:(vm_compute; reflexivity)) as (L & _ & P & evs & T & F).
  split; [exact L|]. split; [exact P|].
  cbv zeta. rewrite T. cbn [init trace app].
  apply Forall_impl with (2 := F). intros e [_ Q]. exact Q.
Defined.

(** The batch of the scenario of the specification. *)
Lemma completed_run_tallies_witness :
  let st := Studio.captured Studio.demo in
  exists (k : nat) (verdicts : list string),
    k <= 2 /\
    lines (snd (main_apply (VObj 0) (VObj 1) 0 (VStr "GetSettings")
                  [VObj 13; VObj 16] st)) =
    lines st ++ ["Targets: 2 clips."] ++ verdicts ++
    [dashes; ("Done. Updated " ++ string_of_nat k ++ " clips.")%string].
Proof.
  exact (completed_run_tallies (H:=Studio.host) (VObj 0) (VObj 1) 0
           (VStr "GetSettings") (VObj 13) [VObj 16]
           (Studio.captured Studio.demo)
           (snd (main_apply (VObj 0) (VObj 1) 0 (VStr "GetSettings")
                   [VObj 13; VObj 16] (Studio.captured Studio.demo)))
           ltac:(vm_compute; reflexivity)).
Defined.

(** A timeline without a video track. *)
Lemma scan_on_odd_track_count_witness :
  let st := init (H:=Studio.host) Studio.trackless_demo in
  collect_targets (VObj 4) (VObj 10) st =
  (Ok [], snd (call (VObj 4) "GetTrackCount" [VStr "video"] st)).
Proof.
  destruct (scan_on_odd_track_count (H:=Studio.host) (VObj 4) (VObj 10)
              (VInt 0) (init (H:=Studio.host) Studio.trackless_demo)
              (snd (call (VObj 4) "GetTrackCount" [VStr "video"]
                      (init (H:=Studio.host) Studio.trackless_demo)))
              ltac:(vm_compute; reflexivity)) as [Z _].
  apply Z. exists 0%Z. split; [reflexivity | lia].
Defined.

(** The script started outside the application. *)
Lemma main_outside_resolve_witness :
  main (init (H:=Studio.outside) Studio.demo) =
  (Raise (AttributeError "'NoneType' object has no attribute 'scriptapp'"),
   init (H:=Studio.outside) Studio.demo).
Proof.
  apply (main_outside_resolve (H:=Studio.outside) Studio.demo);
    reflexivity.
Defined.
